(** * OneDrive document retrieval: a shallow embedding of the RAG pipeline

    The development follows the Python sources of the repository:
    - [Py]             : the Python values the sources rely on (exceptions,
                         list subscripts, [str] and [posixpath] functions)
    - [Retriever]      : backend/retriever.py (lazy loading, top-k retrieval)
    - [Main]           : backend/llm_answer.py and backend/main.py (/ask)
    - [OneDriveClient] : backend/onedrive_client.py (authenticated requests,
                         recursive listing)
    - [Ingest]         : backend/ingest_onedrive.py (download with retry)
    - [Extract]        : backend/extract_answers_smart.py (extraction run)
    - [Embed]          : backend/embed.py (chunking and index build)
    - [Normalize]      : the two [_normalize] functions, and binary32
    - [EmbeddingUtils] : backend/embedding_utils.py (provider chain)
    - [Batching], [Snapshot] : the batches of the index build, and the
                         pair the retriever keeps in memory
    - [McpServer], [Reindex] : backend/mcp_server.py (list_docs, reindex)
    - [IngestRun], [SafeName], [Housekeeping] : the counters of a fetch,
                         file names, cleaning and repairing the staging area
    - [Blank], [ExtractRun], [ExtractFormats] : the counters of an
                         extraction run, spreadsheets and PDFs
    - [OneDriveTraffic], [Upload] : listing pages, downloads and uploads

    Python exceptions are values of [Py.result]; module-level globals, the
    local file system and the requests sent are explicit state that the
    functions thread through; the services outside the repository (the
    Graph API, the token provider, the document parsers, the text splitter,
    the embedding provider, FAISS and the chat model) are Section
    variables. *)

From Stdlib Require Import ZArith Lia Ascii String.
From Stdlib Require Floats.SpecFloat.
From Stdlib Require OrderedTypeEx.
From stdpp Require Import gmap strings list fin_maps sorting pretty.

(** ** Python values, exceptions and the state-and-exception monad *)
Module Py.

Inductive exn_class :=
| FileNotFoundError
| ValueError
| RuntimeError
| IndexError
| KeyError
| AssertionError
| HTTPStatusError
| OtherException.

#[global] Instance exn_class_eq_dec : EqDecision exn_class.
Proof. solve_decision. Defined.

(** An exception object: its class and [str(e)]. *)
Record exn := mk_exn { exn_cls : exn_class; exn_msg : string }.

Inductive result (A : Type) :=
| Ok (a : A)
| Raise (e : exn).
Arguments Ok {A} a.
Arguments Raise {A} e.

(** A computation over the globals [S] that returns or raises; the state
    survives a raise, as assignments to Python globals do. *)
Definition M (S A : Type) : Type := S -> result A * S.

Definition ret {S A} (a : A) : M S A := fun s => (Ok a, s).
Definition raise {S A} (e : exn) : M S A := fun s => (Raise e, s).
Definition lift {S A} (r : result A) : M S A := fun s => (r, s).
Definition get {S} : M S S := fun s => (Ok s, s).
Definition put {S} (s : S) : M S unit := fun _ => (Ok tt, s).
Definition bind {S A B} (c : M S A) (k : A -> M S B) : M S B :=
  fun s => match c s with
           | (Ok a, s') => k a s'
           | (Raise e, s') => (Raise e, s')
           end.

(** [l[i]] on a Python list: negative indices count from the end, anything
    outside [-len, len) raises IndexError. *)
Definition getitem {A} (l : list A) (i : Z) : result A :=
  let n := Z.of_nat (length l) in
  let j := if (i <? 0)%Z then (i + n)%Z else i in
  if ((0 <=? j) && (j <? n))%Z
  then match l !! Z.to_nat j with
       | Some x => Ok x
       | None => Raise (mk_exn IndexError "list index out of range")
       end
  else Raise (mk_exn IndexError "list index out of range").

(** [sep.join(l)]. *)
Fixpoint join (sep : string) (l : list string) : string :=
  match l with
  | [] => ""
  | [x] => x
  | x :: rest => x +:+ sep +:+ join sep rest
  end.

Definition nl : string := String (Ascii.ascii_of_nat 10) "".

(** *** Strings

    Text and file names are ASCII strings; the functions below are the
    [str] methods and [posixpath] functions the sources call, on that
    alphabet. *)

Definition chars (s : string) : list ascii := list_ascii_of_string s.
Definition str (l : list ascii) : string := string_of_list_ascii l.

Definition lower_char (c : ascii) : ascii :=
  let n := Ascii.nat_of_ascii c in
  if (65 <=? n) && (n <=? 90) then Ascii.ascii_of_nat (n + 32) else c.

Definition upper_char (c : ascii) : ascii :=
  let n := Ascii.nat_of_ascii c in
  if (97 <=? n) && (n <=? 122) then Ascii.ascii_of_nat (n - 32) else c.

Definition lower (s : string) : string := str (map lower_char (chars s)).
Definition upper (s : string) : string := str (map upper_char (chars s)).

(** [str.isspace] on one ASCII character: tab, the line separators, the
    four information separators and the blank. *)
Definition is_space (c : ascii) : bool :=
  let n := Ascii.nat_of_ascii c in
  ((9 <=? n) && (n <=? 13)) || ((28 <=? n) && (n <=? 31)) || (n =? 32).

Fixpoint lstrip_chars (l : list ascii) : list ascii :=
  match l with
  | c :: rest => if is_space c then lstrip_chars rest else l
  | [] => []
  end.

Definition strip (s : string) : string :=
  str (rev (lstrip_chars (rev (lstrip_chars (chars s))))).

(** Truth value of [text and text.strip()]. *)
Definition nonblank (s : string) : bool :=
  negb (String.eqb (strip s) "").

Definition endswith (s suffix : string) : bool :=
  let n := String.length s in
  let m := String.length suffix in
  (m <=? n) && String.eqb (String.substring (n - m) m s) suffix.

Definition startswith (s pre : string) : bool := String.prefix pre s.

Definition slash : ascii := Ascii.ascii_of_nat 47.
Definition backslash : ascii := Ascii.ascii_of_nat 92.

(** [c in s] for a single character. *)
Definition contains_char (c : ascii) (s : string) : bool :=
  existsb (Ascii.eqb c) (chars s).

(** [s.replace(c, by)] for a single-character pattern. *)
Definition replace_char (c : ascii) (by_ : string) (s : string) : string :=
  str (flat_map (fun x => if Ascii.eqb x c then chars by_ else [x]) (chars s)).

Fixpoint drop_until (c : ascii) (l : list ascii) : list ascii :=
  match l with
  | x :: rest => if Ascii.eqb x c then l else drop_until c rest
  | [] => []
  end.

Fixpoint drop_while_eq (c : ascii) (l : list ascii) : list ascii :=
  match l with
  | x :: rest => if Ascii.eqb x c then drop_while_eq c rest else l
  | [] => []
  end.

Fixpoint take_while (f : ascii -> bool) (l : list ascii) : list ascii :=
  match l with
  | x :: rest => if f x then x :: take_while f rest else []
  | [] => []
  end.

(** [posixpath.join(a, b)]. *)
Definition path_join (a b : string) : string :=
  if startswith b "/" then b
  else if String.eqb a "" || endswith a "/" then a +:+ b
  else a +:+ "/" +:+ b.

(** [posixpath.dirname(p)]: everything up to the last slash, without the
    trailing slashes unless it consists of slashes only. *)
Definition dirname (p : string) : string :=
  let head_rev := drop_until slash (rev (chars p)) in
  if forallb (Ascii.eqb slash) head_rev then str (rev head_rev)
  else str (rev (drop_while_eq slash head_rev)).

(** [posixpath.splitext(p)[0]]: the extension starts at the last dot of the
    last component, unless only dots precede it there. *)
Definition splitext_root (p : string) : string :=
  let r := rev (chars p) in
  let ext_rev := take_while (fun x => negb (Ascii.eqb x "."%char) && negb (Ascii.eqb x slash)) r in
  match drop (length ext_rev) r with
  | dot :: before_rev =>
    if Ascii.eqb dot "."%char then
      let stem_rev := take_while (fun x => negb (Ascii.eqb x slash)) before_rev in
      if forallb (Ascii.eqb "."%char) stem_rev then p
      else str (rev before_rev)
    else p
  | [] => p
  end.

(** [range(n)]. *)
Definition range (n : Z) : list Z := map Z.of_nat (seq 0 (Z.to_nat n)).

Example lower_ext : lower "Report.PDF" = "report.pdf".
Proof. reflexivity. Qed.

Example strip_blank : strip "  a b  " = "a b" /\ nonblank "   " = false.
Proof. split; reflexivity. Qed.

Example endswith_pdf : endswith "a/b.pdf" ".pdf" = true /\ endswith "pdf" ".pdf" = false.
Proof. split; reflexivity. Qed.

Example dirname_nested :
  dirname "a/b/c.txt" = "a/b" /\ dirname "c.txt" = "" /\ dirname "/c.txt" = "/".
Proof. repeat split; reflexivity. Qed.

Example splitext_cases :
  splitext_root "a/b.tar.gz" = "a/b.tar" /\ splitext_root "a.b/c" = "a.b/c" /\
  splitext_root ".bashrc" = ".bashrc" /\ splitext_root "x/..hidden.txt" = "x/..hidden".
Proof. repeat split; reflexivity. Qed.

Example path_join_cases :
  path_join "data/docs" "a.pdf" = "data/docs/a.pdf" /\ path_join "data" "/abs" = "/abs".
Proof. split; reflexivity. Qed.

End Py.

Import Py.

Declare Scope py_scope.
Delimit Scope py_scope with py.
Notation "x <- c ;; k" := (bind c (fun x => k))
  (at level 100, c at next level, right associativity) : py_scope.
Notation "c ;;; k" := (bind c (fun _ => k))
  (at level 100, k at level 200, right associativity) : py_scope.

(** ** backend/retriever.py *)
Module Retriever.

Section Defs.
(** float32 scalars with the operations numpy applies to them. *)
Variable f32 : Type.
Variables (f32_zero f32_one : f32).
Variable f32_eqb : f32 -> f32 -> bool.
Variable f32_div : f32 -> f32 -> f32.
(** [np.linalg.norm] of one row. *)
Variable l2norm : list f32 -> f32.

(** A loaded [faiss.Index] and [index.search(qv, k)]: the label row
    [idx[0]] of the reply. *)
Variable index : Type.
Variable search : index -> list (list f32) -> Z -> result (list Z).

(** [EmbeddingClient.embed_texts]. *)
Variable embed_texts : list string -> result (list (list f32)).

(** The two persisted artifacts under VECTOR_STORE_DIR, [None] when the
    file does not exist. *)
Record disk := mk_disk {
  faiss_index_bin : option index;
  chunks_pkl : option (list string)
}.

(** The in-memory singletons. *)
Record globals := mk_globals {
  _embedding_client : bool;
  _index : option index;
  _chunks : option (list string)
}.

Definition _normalize (v : list (list f32)) : list (list f32) :=
  map (fun row =>
         let n := l2norm row in
         let n := if f32_eqb n f32_zero then f32_one else n in
         map (fun x => f32_div x n) row) v.

Definition _embedding_client_once : M globals unit :=
  fun g => (Ok tt, mk_globals true (_index g) (_chunks g)).

Definition _ensure_loaded (d : disk) : M globals unit :=
  fun g =>
    match _index g, _chunks g with
    | Some _, Some _ => (Ok tt, g)
    | _, _ =>
      match faiss_index_bin d, chunks_pkl d with
      | Some ix, Some cs =>
        (Ok tt, mk_globals (_embedding_client g) (Some ix) (Some cs))
      | _, _ =>
        (Raise (mk_exn FileNotFoundError
                  "Vector store not found. Run the embed step to (re)build the vector store."),
         g)
      end
    end.

Definition reload_index (d : disk) : M globals unit :=
  fun _ => _ensure_loaded d (mk_globals false None None).

Definition embed_single (text : string) : result (list f32) :=
  match embed_texts [text] with
  | Ok (e :: _) => Ok e
  | Ok [] => Raise (mk_exn IndexError "list index out of range")
  | Raise e => Raise e
  end.

Definition _embed_query (q : string) : M globals (list (list f32)) :=
  (_embedding_client_once ;;;
   embedding <- lift (embed_single q) ;;
   ret (_normalize [embedding]))%py.

(** [k = max(1, min(k, len(_chunks)))]. *)
Definition clamp_k (k : Z) (chunks : list string) : Z :=
  Z.max 1 (Z.min k (Z.of_nat (length chunks))).

(** [[_chunks[i] for i in idx[0] if 0 <= i < len(_chunks)]]. *)
Fixpoint select_chunks (chunks : list string) (idx : list Z)
  : result (list string) :=
  match idx with
  | [] => Ok []
  | i :: rest =>
    if ((0 <=? i) && (i <? Z.of_nat (length chunks)))%Z
    then match getitem chunks i with
         | Raise e => Raise e
         | Ok c => match select_chunks chunks rest with
                   | Raise e => Raise e
                   | Ok cs => Ok (c :: cs)
                   end
         end
    else select_chunks chunks rest
  end.

Definition separator : string := nl +:+ nl +:+ "---" +:+ nl +:+ nl.

(** The body of [retrieve_relevant_chunks] up to the final join: [None]
    stands for the early [return ""] on an empty chunk list. *)
Definition retrieve_selected (query : string) (k : Z) (d : disk)
  : M globals (option (list string)) :=
  (_ensure_loaded d ;;;
   g <- get ;;
   match _index g, _chunks g with
   | Some ix, Some chunks =>
     if bool_decide (chunks = []) then ret None
     else
       qv <- _embed_query query ;;
       let k := clamp_k k chunks in
       idx <- lift (search ix qv k) ;;
       selected <- lift (select_chunks chunks idx) ;;
       ret (Some selected)
   | _, _ => raise (mk_exn AssertionError "")
   end)%py.

Definition retrieve_relevant_chunks (query : string) (k : Z) (d : disk)
  : M globals string :=
  (r <- retrieve_selected query k d ;;
   match r with
   | None => ret ""
   | Some selected => ret (join separator selected)
   end)%py.

(** The guard of the comprehension. *)
Definition in_range (chunks : list string) (i : Z) : bool :=
  ((0 <=? i) && (i <? Z.of_nat (length chunks)))%Z.

(** The globals once the embedding client singleton has been created. *)
Definition with_client (g : globals) : globals :=
  mk_globals true (_index g) (_chunks g).

(** *** Properties of the index selection *)

(** An index that passes the guard is a plain in-range subscript. *)
Lemma getitem_in_range (chunks : list string) (i : Z) :
  (0 <= i < Z.of_nat (length chunks))%Z ->
  exists c, chunks !! Z.to_nat i = Some c /\ getitem chunks i = Ok c.
Proof.
  intros Hi. unfold getitem.
  destruct (Z.ltb_spec i 0) as [Hneg|_]; [lia|].
  destruct (Z.leb_spec 0 i) as [_|Hneg]; [|lia].
  destruct (Z.ltb_spec i (Z.of_nat (length chunks))) as [_|Hbig]; [|lia].
  simpl.
  destruct (chunks !! Z.to_nat i) as [c|] eqn:Hc.
  - exists c. split; reflexivity.
  - apply lookup_ge_None in Hc. lia.
Qed.

Lemma select_chunks_omap (chunks : list string) (idx : list Z) :
  select_chunks chunks idx =
  Ok (omap (fun i => if in_range chunks i then chunks !! Z.to_nat i else None) idx).
Proof.
  induction idx as [|i rest IH]; [reflexivity|].
  simpl. unfold in_range at 1.
  destruct ((0 <=? i) && (i <? Z.of_nat (length chunks)))%Z eqn:Hg.
  - apply andb_true_iff in Hg as [H0 Hn].
    apply Z.leb_le in H0. apply Z.ltb_lt in Hn.
    destruct (getitem_in_range chunks i) as (c & Hc & Hget); [lia|].
    rewrite Hget, IH, Hc. reflexivity.
  - exact IH.
Qed.

Lemma omap_length_le {A B} (f : A -> option B) (l : list A) :
  length (omap f l) <= length l.
Proof.
  induction l as [|a l IH]; [simpl; lia|].
  cbn. destruct (f a); cbn; lia.
Qed.

Lemma omap_guard_length (chunks : list string) (idx : list Z) :
  length (omap (fun i => if in_range chunks i then chunks !! Z.to_nat i else None) idx)
  = length (filter (fun i => in_range chunks i = true) idx).
Proof.
  induction idx as [|i rest IH]; [reflexivity|].
  rewrite filter_cons. cbn [omap list_omap].
  destruct (in_range chunks i) eqn:Hg.
  - pose proof Hg as Hg'.
    unfold in_range in Hg'. apply andb_true_iff in Hg' as [H0 Hn].
    apply Z.leb_le in H0. apply Z.ltb_lt in Hn.
    destruct (getitem_in_range chunks i) as (c & Hc & _); [lia|].
    rewrite Hc. rewrite decide_True by reflexivity.
    cbn [length]. f_equal. exact IH.
  - rewrite decide_False by discriminate. exact IH.
Qed.

(** The comprehension over the search labels never raises: it returns
    exactly the chunks at the labels [i] with [0 <= i < len(chunks)], in
    label order; every label outside that range (a [-1] placeholder, a
    label past the end) is dropped without being used as a subscript, and
    from a row of [k] labels at most [k] chunks are selected. *)
Lemma select_chunks_only_valid (chunks : list string) (idx : list Z) :
  exists selected,
    select_chunks chunks idx = Ok selected /\
    selected = omap (fun i => if in_range chunks i
                              then chunks !! Z.to_nat i else None) idx /\
    Forall (fun c => exists i, i ∈ idx /\
                       (0 <= i < Z.of_nat (length chunks))%Z /\
                       chunks !! Z.to_nat i = Some c) selected /\
    length selected = length (filter (fun i => in_range chunks i = true) idx) /\
    (forall pre i post,
        idx = pre ++ i :: post ->
        ~ (0 <= i < Z.of_nat (length chunks))%Z ->
        select_chunks chunks (pre ++ post) = Ok selected) /\
    (forall k : Z, length idx = Z.to_nat k -> length selected <= Z.to_nat k).
Proof.
  exists (omap (fun i => if in_range chunks i then chunks !! Z.to_nat i else None) idx).
  split; [apply select_chunks_omap|].
  split; [reflexivity|].
  split.
  { apply Forall_forall. intros c Hc.
    apply list_elem_of_omap in Hc as (i & Hi & Hsome).
    exists i. split; [exact Hi|].
    destruct (in_range chunks i) eqn:Hg; [|discriminate].
    unfold in_range in Hg. apply andb_true_iff in Hg as [H0 Hn].
    apply Z.leb_le in H0. apply Z.ltb_lt in Hn.
    split; [lia|exact Hsome]. }
  split; [apply omap_guard_length|].
  split.
  { intros pre i post -> Hout.
    rewrite select_chunks_omap. f_equal.
    rewrite !omap_app. simpl.
    assert (in_range chunks i = false) as ->; [|reflexivity].
    unfold in_range. apply andb_false_iff.
    destruct (Z.leb_spec 0 i); [right|left; reflexivity].
    apply Z.ltb_ge. lia. }
  intros k <-. apply omap_length_le.
Qed.

(** *** Properties of [retrieve_relevant_chunks] *)

Lemma clamp_k_bounds (k : Z) (chunks : list string) :
  chunks <> [] ->
  (1 <= clamp_k k chunks <= Z.of_nat (length chunks))%Z.
Proof.
  intros Hne. unfold clamp_k.
  destruct chunks as [|c cs]; [congruence|].
  simpl length. lia.
Qed.

Lemma ensure_loaded_ok (d : disk) (g g1 : globals) :
  _ensure_loaded d g = (Ok tt, g1) ->
  exists ix chunks, _index g1 = Some ix /\ _chunks g1 = Some chunks.
Proof.
  unfold _ensure_loaded. intros H.
  destruct (_index g) as [ix|] eqn:Hi; destruct (_chunks g) as [cs|] eqn:Hc;
    [inversion H; subst; eauto | ..];
    (destruct (faiss_index_bin d) as [ix'|]; destruct (chunks_pkl d) as [cs'|];
     inversion H; subst; simpl; eauto).
Qed.


(** The selected chunks are the chunks at the valid labels, label by
    label. *)
Lemma selected_at_valid_labels (chunks : list string) (idx : list Z) :
  Forall2 (fun i c => chunks !! Z.to_nat i = Some c)
          (filter (fun i => (0 <= i < Z.of_nat (length chunks))%Z) idx)
          (omap (fun i => if in_range chunks i then chunks !! Z.to_nat i else None) idx).
Proof.
  induction idx as [|i rest IH]; [constructor|].
  rewrite filter_cons. cbn [omap list_omap].
  destruct (decide (0 <= i < Z.of_nat (length chunks))%Z) as [Hi | Hi].
  - destruct (getitem_in_range chunks i Hi) as (c & Hc & _).
    assert (in_range chunks i = true) as ->.
    { unfold in_range. apply andb_true_iff. split; [apply Z.leb_le|apply Z.ltb_lt]; lia. }
    rewrite Hc. constructor; [exact Hc|exact IH].
  - assert (in_range chunks i = false) as ->; [|exact IH].
    unfold in_range. apply andb_false_iff.
    destruct (Z.leb_spec 0 i); [right|left; reflexivity].
    apply Z.ltb_ge. lia.
Qed.

(** C9. Whatever labels the index search answers, once the query is
    embedded [retrieve_relevant_chunks] does not raise: the context it
    returns is the join of the chunks found at the labels [i] of the
    answer with [0 <= i < len(chunks)], one chunk per such label and in
    label order. A label outside that range (a [-1] placeholder, a label
    past the end) selects nothing, so the context holds at most as many
    chunks as the search answered labels (at most the clamped [k] for an
    answer of that many labels). *)
Theorem retrieve_uses_valid_labels_only (query : string) (k : Z) (d : disk)
        (g g1 : globals) (ix : index) (chunks : list string) (e : list f32)
        (idx : list Z) :
  _ensure_loaded d g = (Ok tt, g1) ->
  _index g1 = Some ix -> _chunks g1 = Some chunks -> chunks <> [] ->
  embed_single query = Ok e ->
  search ix (_normalize [e]) (clamp_k k chunks) = Ok idx ->
  exists selected,
    retrieve_relevant_chunks query k d g
    = (Ok (join separator selected), with_client g1) /\
    Forall2 (fun i c => chunks !! Z.to_nat i = Some c)
            (filter (fun i => (0 <= i < Z.of_nat (length chunks))%Z) idx) selected /\
    length selected <= length idx /\
    (length idx = Z.to_nat (clamp_k k chunks) ->
     length selected <= Z.to_nat (clamp_k k chunks) /\ length selected <= length chunks).
Proof.
  intros Hload Hix Hcs Hne He Hs.
  exists (omap (fun i => if in_range chunks i then chunks !! Z.to_nat i else None) idx).
  split.
  { unfold retrieve_relevant_chunks, retrieve_selected, bind, get, ret.
    rewrite Hload, Hix, Hcs.
    rewrite bool_decide_eq_false_2 by exact Hne.
    unfold _embed_query, _embedding_client_once, bind, lift, ret.
    rewrite He, Hs, select_chunks_omap. reflexivity. }
  split; [apply selected_at_valid_labels|].
  split; [apply omap_length_le|].
  intros Hlen. pose proof (clamp_k_bounds k chunks Hne) as Hk.
  pose proof (omap_length_le
                (fun i => if in_range chunks i then chunks !! Z.to_nat i else None) idx) as Hle.
  split; lia.
Qed.

End Defs.

Arguments mk_disk {index} _ _.
Arguments faiss_index_bin {index} _.
Arguments chunks_pkl {index} _.
Arguments mk_globals {index} _ _ _.
Arguments _embedding_client {index} _.
Arguments _index {index} _.
Arguments _chunks {index} _.

(** A small concrete instance: integer scalars, an index that answers with
    the labels [0, 1, ..., k-1], two stored chunks, and a request for ten. *)
Definition demo_search (_ : unit) (_ : list (list Z)) (k : Z) : result (list Z) :=
  Ok (map Z.of_nat (seq 0 (Z.to_nat k))).

Definition demo_embed (texts : list string) : result (list (list Z)) :=
  Ok (map (fun _ => [1%Z]) texts).

Definition demo_disk : disk unit :=
  mk_disk (Some tt) (Some ["alpha"; "beta"]).

Definition demo_unloaded : globals unit := mk_globals false None None.


(** An index that pads its answer with [-1] and names a label past the
    end: only the two valid labels select a chunk. *)
Definition demo_padded_search (_ : unit) (_ : list (list Z)) (_ : Z) : result (list Z) :=
  Ok [1; -1; 0; 7]%Z.

Example demo_retrieve_padded :
  fst (retrieve_relevant_chunks Z 0%Z 1%Z Z.eqb Z.div (fun _ => 1%Z) unit
         demo_padded_search demo_embed "q" 4 demo_disk demo_unloaded)
  = Ok ("beta" +:+ separator +:+ "alpha").
Proof. reflexivity. Qed.

Lemma retrieve_uses_valid_labels_only_witness :
  exists selected,
    retrieve_relevant_chunks Z 0%Z 1%Z Z.eqb Z.div (fun _ => 1%Z) unit
      demo_padded_search demo_embed "q" 4 demo_disk demo_unloaded
    = (Ok (join separator selected), mk_globals true (Some tt) (Some ["alpha"; "beta"])) /\
    Forall2 (fun i c => ["alpha"; "beta"] !! Z.to_nat i = Some c)
            (filter (fun i => (0 <= i < Z.of_nat (length ["alpha"; "beta"]))%Z)
                    [1; -1; 0; 7]%Z) selected.
Proof.
  destruct (retrieve_uses_valid_labels_only Z 0%Z 1%Z Z.eqb Z.div (fun _ => 1%Z) unit
              demo_padded_search demo_embed "q" 4 demo_disk demo_unloaded
              (mk_globals false (Some tt) (Some ["alpha"; "beta"])) tt
              ["alpha"; "beta"] [1%Z] [1; -1; 0; 7]%Z
              eq_refl eq_refl eq_refl ltac:(discriminate) eq_refl eq_refl)
    as (selected & Hret & Hsel & _).
  exists selected. split; [exact Hret|exact Hsel].
Defined.

Example demo_retrieve_empty :
  retrieve_relevant_chunks Z 0%Z 1%Z Z.eqb Z.div (fun _ => 1%Z) unit
    demo_search demo_embed "q" 4 (mk_disk (Some tt) (Some [])) demo_unloaded
  = (Ok "", mk_globals false (Some tt) (Some [])).
Proof. reflexivity. Qed.

End Retriever.

(** ** backend/llm_answer.py and backend/main.py *)
Module Main.

Import Retriever.

(** One entry of the chat [messages] list. *)
Record message := mk_message { role : string; content : string }.

(** What the /ask endpoint hands back: the answer body, or the
    [HTTPException] it raises. *)
Inductive http_response :=
| Answer (answer : string)
| HTTPException (status_code : Z) (detail : string).

Section Defs.
Variable f32 : Type.
Variables (f32_zero f32_one : f32).
Variable f32_eqb : f32 -> f32 -> bool.
Variable f32_div : f32 -> f32 -> f32.
Variable l2norm : list f32 -> f32.
Variable index : Type.
Variable search : index -> list (list f32) -> Z -> result (list Z).
Variable embed_texts : list string -> result (list (list f32)).

(** [_client.chat.completions.create(...)] followed by
    [resp.choices[0].message.content], with the fixed temperature. *)
Variable chat_completions_create : list message -> Z -> result string.

Local Abbreviation retrieve_relevant_chunks :=
  (retrieve_relevant_chunks f32 f32_zero f32_one f32_eqb f32_div l2norm
     index search embed_texts).
Local Abbreviation _ensure_loaded := (_ensure_loaded index).
Local Abbreviation reload_index := (reload_index index).

Definition generate_answer (query : string) (d : disk index)
  : M (globals index) string :=
  (context <- retrieve_relevant_chunks query 4%Z d ;;
   let messages :=
     [ mk_message "system"
         "You are a helpful document assistant. Use the context faithfully; say 'Not found in docs' if needed.";
       mk_message "user"
         ("Context:" +:+ nl +:+ context +:+ nl +:+ nl +:+ "Question: " +:+ query) ] in
   lift (chat_completions_create messages 500%Z))%py.

Definition ask_question (question : string) (d : disk index) (g : globals index)
  : http_response * globals index :=
  match generate_answer question d g with
  | (Ok answer, g') => (Answer answer, g')
  | (Raise e, g') =>
    if decide (exn_cls e = FileNotFoundError)
    then (HTTPException 503 (exn_msg e), g')
    else (HTTPException 500 (exn_msg e), g')
  end.

(** *** The index-not-built error *)

Definition is_file_not_found {A} (r : result A) : Prop :=
  exists msg, r = Raise (mk_exn FileNotFoundError msg).

Lemma ensure_loaded_missing (d : disk index) (g : globals index) :
  faiss_index_bin d = None \/ chunks_pkl d = None ->
  _index g = None \/ _chunks g = None ->
  is_file_not_found (fst (_ensure_loaded d g)) /\
  snd (_ensure_loaded d g) = g.
Proof.
  intros Hd Hg. unfold Retriever._ensure_loaded.
  assert (match faiss_index_bin d, chunks_pkl d with
          | Some _, Some _ => False
          | _, _ => True
          end) as Hmiss.
  { destruct Hd as [-> | ->]; [exact I|]. destruct (faiss_index_bin d); exact I. }
  destruct Hg as [Hg | Hg]; rewrite Hg.
  - destruct (faiss_index_bin d), (chunks_pkl d); try contradiction;
      (split; [eexists; reflexivity | reflexivity]).
  - destruct (_index g);
      destruct (faiss_index_bin d), (chunks_pkl d); try contradiction;
      (split; [eexists; reflexivity | reflexivity]).
Qed.


End Defs.

Definition demo_chat (_ : list message) (_ : Z) : result string := Ok "Not found in docs".


(** An embedding provider whose local model file is gone. *)
Definition demo_provider_down (_ : list string) : result (list (list Z)) :=
  Raise (mk_exn FileNotFoundError "model file not found").


End Main.

(** ** backend/onedrive_client.py *)
Module OneDriveClient.

(** A drive item as the Graph API lists it; [folder] is the truth value of
    [item.get("folder")], [_relative_path] the key the recursive listing
    adds. *)
Record item := mk_item {
  name : string;
  id : string;
  folder : bool;
  lastModifiedDateTime : string;
  _relative_path : option string
}.

#[global] Instance item_eq_dec : EqDecision item.
Proof. solve_decision. Defined.

Inductive verb := GET | PUT | POST.

Record request := mk_request {
  req_verb : verb;
  req_url : string;
  req_headers : gmap string string;
  req_data : option (list Byte.byte)
}.

Record response := mk_response {
  status_code : Z;
  resp_content : list Byte.byte
}.

Section Requests.
(** The token provider of backend/auth.py, over its own state. *)
Variable auth_state : Type.
Variable get_access_token : auth_state -> result string * auth_state.
Variable clear_token_cache : auth_state -> auth_state.

(** [requests.get/put/post]: the reply to a request, given the requests
    sent before it. *)
Variable requests_send : list request -> request -> result response.

(** The module global [_cached_headers], the provider's state, and the
    requests sent so far. *)
Record client := mk_client {
  _cached_headers : option (gmap string string);
  auth : auth_state;
  sent : list request
}.

Definition _get_headers : M client (gmap string string) :=
  fun c =>
    match _cached_headers c with
    | Some h => (Ok h, c)
    | None =>
      match get_access_token (auth c) with
      | (Ok token, a) =>
        let h : gmap string string := {[ "Authorization" := "Bearer " +:+ token ]} in
        (Ok h, mk_client (Some h) a (sent c))
      | (Raise e, a) => (Raise e, mk_client None a (sent c))
      end
    end.

(** [headers.update(extra_headers)]. *)
Definition update (headers extra_headers : gmap string string) : gmap string string :=
  extra_headers ∪ headers.

Definition send (rq : request) : M client response :=
  fun c => (requests_send (sent c) rq,
            mk_client (_cached_headers c) (auth c) (sent c ++ [rq])).

(** The [if / elif / elif] chain on [method.upper()]; [None] when no
    branch applies. *)
Definition request_for (method url : string) (headers : gmap string string)
           (data : option (list Byte.byte)) : option request :=
  if String.eqb (upper method) "GET" then Some (mk_request GET url headers None)
  else if String.eqb (upper method) "PUT" then Some (mk_request PUT url headers data)
  else if String.eqb (upper method) "POST" then Some (mk_request POST url headers data)
  else None.

Definition _make_authenticated_request (url method : string)
           (data : option (list Byte.byte)) (extra_headers : gmap string string)
  : M client response :=
  (h <- _get_headers ;;
   let headers := update h extra_headers in
   resp <- match request_for method url headers data with
           | Some rq => send rq
           | None => raise (mk_exn ValueError ("Unsupported HTTP method: " +:+ method))
           end ;;
   if (status_code resp =? 401)%Z then
     (fun c => (Ok tt, mk_client None (clear_token_cache (auth c)) (sent c))) ;;;
     h' <- _get_headers ;;
     let headers := update h' extra_headers in
     match request_for method url headers data with
     | Some rq => send rq
     | None => ret resp
     end
   else ret resp)%py.

(** *** Refresh on 401 *)

Lemma get_headers_sent (c c1 : client) r :
  _get_headers c = (r, c1) -> sent c1 = sent c.
Proof.
  unfold _get_headers. intros H.
  destruct (_cached_headers c).
  - inversion H. reflexivity.
  - destruct (get_access_token (auth c)) as [[tok | e] a]; inversion H; reflexivity.
Qed.

Lemma request_for_headers method url h h' data rq :
  request_for method url h data = Some rq ->
  request_for method url h' data
  = Some (mk_request (req_verb rq) url h' (req_data rq)).
Proof.
  unfold request_for.
  destruct (String.eqb (upper method) "GET");
    [intros [= <-]; reflexivity|].
  destruct (String.eqb (upper method) "PUT");
    [intros [= <-]; reflexivity|].
  destruct (String.eqb (upper method) "POST");
    [intros [= <-]; reflexivity|discriminate].
Qed.

Lemma request_sent_at_most_twice url method data extra (c : client) :
  length (sent (snd (_make_authenticated_request url method data extra c)))
  <= length (sent c) + 2.
Proof.
  unfold _make_authenticated_request, bind.
  destruct (_get_headers c) as [[h | e] c1] eqn:Hh;
    pose proof (get_headers_sent _ _ _ Hh) as Hs1; [|simpl; rewrite Hs1; lia].
  destruct (request_for method url (update h extra) data) as [rq|] eqn:Hrq;
    [|simpl; rewrite Hs1; lia].
  unfold send at 1.
  destruct (requests_send (sent c1) rq) as [resp | e];
    [|simpl; rewrite length_app, Hs1; simpl; lia].
  destruct (status_code resp =? 401)%Z;
    [|simpl; rewrite length_app, Hs1; simpl; lia].
  match goal with |- context [_get_headers ?c2] =>
    destruct (_get_headers c2) as [[h' | e'] c3] eqn:Hh';
    pose proof (get_headers_sent _ _ _ Hh') as Hs3; simpl in Hs3
  end.
  - rewrite (request_for_headers _ _ _ (update h' extra) _ _ Hrq).
    unfold send. simpl. rewrite Hs3, !length_app, Hs1. simpl. lia.
  - simpl. rewrite Hs3, length_app, Hs1. simpl. lia.
Qed.

(** C8. For a GET, PUT or POST: at most two requests are ever sent; the
    reply to the first is returned as it is, with nothing sent again,
    unless its status is 401; on a 401 the cached headers are dropped, the
    token cache is cleared, a token is obtained anew, the same request is
    sent exactly once more under that token, and the reply to this second
    request (whatever its status) is the result. *)
Theorem refresh_on_401 url method data extra (c c1 : client) h rq1 :
  _get_headers c = (Ok h, c1) ->
  request_for method url (update h extra) data = Some rq1 ->
  let r := _make_authenticated_request url method data extra c in
  length (sent (snd r)) <= length (sent c) + 2 /\
  (forall e, requests_send (sent c) rq1 = Raise e ->
     r = (Raise e, mk_client (_cached_headers c1) (auth c1) (sent c ++ [rq1]))) /\
  (forall resp,
     requests_send (sent c) rq1 = Ok resp -> status_code resp <> 401%Z ->
     r = (Ok resp, mk_client (_cached_headers c1) (auth c1) (sent c ++ [rq1]))) /\
  (forall resp token a2,
     requests_send (sent c) rq1 = Ok resp -> status_code resp = 401%Z ->
     get_access_token (clear_token_cache (auth c1)) = (Ok token, a2) ->
     let fresh : gmap string string := {[ "Authorization" := "Bearer " +:+ token ]} in
     let rq2 := mk_request (req_verb rq1) url (update fresh extra) (req_data rq1) in
     r = (requests_send (sent c ++ [rq1]) rq2,
          mk_client (Some fresh) a2 (sent c ++ [rq1; rq2]))).
Proof.
  intros Hh Hrq r.
  split; [apply request_sent_at_most_twice|].
  pose proof (get_headers_sent _ _ _ Hh) as Hs1.
  subst r.
  split; [|split]; unfold _make_authenticated_request, bind;
    rewrite Hh, Hrq; unfold send at 1; rewrite Hs1.
  - intros e ->. reflexivity.
  - intros resp -> Hst.
    apply Z.eqb_neq in Hst. rewrite Hst. reflexivity.
  - intros resp token a2 -> Hst Htok.
    apply Z.eqb_eq in Hst. rewrite Hst.
    unfold _get_headers. simpl. rewrite Htok.
    rewrite (request_for_headers _ _ _ _ _ _ Hrq).
    unfold send. simpl.
    rewrite <- app_assoc. reflexivity.
Qed.

End Requests.

(** A provider that hands out [old] first and [new] afterwards, and a
    server that rejects the first request it sees. *)
Definition demo_token (n : nat) : result string * nat :=
  (Ok (if n =? 0 then "old" else "new"), S n).

Definition demo_clear (a : nat) : nat := a.

Definition demo_server (history : list request) (_ : request) : result response :=
  Ok (mk_response (match history with [] => 401 | _ => 200 end) []).

Lemma refresh_on_401_witness :
  _make_authenticated_request nat demo_token demo_clear demo_server
    "https://graph.microsoft.com/v1.0/me/drive" "get" None ∅
    (mk_client nat None 0 [])
  = (Ok (mk_response 200 []),
     mk_client nat (Some {[ "Authorization" := "Bearer new" ]}) 2
       [ mk_request GET "https://graph.microsoft.com/v1.0/me/drive"
           (update {[ "Authorization" := "Bearer old" ]} ∅) None;
         mk_request GET "https://graph.microsoft.com/v1.0/me/drive"
           (update {[ "Authorization" := "Bearer new" ]} ∅) None ]).
Proof.
  refine (proj2 (proj2 (proj2
    (refresh_on_401 nat demo_token demo_clear demo_server
       "https://graph.microsoft.com/v1.0/me/drive" "get" None ∅
       (mk_client nat None 0 [])
       (mk_client nat (Some {[ "Authorization" := "Bearer old" ]}) 1 [])
       {[ "Authorization" := "Bearer old" ]}
       (mk_request GET "https://graph.microsoft.com/v1.0/me/drive"
          (update {[ "Authorization" := "Bearer old" ]} ∅) None)
       eq_refl eq_refl)))
    (mk_response 401 []) "new" 2 eq_refl eq_refl eq_refl).
Defined.

Section Listing.
(** [_list_folder_single]: the items of one folder, all pages followed,
    or the exception of the failed request. *)
Variable _list_folder_single : string -> result (list item).

Definition current_folder_path (folder_path _current_path : string) : string :=
  if String.eqb _current_path "" then folder_path
  else folder_path +:+ "/" +:+ _current_path.

(** [item["_relative_path"] = ...] *)
Definition set_relative_path (_current_path : string) (it : item) : item :=
  mk_item (name it) (id it) (folder it) (lastModifiedDateTime it)
    (Some (if String.eqb _current_path "" then name it
           else _current_path +:+ "/" +:+ name it)).

Definition subfolder_path (_current_path folder_name : string) : string :=
  if String.eqb _current_path "" then folder_name
  else _current_path +:+ "/" +:+ folder_name.

Definition files_of (_current_path : string) (items : list item) : list item :=
  filter (fun it => folder it = false) (map (set_relative_path _current_path) items).

Definition folders_of (_current_path : string) (items : list item) : list item :=
  filter (fun it => folder it = true) (map (set_relative_path _current_path) items).

(** What one subfolder contributes: its items, or nothing when its
    traversal raised (the [except Exception: ... continue]). *)
Definition contribution (r : result (list item)) : list item :=
  match r with
  | Ok subfolder_items => subfolder_items
  | Raise _ => []
  end.

(** The loop over the subfolders, given the recursive call; [None] when a
    call ran out of fuel. *)
Fixpoint subfolders_loop (recurse : string -> option (result (list item)))
         (_current_path : string) (folders : list item) : option (list item) :=
  match folders with
  | [] => Some []
  | folder_item :: rest =>
    match recurse (subfolder_path _current_path (name folder_item)) with
    | None => None
    | Some r =>
      match subfolders_loop recurse _current_path rest with
      | None => None
      | Some more => Some (contribution r ++ more)
      end
    end
  end.

(** The recursion depth is bounded by [fuel]; [None] means the bound was
    reached. *)
Fixpoint _list_folder_recursive (fuel : nat) (folder_path _current_path : string)
  : option (result (list item)) :=
  match fuel with
  | O => None
  | S fuel =>
    match _list_folder_single (current_folder_path folder_path _current_path) with
    | Raise e => Some (Raise e)
    | Ok items =>
      match subfolders_loop (_list_folder_recursive fuel folder_path)
              _current_path (folders_of _current_path items) with
      | None => None
      | Some sub_items => Some (Ok (files_of _current_path items ++ sub_items))
      end
    end
  end.

(** The folders below [_current_path] form a well-founded tree: every
    chain of subfolders ends. *)
Inductive finite_below (folder_path : string) : string -> Prop :=
| finite_below_intro _current_path :
    (forall items folder_item,
        _list_folder_single (current_folder_path folder_path _current_path) = Ok items ->
        folder_item ∈ folders_of _current_path items ->
        finite_below folder_path (subfolder_path _current_path (name folder_item))) ->
    finite_below folder_path _current_path.

(** *** Depth-first order and isolation of failing subfolders *)

Lemma subfolders_loop_results recurse cp (folders : list item) subs :
  Forall2 (fun folder_item r =>
             recurse (subfolder_path cp (name folder_item)) = Some r) folders subs ->
  subfolders_loop recurse cp folders = Some (flat_map contribution subs).
Proof.
  induction 1 as [|folder_item r folders subs Hr _ IH]; [reflexivity|].
  simpl. rewrite Hr, IH. reflexivity.
Qed.

Lemma subfolders_loop_mono (rec1 rec2 : string -> option (result (list item)))
      cp (folders : list item) l :
  (forall p r, rec1 p = Some r -> rec2 p = Some r) ->
  subfolders_loop rec1 cp folders = Some l ->
  subfolders_loop rec2 cp folders = Some l.
Proof.
  intros Hmono. revert l.
  induction folders as [|folder_item rest IH]; intros l; [trivial|].
  simpl.
  destruct (rec1 (subfolder_path cp (name folder_item))) as [r|] eqn:H1; [|discriminate].
  rewrite (Hmono _ _ H1).
  destruct (subfolders_loop rec1 cp rest) as [more|]; [|discriminate].
  rewrite (IH more eq_refl). trivial.
Qed.

Lemma list_folder_recursive_S fuel folder_path cp :
  _list_folder_recursive (S fuel) folder_path cp =
  match _list_folder_single (current_folder_path folder_path cp) with
  | Raise e => Some (Raise e)
  | Ok items =>
    match subfolders_loop (_list_folder_recursive fuel folder_path)
            cp (folders_of cp items) with
    | None => None
    | Some sub_items => Some (Ok (files_of cp items ++ sub_items))
    end
  end.
Proof. reflexivity. Qed.

Lemma list_folder_recursive_step fuel folder_path cp r :
  _list_folder_recursive fuel folder_path cp = Some r ->
  _list_folder_recursive (S fuel) folder_path cp = Some r.
Proof.
  revert cp r. induction fuel as [|fuel IH]; intros cp r; [discriminate|].
  intros H. rewrite list_folder_recursive_S in H |- *.
  destruct (_list_folder_single (current_folder_path folder_path cp)) as [items | e];
    [|exact H].
  destruct (subfolders_loop (_list_folder_recursive fuel folder_path) cp
              (folders_of cp items)) as [sub_items|] eqn:Hloop; [|discriminate].
  rewrite (subfolders_loop_mono _ (_list_folder_recursive (S fuel) folder_path)
             _ _ _ (fun p r => IH p r) Hloop).
  exact H.
Qed.

Lemma list_folder_recursive_mono fuel fuel' folder_path cp r :
  fuel <= fuel' ->
  _list_folder_recursive fuel folder_path cp = Some r ->
  _list_folder_recursive fuel' folder_path cp = Some r.
Proof.
  induction 1 as [|fuel' _ IH]; [trivial|].
  intros H. apply list_folder_recursive_step, IH, H.
Qed.

(** Enough fuel exists for every subfolder of a list at once. *)
Lemma common_fuel folder_path cp (folders : list item) :
  (forall folder_item, folder_item ∈ folders ->
     exists fuel r, _list_folder_recursive fuel folder_path
                      (subfolder_path cp (name folder_item)) = Some r) ->
  exists fuel subs,
    Forall2 (fun folder_item r =>
               _list_folder_recursive fuel folder_path
                 (subfolder_path cp (name folder_item)) = Some r) folders subs.
Proof.
  induction folders as [|folder_item rest IH]; intros Hall.
  - exists 0, []. constructor.
  - destruct (Hall folder_item) as (f1 & r & Hr); [left|].
    destruct IH as (f2 & subs & Hsubs).
    { intros x Hx. apply Hall. right. exact Hx. }
    exists (Nat.max f1 f2), (r :: subs). constructor.
    + apply (list_folder_recursive_mono f1); [lia | exact Hr].
    + eapply Forall2_impl; [exact Hsubs|].
      intros x y Hxy. apply (list_folder_recursive_mono f2); [lia | exact Hxy].
Qed.

Lemma list_folder_recursive_total folder_path cp :
  finite_below folder_path cp ->
  exists fuel r, _list_folder_recursive fuel folder_path cp = Some r.
Proof.
  induction 1 as [cp _ IH].
  destruct (_list_folder_single (current_folder_path folder_path cp))
    as [items | e] eqn:Hsingle.
  - destruct (common_fuel folder_path cp (folders_of cp items)) as (fuel & subs & Hsubs).
    { intros folder_item Hin. exact (IH items folder_item eq_refl Hin). }
    exists (S fuel). eexists. rewrite list_folder_recursive_S.
    rewrite Hsingle, (subfolders_loop_results _ _ _ _ Hsubs). reflexivity.
  - exists 1. eexists. rewrite list_folder_recursive_S, Hsingle. reflexivity.
Qed.

Lemma filter_set_relative_path cp (b : bool) (items : list item) :
  filter (fun it => folder it = b) (map (set_relative_path cp) items)
  = map (set_relative_path cp) (filter (fun it => folder it = b) items).
Proof.
  induction items as [|it items IH]; [reflexivity|].
  cbn [map]. rewrite !filter_cons. change (folder (set_relative_path cp it)) with (folder it).
  destruct (decide (folder it = b)); cbn [map]; rewrite IH; reflexivity.
Qed.

(** C7. Where the listing of the current folder succeeds, the recursive
    listing enters every listed subfolder, in listing order, and returns
    (for every sufficient depth bound) first every listed item that is not
    a folder, in listing order and with its relative path set, and then,
    subfolder by subfolder, the items found below it; a subfolder whose
    traversal raises contributes nothing, and the items of every other
    subfolder are in the result all the same. *)
Theorem list_folder_recursive_depth_first folder_path cp items :
  _list_folder_single (current_folder_path folder_path cp) = Ok items ->
  finite_below folder_path cp ->
  let below := fun nm : string => if String.eqb cp "" then nm else cp +:+ "/" +:+ nm in
  let with_path := fun it : item =>
    mk_item (name it) (id it) (folder it) (lastModifiedDateTime it)
      (Some (below (name it))) in
  let found := fun r : result (list item) =>
    match r with Ok sub_items => sub_items | Raise _ => [] end in
  exists fuel subs,
    Forall2 (fun folder_item r =>
               _list_folder_recursive fuel folder_path (below (name folder_item)) = Some r)
            (filter (fun it => folder it = true) items) subs /\
    (forall fuel', S fuel <= fuel' ->
       _list_folder_recursive fuel' folder_path cp
       = Some (Ok (map with_path (filter (fun it => folder it = false) items)
                   ++ flat_map found subs))) /\
    (forall it, it ∈ items -> folder it = false ->
       with_path it ∈ map with_path (filter (fun it => folder it = false) items)) /\
    (forall i e, subs !! i = Some (Raise e) ->
       flat_map found subs
       = flat_map found (take i subs) ++ flat_map found (drop (S i) subs)) /\
    (forall i sub_items it,
       subs !! i = Some (Ok sub_items) -> it ∈ sub_items ->
       it ∈ flat_map found subs).
Proof.
  intros Hsingle Hfin below with_path found. destruct Hfin as [cp Hsub].
  destruct (common_fuel folder_path cp (folders_of cp items)) as (fuel & subs & Hsubs).
  { intros folder_item Hin.
    apply list_folder_recursive_total. exact (Hsub items folder_item Hsingle Hin). }
  exists fuel, subs.
  assert (Hentered :
            Forall2 (fun folder_item r =>
                       _list_folder_recursive fuel folder_path (below (name folder_item))
                       = Some r)
                    (filter (fun it => folder it = true) items) subs).
  { unfold folders_of in Hsubs. rewrite filter_set_relative_path in Hsubs.
    apply Forall2_fmap_l in Hsubs. exact Hsubs. }
  split; [exact Hentered|].
  split.
  { intros fuel' Hle. apply (list_folder_recursive_mono (S fuel)); [exact Hle|].
    rewrite list_folder_recursive_S.
    rewrite Hsingle, (subfolders_loop_results _ _ _ _ Hsubs).
    unfold files_of. rewrite filter_set_relative_path. reflexivity. }
  split.
  { intros it Hin Hfile. apply list_elem_of_fmap. exists it.
    split; [reflexivity|]. apply list_elem_of_filter. split; assumption. }
  split.
  { intros i e Hi.
    rewrite <- (take_drop_middle subs i (Raise e) Hi) at 1.
    rewrite flat_map_app. simpl. reflexivity. }
  intros i sub_items it Hi Hit.
  apply list_elem_of_In, in_flat_map. exists (Ok sub_items).
  split; [|apply list_elem_of_In; exact Hit].
  apply list_elem_of_In, list_elem_of_lookup. exists i. exact Hi.
Qed.

End Listing.

(** A drive with one file and two subfolders at the top; listing [bad]
    fails, [good] holds one file. *)
Definition demo_drive (path : string) : result (list item) :=
  if String.eqb path "/Docs" then
    Ok [ mk_item "bad" "1" true "" None;
         mk_item "a.txt" "2" false "" None;
         mk_item "good" "3" true "" None ]
  else if String.eqb path "/Docs/good" then
    Ok [ mk_item "b.txt" "4" false "" None ]
  else Raise (mk_exn HTTPStatusError "404 Client Error").

Lemma demo_drive_finite : finite_below demo_drive "/Docs" "".
Proof.
  constructor. intros items folder_item Hsingle Hin.
  injection Hsingle as <-.
  assert (name folder_item = "bad" \/ name folder_item = "good") as [-> | ->].
  { vm_compute in Hin.
    apply elem_of_cons in Hin as [-> | Hin]; [left; reflexivity|].
    apply elem_of_cons in Hin as [-> | Hin]; [right; reflexivity|].
    apply elem_of_nil in Hin. contradiction. }
  - constructor. intros items' folder_item' Hsingle' _. discriminate Hsingle'.
  - constructor. intros items' folder_item' Hsingle' Hin'.
    injection Hsingle' as <-.
    vm_compute in Hin'. apply elem_of_nil in Hin'. contradiction.
Defined.

Lemma list_folder_recursive_depth_first_witness :
  exists fuel,
    forall fuel', S fuel <= fuel' ->
      _list_folder_recursive demo_drive fuel' "/Docs" ""
      = Some (Ok [ mk_item "a.txt" "2" false "" (Some "a.txt");
                   mk_item "b.txt" "4" false "" (Some "good/b.txt") ]).
Proof.
  destruct (list_folder_recursive_depth_first demo_drive "/Docs" "" _ eq_refl
              demo_drive_finite) as (fuel & subs & Hentered & Heq & _).
  exists fuel. intros fuel' Hle. rewrite (Heq fuel' Hle). clear Heq.
  change (Forall2 (fun folder_item r =>
                     _list_folder_recursive demo_drive fuel "/Docs" (name folder_item)
                     = Some r)
                  [mk_item "bad" "1" true "" None; mk_item "good" "3" true "" None] subs)
    in Hentered.
  apply Forall2_cons_inv_l in Hentered as (r1 & subs1 & Hbad & Hrest & ->).
  apply Forall2_cons_inv_l in Hrest as (r2 & subs2 & Hgood & Hnil & ->).
  apply Forall2_nil_inv_l in Hnil as ->.
  destruct fuel as [|fuel]; [discriminate Hbad|].
  rewrite list_folder_recursive_S in Hbad, Hgood.
  injection Hbad as <-. injection Hgood as <-.
  reflexivity.
Defined.

Example demo_drive_listing :
  _list_folder_recursive demo_drive 2 "/Docs" ""
  = Some (Ok [ mk_item "a.txt" "2" false "" (Some "a.txt");
               mk_item "b.txt" "4" false "" (Some "good/b.txt") ]).
Proof. vm_compute. reflexivity. Qed.

End OneDriveClient.


(** ** backend/ingest_onedrive.py *)
Module Ingest.

Import OneDriveClient.

Definition DOCS_DIR : string := path_join "data" "docs".

(** The characters removed from a name: less-than, greater-than, colon,
    double quote, slash, backslash, bar, question mark and star. *)
Definition invalid_chars : list ascii :=
  map Ascii.ascii_of_nat [60; 62; 58; 34; 47; 92; 124; 63; 42].

Definition _safe_name (name : string) : string :=
  let kept :=
    strip (str (List.filter (fun c => negb (existsb (Ascii.eqb c) invalid_chars))
                  (chars name))) in
  if String.eqb kept "" then "untitled" else kept.

Example safe_name_cases :
  _safe_name "a/b:c.pdf" = "abc.pdf" /\ _safe_name " ?? " = "untitled".
Proof. split; reflexivity. Qed.

(** A local file: its bytes and its modification time. *)
Record file := mk_file { content : list Byte.byte; mtime : Z }.

(** The regular files of the local staging area by path, the number of
    calls made to [download_file] so far, and the clock that stamps
    written files. The staging directory itself is there: line 107,
    [_ensure_dir(DOCS_DIR)], has returned. *)
Record world := mk_world {
  files : gmap string file;
  downloads : nat;
  clock : Z
}.

Definition write_file (path : string) (c : list Byte.byte) (w : world) : world :=
  mk_world (<[path := mk_file c (clock w)]> (files w)) (downloads w) (clock w + 1).

(** [if os.path.exists(path): os.remove(path)]. *)
Definition remove_if_exists (path : string) (w : world) : world :=
  mk_world (delete path (files w)) (downloads w) (clock w).

(** [os.path.isdir(path)], as far as a map of files shows it: a file
    lies below the path. *)
Definition isdir (fs : gmap string file) (path : string) : bool :=
  bool_decide (map_Exists (fun k _ => startswith k (path_join path "") = true) fs).

(** [_ensure_dir(path)], that is [os.makedirs(path, exist_ok=True)], below
    the staging directory: nothing to do where the directory exists; a
    regular file in the way is an error; otherwise the directory is
    created, which leaves no trace in a map of files. *)
Definition _ensure_dir (path : string) (w : world) : result unit :=
  if isdir (files w) path then Ok tt
  else
    match files w !! path with
    | Some _ => Raise (mk_exn OtherException ("[Errno 17] File exists: '" +:+ path +:+ "'"))
    | None => Ok tt
    end.

Record stats := mk_stats {
  total : nat;
  downloaded : nat;
  skipped : nat;
  failed : nat;
  redownloaded : nat;
  folders_processed : gset string
}.

Definition empty_stats : stats := mk_stats 0 0 0 0 0 ∅.

Section Defs.
(** [download_file(item)]: the outcome of the n-th call of the run. *)
Variable download_file : nat -> item -> result (list Byte.byte).
(** [len(fitz.open(path))] and [doc[0].get_text()] on a file's bytes. *)
Variable pdf_page_count : list Byte.byte -> result nat.
Variable pdf_first_page_text : list Byte.byte -> result string.
(** [zipfile.ZipFile(path).namelist()]. *)
Variable zip_namelist : list Byte.byte -> result (list string).
(** [datetime.fromisoformat(s.replace("Z", "+00:00")).timestamp()]. *)
Variable remote_timestamp : string -> result Z.

(** The checks of [_test_file_integrity] on the bytes found at the path. *)
Definition content_ok (file_path : string) (c : list Byte.byte) : bool :=
  if endswith (lower file_path) ".pdf" then
    match pdf_page_count c with
    | Raise _ => false
    | Ok O => false
    | Ok (S _) =>
      match pdf_first_page_text c with
      | Raise _ => false
      | Ok _ => true
      end
    end
  else if endswith (lower file_path) ".docx" || endswith (lower file_path) ".pptx" then
    match zip_namelist c with
    | Raise _ => false
    | Ok _ => true
    end
  else true.

(** Opening a missing file raises, which the function turns into [False]. *)
Definition _test_file_integrity (fs : gmap string file) (file_path : string) : bool :=
  match fs !! file_path with
  | None => false
  | Some f => content_ok file_path (content f)
  end.

(** The [for attempt in range(max_retries)] loop, over the attempts left. *)
Fixpoint retry_loop (attempts : list Z) (it : item) (dest_path : string)
         (max_retries : Z) (w : world) : bool * world :=
  match attempts with
  | [] => (false, w)
  | attempt :: rest =>
    let w1 := mk_world (files w) (S (downloads w)) (clock w) in
    match download_file (downloads w) it with
    | Ok c =>
      let w2 := write_file dest_path c w1 in
      if _test_file_integrity (files w2) dest_path then (true, w2)
      else
        let w3 := remove_if_exists dest_path w2 in
        if (attempt <? max_retries - 1)%Z
        then retry_loop rest it dest_path max_retries w3
        else (false, w3)
    | Raise _ =>
      if (attempt <? max_retries - 1)%Z
      then retry_loop rest it dest_path max_retries w1
      else (false, w1)
    end
  end.

Definition _download_with_retry (it : item) (dest_path : string) (max_retries : Z)
  : world -> bool * world :=
  retry_loop (range max_retries) it dest_path max_retries.

(** Where an item is stored locally, and the statistics once its folder
    has been recorded. *)
Definition destination (recursive : bool) (it : item) (st : stats) : string * stats :=
  let name := _safe_name (name it) in
  let relative_path := default (OneDriveClient.name it) (_relative_path it) in
  if recursive && contains_char slash relative_path then
    let rel_dir := dirname relative_path in
    let local_subdir := path_join DOCS_DIR (_safe_name rel_dir) in
    (path_join local_subdir name,
     mk_stats (total st) (downloaded st) (skipped st) (failed st) (redownloaded st)
       ({[ rel_dir ]} ∪ folders_processed st))
  else (path_join DOCS_DIR name, st).

(** The [local_subdir] of line 146, for an item that has one. *)
Definition local_subdir (recursive : bool) (it : item) : option string :=
  let relative_path := default (OneDriveClient.name it) (_relative_path it) in
  if recursive && contains_char slash relative_path
  then Some (path_join DOCS_DIR (_safe_name (dirname relative_path)))
  else None.

(** Line 147: [_ensure_dir(local_subdir)]. *)
Definition ensure_subdir (recursive : bool) (it : item) (w : world) : result unit :=
  match local_subdir recursive it with
  | Some dir => _ensure_dir dir w
  | None => Ok tt
  end.

(** Lines 155-177: [Ok (true, _)] when the item is skipped as up to date,
    [Ok (false, _)] when it goes on to the download. *)
Definition skip_policy (force_redownload : bool) (it : item) (dest_path : string)
           (st : stats) (w : world) : result (bool * stats) :=
  match files w !! dest_path with
  | Some f =>
    if force_redownload then Ok (false, st)
    else if String.eqb (lastModifiedDateTime it) "" then Ok (false, st)
    else
      match remote_timestamp (lastModifiedDateTime it) with
      | Raise e => Raise e
      | Ok remote_mtime =>
        if (remote_mtime <=? mtime f)%Z then
          if _test_file_integrity (files w) dest_path
          then Ok (true, mk_stats (total st) (downloaded st) (S (skipped st))
                           (failed st) (redownloaded st) (folders_processed st))
          else Ok (false, mk_stats (total st) (downloaded st) (skipped st)
                            (failed st) (S (redownloaded st)) (folders_processed st))
        else Ok (false, st)
      end
  | None => Ok (false, st)
  end.

(** Lines 179-189. *)
Definition download_step (it : item) (dest_path : string) (st : stats) (w : world)
  : stats * world :=
  let w := remove_if_exists dest_path w in
  match _download_with_retry it dest_path 3 w with
  | (true, w') =>
    (mk_stats (total st) (S (downloaded st)) (skipped st) (failed st)
       (redownloaded st) (folders_processed st), w')
  | (false, w') =>
    (mk_stats (total st) (downloaded st) (skipped st) (S (failed st))
       (redownloaded st) (folders_processed st), w')
  end.

(** The body of the loop over the listed items. An exception of
    [_ensure_dir] or of the skip policy leaves the loop (and ends the
    run). *)
Definition process_item (force_redownload recursive : bool) (it : item) (st : stats)
  : M world stats :=
  fun w =>
    if folder it then (Ok st, w)
    else
      let name := _safe_name (name it) in
      if bool_decide (lower name ∈ ["personal vault"; "vault"]) then (Ok st, w)
      else
        let st := mk_stats (S (total st)) (downloaded st) (skipped st) (failed st)
                    (redownloaded st) (folders_processed st) in
        let '(dest_path, st) := destination recursive it st in
        match ensure_subdir recursive it w with
        | Raise e => (Raise e, w)
        | Ok _ =>
          match skip_policy force_redownload it dest_path st w with
          | Raise e => (Raise e, w)
          | Ok (true, st) => (Ok st, w)
          | Ok (false, st) =>
            let '(st, w) := download_step it dest_path st w in (Ok st, w)
          end
        end.

Fixpoint process_items (force_redownload recursive : bool) (items : list item)
         (st : stats) : M world stats :=
  match items with
  | [] => ret st
  | it :: rest =>
    (st <- process_item force_redownload recursive it st ;;
     process_items force_redownload recursive rest st)%py
  end.

(** [fetch_onedrive_folder], given the outcome of [list_folder_items]:
    [None] when the run was cut short by an exception, otherwise the
    statistics of the printed summary. *)
Definition fetch_onedrive_folder (listing : result (list item))
           (force_redownload recursive : bool) (w : world) : option stats * world :=
  match listing with
  | Raise _ => (None, w)
  | Ok items =>
    match process_items force_redownload recursive items empty_stats w with
    | (Ok st, w') => (Some st, w')
    | (Raise _, w') => (None, w')
    end
  end.

(** The attempt made by the n-th call to [download_file] fails: the call
    raises, or the bytes it returns do not pass the integrity check at the
    destination. *)
Definition attempt_fails (it : item) (dest_path : string) (n : nat) : Prop :=
  match download_file n it with
  | Raise _ => True
  | Ok c => content_ok dest_path c = false
  end.

(** The attempts [a, a+1, ..., a+n-1] of [range]. *)
Definition attempts_from (a n : nat) : list Z := map Z.of_nat (seq a n).

(** The statistics after [download_stats['failed'] += 1]. *)
Definition count_failed (st : stats) : stats :=
  mk_stats (total st) (downloaded st) (skipped st) (S (failed st))
    (redownloaded st) (folders_processed st).

(** *** Bounded retry *)

Lemma attempts_from_S a n :
  attempts_from a (S n) = Z.of_nat a :: attempts_from (S a) n.
Proof. reflexivity. Qed.

Lemma retry_loop_cons attempt rest it dest_path max_retries w :
  retry_loop (attempt :: rest) it dest_path max_retries w =
  let w1 := mk_world (files w) (S (downloads w)) (clock w) in
  match download_file (downloads w) it with
  | Ok c =>
    if _test_file_integrity (files (write_file dest_path c w1)) dest_path
    then (true, write_file dest_path c w1)
    else
      if (attempt <? max_retries - 1)%Z
      then retry_loop rest it dest_path max_retries
             (remove_if_exists dest_path (write_file dest_path c w1))
      else (false, remove_if_exists dest_path (write_file dest_path c w1))
  | Raise _ =>
    if (attempt <? max_retries - 1)%Z
    then retry_loop rest it dest_path max_retries w1
    else (false, w1)
  end.
Proof. reflexivity. Qed.

Lemma integrity_after_write dest_path c w :
  _test_file_integrity (files (write_file dest_path c w)) dest_path
  = content_ok dest_path c.
Proof.
  unfold _test_file_integrity, write_file. simpl.
  rewrite lookup_insert_eq. reflexivity.
Qed.

Lemma retry_loop_downloads attempts it dest_path max_retries w :
  downloads w <= downloads (snd (retry_loop attempts it dest_path max_retries w))
  <= downloads w + length attempts.
Proof.
  revert w. induction attempts as [|attempt rest IH]; intros w; simpl; [lia|].
  destruct (download_file (downloads w) it) as [c | e].
  - destruct (_test_file_integrity _ dest_path); [simpl; lia|].
    destruct (attempt <? max_retries - 1)%Z; [|simpl; lia].
    match goal with |- context [retry_loop rest it dest_path max_retries ?w3] =>
      specialize (IH w3) end.
    simpl in IH. lia.
  - destruct (attempt <? max_retries - 1)%Z; [|simpl; lia].
    match goal with |- context [retry_loop rest it dest_path max_retries ?w1] =>
      specialize (IH w1) end.
    simpl in IH. lia.
Qed.

Lemma retry_loop_frame attempts it dest_path max_retries w p :
  p <> dest_path ->
  files (snd (retry_loop attempts it dest_path max_retries w)) !! p = files w !! p.
Proof.
  intros Hp. revert w.
  induction attempts as [|attempt rest IH]; intros w; simpl; [reflexivity|].
  destruct (download_file (downloads w) it) as [c | e].
  - destruct (_test_file_integrity _ dest_path).
    + simpl. rewrite lookup_insert_ne by congruence. reflexivity.
    + destruct (attempt <? max_retries - 1)%Z.
      * rewrite IH. simpl.
        rewrite lookup_delete_ne, lookup_insert_ne by congruence. reflexivity.
      * simpl. rewrite lookup_delete_ne, lookup_insert_ne by congruence. reflexivity.
  - destruct (attempt <? max_retries - 1)%Z; [rewrite IH|]; reflexivity.
Qed.

(** Every attempt left fails: the loop runs them all, answers [False] and
    leaves nothing at the destination that was not there before. *)
Lemma retry_loop_exhausted m it dest_path n : forall a w,
  a + n = m ->
  (forall i, i < n -> attempt_fails it dest_path (downloads w + i)) ->
  exists w',
    retry_loop (attempts_from a n) it dest_path (Z.of_nat m) w = (false, w') /\
    downloads w' = downloads w + n /\
    (files w !! dest_path = None -> files w' !! dest_path = None).
Proof.
  induction n as [|n IH]; intros a w Ham Hfail.
  - exists w. simpl. split; [reflexivity|]. split; [lia|trivial].
  - rewrite attempts_from_S, retry_loop_cons. cbv zeta.
    pose proof (Hfail 0 ltac:(lia)) as H0. unfold attempt_fails in H0.
    rewrite Nat.add_0_r in H0.
    assert (forall w1, downloads w1 = S (downloads w) ->
              forall i, i < n -> attempt_fails it dest_path (downloads w1 + i)) as Hrest.
    { intros w1 Hw1 i Hi. rewrite Hw1.
      replace (S (downloads w) + i) with (downloads w + S i) by lia.
      apply Hfail. lia. }
    destruct (download_file (downloads w) it) as [c | e].
    + rewrite integrity_after_write, H0.
      destruct (Z.ltb_spec (Z.of_nat a) (Z.of_nat m - 1)) as [Hlt | Hge].
      * match goal with |- context [retry_loop _ _ _ _ ?w3] =>
          destruct (IH (S a) w3 ltac:(lia) (Hrest w3 eq_refl)) as (w' & Hrun & Hd & Hf)
        end.
        exists w'. split; [exact Hrun|]. simpl in Hd, Hf.
        split; [lia|]. intros _. apply Hf. apply lookup_delete_eq.
      * assert (n = 0) as -> by lia.
        eexists. split; [reflexivity|]. simpl.
        split; [lia|]. intros _. apply lookup_delete_eq.
    + destruct (Z.ltb_spec (Z.of_nat a) (Z.of_nat m - 1)) as [Hlt | Hge].
      * match goal with |- context [retry_loop _ _ _ _ ?w1] =>
          destruct (IH (S a) w1 ltac:(lia) (Hrest w1 eq_refl)) as (w' & Hrun & Hd & Hf)
        end.
        exists w'. split; [exact Hrun|]. simpl in Hd, Hf.
        split; [lia|exact Hf].
      * assert (n = 0) as -> by lia.
        eexists. split; [reflexivity|]. simpl. split; [lia|trivial].
Qed.

(** The first attempt that passes the check ends the loop with [True] and
    its bytes at the destination. *)
Lemma retry_loop_first_success m it dest_path c j : forall n a w,
  a + n = m -> j < n ->
  (forall i, i < j -> attempt_fails it dest_path (downloads w + i)) ->
  download_file (downloads w + j) it = Ok c ->
  content_ok dest_path c = true ->
  exists w',
    retry_loop (attempts_from a n) it dest_path (Z.of_nat m) w = (true, w') /\
    downloads w' = downloads w + S j /\
    content <$> (files w' !! dest_path) = Some c.
Proof.
  induction j as [|j IH]; intros n a w Ham Hj Hfail Hdl Hok;
    (destruct n as [|n]; [lia|]);
    rewrite attempts_from_S, retry_loop_cons; cbv zeta.
  - rewrite Nat.add_0_r in Hdl. rewrite Hdl, integrity_after_write, Hok.
    eexists. split; [reflexivity|]. simpl.
    split; [lia|]. rewrite lookup_insert_eq. reflexivity.
  - pose proof (Hfail 0 ltac:(lia)) as H0. unfold attempt_fails in H0.
    rewrite Nat.add_0_r in H0.
    assert (forall w1, downloads w1 = S (downloads w) ->
              (forall i, i < j -> attempt_fails it dest_path (downloads w1 + i)) /\
              download_file (downloads w1 + j) it = Ok c) as Hrest.
    { intros w1 Hw1. rewrite Hw1. split.
      - intros i Hi. replace (S (downloads w) + i) with (downloads w + S i) by lia.
        apply Hfail. lia.
      - replace (S (downloads w) + j) with (downloads w + S j) by lia. exact Hdl. }
    destruct (Z.ltb_spec (Z.of_nat a) (Z.of_nat m - 1)) as [Hlt | Hge]; [|lia].
    destruct (download_file (downloads w) it) as [c0 | e].
    + rewrite integrity_after_write, H0.
      match goal with |- context [retry_loop _ _ _ _ ?w3] =>
        destruct (Hrest w3 eq_refl) as [Hf3 Hd3];
        destruct (IH n (S a) w3 ltac:(lia) ltac:(lia) Hf3 Hd3 Hok) as (w' & Hrun & Hd & Hc)
      end.
      exists w'. split; [exact Hrun|]. simpl in Hd. split; [lia|exact Hc].
    + match goal with |- context [retry_loop _ _ _ _ ?w1] =>
        destruct (Hrest w1 eq_refl) as [Hf1 Hd1];
        destruct (IH n (S a) w1 ltac:(lia) ltac:(lia) Hf1 Hd1 Hok) as (w' & Hrun & Hd & Hc)
      end.
      exists w'. split; [exact Hrun|]. simpl in Hd. split; [lia|exact Hc].
Qed.

Lemma download_with_retry_three it dest_path w :
  _download_with_retry it dest_path 3 w
  = retry_loop (attempts_from 0 3) it dest_path (Z.of_nat 3) w.
Proof. reflexivity. Qed.

Lemma download_step_failed it dest_path st w :
  (forall i, i < 3 -> attempt_fails it dest_path (downloads w + i)) ->
  exists w',
    download_step it dest_path st w = (count_failed st, w') /\
    files w' !! dest_path = None /\
    downloads w' = downloads w + 3.
Proof.
  intros Hfail. unfold download_step.
  rewrite download_with_retry_three.
  destruct (retry_loop_exhausted 3 it dest_path 3 0 (remove_if_exists dest_path w)
              eq_refl Hfail) as (w' & Hrun & Hd & Hf).
  rewrite Hrun. exists w'. split; [reflexivity|].
  split; [|exact Hd].
  apply Hf. simpl. apply lookup_delete_eq.
Qed.


End Defs.

(** A flaky source: the first call fails, every later one delivers a few
    bytes that no PDF reader opens. *)
Definition demo_download (n : nat) (_ : item) : result (list Byte.byte) :=
  match n with
  | O => Raise (mk_exn HTTPStatusError "503 Server Error")
  | S _ => Ok [Byte.x25; Byte.x50]
  end.

Definition demo_pdf_pages (_ : list Byte.byte) : result nat :=
  Raise (mk_exn OtherException "cannot open broken document").

Definition demo_pdf_text (_ : list Byte.byte) : result string := Ok "".

Definition demo_zip (_ : list Byte.byte) : result (list string) := Ok [].

Definition demo_timestamp (_ : string) : result Z := Ok 0%Z.

Definition demo_item : item := mk_item "a.pdf" "42" false "" None.

Definition demo_world : world := mk_world ∅ 0 0.

(** An item of the subfolder [reports]. *)
Definition demo_nested_item : item :=
  mk_item "a.pdf" "44" false "" (Some "reports/a.pdf").

Lemma demo_attempts_fail i :
  i < 3 ->
  attempt_fails demo_download demo_pdf_pages demo_pdf_text demo_zip
    demo_nested_item "data/docs/reports/a.pdf" (downloads demo_world + i).
Proof.
  intros Hi.
  destruct i as [|[|[|i]]]; [exact I | reflexivity | reflexivity | lia].
Defined.

Lemma demo_not_vault : lower (_safe_name "a.pdf") ∉ ["personal vault"; "vault"].
Proof.
  intros Hin. apply elem_of_cons in Hin as [Hin|Hin]; [discriminate Hin|].
  apply elem_of_cons in Hin as [Hin|Hin]; [discriminate Hin|].
  apply elem_of_nil in Hin. exact Hin.
Defined.


(** A regular file sits where the folder of the item has to be created
    ([_safe_name] turns [a/b] into [ab]): [_ensure_dir] raises, no
    download is attempted and the run ends without a summary. *)
Example demo_folder_blocked :
  let w := mk_world {[ "data/docs/ab" := mk_file [Byte.x25] 0 ]} 0 1 in
  let blocked := mk_item "x.txt" "45" false "" (Some "a/b/x.txt") in
  local_subdir true blocked = Some "data/docs/ab" /\
  fetch_onedrive_folder demo_download demo_pdf_pages demo_pdf_text demo_zip demo_timestamp
    (Ok [blocked; demo_item]) false true w = (None, w).
Proof. vm_compute. split; reflexivity. Qed.

(** The same source, saving to a text file: the second attempt succeeds
    and the third is never made. *)
Example demo_retry_then_success :
  let r := _download_with_retry demo_download demo_pdf_pages demo_pdf_text demo_zip
             demo_item "data/docs/a.txt" 3 demo_world in
  fst r = true /\ downloads (snd r) = 2 /\
  content <$> (files (snd r) !! "data/docs/a.txt") = Some [Byte.x25; Byte.x50].
Proof. vm_compute. repeat split. Qed.

(** A whole run over two items: the first exhausts its attempts, the
    second is still downloaded. *)
Example demo_fetch_continues :
  let r := fetch_onedrive_folder demo_download demo_pdf_pages demo_pdf_text demo_zip
             demo_timestamp
             (Ok [demo_item; mk_item "notes.txt" "43" false "" None])
             false true demo_world in
  (failed <$> fst r) = Some 1 /\ (downloaded <$> fst r) = Some 1 /\
  files (snd r) !! "data/docs/a.pdf" = None /\
  content <$> (files (snd r) !! "data/docs/notes.txt") = Some [Byte.x25; Byte.x50].
Proof. vm_compute. repeat split. Qed.

End Ingest.


(** ** backend/extract_answers_smart.py *)
Module Extract.

(** An element returned by a partitioner; [text] is
    [getattr(e, "text", None)]. *)
Record element := mk_element { text : option string }.

Definition _join (elems : list element) : string :=
  join nl (omap (fun e => match text e with
                          | Some t => if String.eqb t "" then None else Some t
                          | None => None
                          end) elems).

(** One entry of [all_files]: the path, the path relative to DOCS_DIR and
    the file name. *)
Record docfile := mk_docfile { fp : string; rel : string; fn : string }.

#[global] Instance docfile_eq_dec : EqDecision docfile.
Proof. solve_decision. Defined.

(** What the run prints about a file. *)
Inductive event :=
| Skipping (rel : string)
| Analyzing (rel : string)
| Saved (base : string).

(** The Processed Text directory (file name to content), the three
    counters and the printed events. *)
Record state := mk_state {
  processed : gmap string string;
  processed_count : nat;
  skipped_count : nat;
  failed_count : nat;
  log : list event
}.

(** What the dispatch on the extension yields for a file. *)
Inductive outcome :=
| Unknown_type
| Extracted (should_process : bool) (text : string)
| Unexpected_error.

Section Defs.
Variables (UNSTRUCTURED_AVAILABLE OPENPYXL_AVAILABLE : bool).
(** The first component of [_test_pdf_extraction(fp)]. *)
Variable _test_pdf_extraction : string -> bool.
Variable _extract_pdf_safe : string -> string.
Variables (partition_docx partition_pptx partition_ppt : string -> result (list element)).
Variable _extract_text_generic : string -> result string.
Variable _extract_xlsx : string -> string.
(** [os.path.exists] on a path below DOCS_DIR. *)
Variable docs_exists : string -> bool.

(** [base]: the relative path without its extension, separators replaced. *)
Definition base_of (rel : string) : string :=
  replace_char slash "__" (replace_char backslash "__" (splitext_root rel)).

(** The file name of the artifact inside PROCESSED_DIR. *)
Definition output_name (f : docfile) : string := base_of (rel f) +:+ ".txt".

(** The [if / elif] chain on [fn.lower()]. *)
Definition extract_text (fp fn : string) : outcome :=
  let lfn := lower fn in
  if endswith lfn ".pdf" then
    if _test_pdf_extraction fp then Extracted true (_extract_pdf_safe fp)
    else Extracted false ""
  else if endswith lfn ".docx" && UNSTRUCTURED_AVAILABLE then
    match partition_docx fp with
    | Ok elements => Extracted true (_join elements)
    | Raise _ =>
      let alt_path := fp +:+ ".docx" in
      if docs_exists alt_path then
        match partition_docx alt_path with
        | Ok elements => Extracted true (_join elements)
        | Raise _ => Extracted false ""
        end
      else Extracted false ""
    end
  else if endswith lfn ".pptx" && UNSTRUCTURED_AVAILABLE then
    match partition_pptx fp with
    | Ok elements => Extracted true (_join elements)
    | Raise _ => Extracted false ""
    end
  else if endswith lfn ".ppt" && UNSTRUCTURED_AVAILABLE then
    match partition_ppt fp with
    | Ok elements => Extracted true (_join elements)
    | Raise _ => Extracted false ""
    end
  else if endswith lfn ".txt" || endswith lfn ".csv" || endswith lfn ".html" then
    match _extract_text_generic fp with
    | Ok text => Extracted true text
    | Raise _ => Unexpected_error
    end
  else if (endswith lfn ".xlsx" || endswith lfn ".xls") && OPENPYXL_AVAILABLE then
    let text := _extract_xlsx fp in
    if nonblank text then Extracted true text else Extracted false text
  else Unknown_type.

(** The body of the loop over [all_files]. *)
Definition extract_file (f : docfile) (st : state) : state :=
  let base := base_of (rel f) in
  if bool_decide (is_Some (processed st !! (base +:+ ".txt"))) then
    mk_state (processed st) (processed_count st) (S (skipped_count st))
      (failed_count st) (log st ++ [Skipping (rel f)])
  else
    let log1 := log st ++ [Analyzing (rel f)] in
    match extract_text (fp f) (fn f) with
    | Unknown_type =>
      mk_state (processed st) (processed_count st) (S (skipped_count st))
        (failed_count st) log1
    | Extracted should_process text =>
      if should_process && nonblank text then
        mk_state (<[base +:+ ".txt" := text]> (processed st))
          (S (processed_count st)) (skipped_count st) (failed_count st)
          (log1 ++ [Saved base])
      else
        mk_state (processed st) (processed_count st) (skipped_count st)
          (S (failed_count st)) log1
    | Unexpected_error =>
      mk_state (processed st) (processed_count st) (skipped_count st)
        (S (failed_count st)) log1
    end.

Definition run (all_files : list docfile) (st : state) : state :=
  fold_left (fun st f => extract_file f st) all_files st.

(** [extract_smart] over the walked files, from the artifacts on disk. *)
Definition extract_smart (all_files : list docfile) (artifacts : gmap string string)
  : state :=
  run all_files (mk_state artifacts 0 0 0 []).

(** Whether the extraction of a file, were it run, would lead to a write. *)
Definition writes (f : docfile) : bool :=
  match extract_text (fp f) (fn f) with
  | Extracted should_process text => should_process && nonblank text
  | _ => false
  end.

(** A file is settled in a directory when its artifact exists there or its
    extraction writes nothing. *)
Definition settled (artifacts : gmap string string) (f : docfile) : Prop :=
  is_Some (artifacts !! output_name f) \/ writes f = false.

(** *** Idempotence *)

Lemma extract_file_skip f st :
  is_Some (processed st !! output_name f) ->
  extract_file f st
  = mk_state (processed st) (processed_count st) (S (skipped_count st))
      (failed_count st) (log st ++ [Skipping (rel f)]).
Proof.
  intros Hsome. unfold extract_file.
  rewrite bool_decide_eq_true_2 by exact Hsome. reflexivity.
Qed.

Lemma extract_file_settled_same f st :
  settled (processed st) f ->
  processed (extract_file f st) = processed st /\
  processed_count (extract_file f st) = processed_count st.
Proof.
  intros [Hsome | Hno].
  - rewrite extract_file_skip by exact Hsome. split; reflexivity.
  - unfold extract_file, writes in *.
    destruct (bool_decide (is_Some (processed st !! (base_of (rel f) +:+ ".txt"))));
      [split; reflexivity|].
    destruct (extract_text (fp f) (fn f)) as [|should_process text|];
      [split; reflexivity| |split; reflexivity].
    rewrite Hno. split; reflexivity.
Qed.

Lemma extract_file_mono f st :
  processed st ⊆ processed (extract_file f st).
Proof.
  unfold extract_file.
  destruct (bool_decide (is_Some (processed st !! (base_of (rel f) +:+ ".txt"))))
    eqn:Hex; [reflexivity|].
  apply bool_decide_eq_false in Hex.
  destruct (extract_text (fp f) (fn f)) as [|should_process text|];
    [reflexivity| |reflexivity].
  destruct (should_process && nonblank text); [|reflexivity].
  simpl. apply insert_subseteq.
  destruct (processed st !! (base_of (rel f) +:+ ".txt")) eqn:Hl; [|reflexivity].
  exfalso. apply Hex. eauto.
Qed.

Lemma extract_file_settles f st :
  settled (processed (extract_file f st)) f.
Proof.
  unfold settled, extract_file, writes, output_name.
  destruct (bool_decide (is_Some (processed st !! (base_of (rel f) +:+ ".txt"))))
    eqn:Hex.
  - left. apply bool_decide_eq_true in Hex. exact Hex.
  - destruct (extract_text (fp f) (fn f)) as [|should_process text|];
      [right; reflexivity| |right; reflexivity].
    destruct (should_process && nonblank text); [|right; reflexivity].
    left. simpl. rewrite lookup_insert_eq. eauto.
Qed.

Lemma settled_mono (a1 a2 : gmap string string) f :
  a1 ⊆ a2 -> settled a1 f -> settled a2 f.
Proof.
  intros Hsub [Hsome | Hno]; [left | right; exact Hno].
  destruct Hsome as [t Ht]. exists t.
  eapply lookup_weaken; [exact Ht | exact Hsub].
Qed.

Lemma run_mono all_files st :
  processed st ⊆ processed (run all_files st).
Proof.
  revert st. induction all_files as [|f rest IH]; intros st; [reflexivity|].
  simpl. etrans; [apply (extract_file_mono f) | apply IH].
Qed.

Lemma run_settles all_files f : forall st,
  f ∈ all_files -> settled (processed (run all_files st)) f.
Proof.
  induction all_files as [|f0 rest IH]; intros st Hin.
  - apply elem_of_nil in Hin. contradiction.
  - simpl. apply elem_of_cons in Hin as [-> | Hin].
    + eapply settled_mono; [apply run_mono | apply extract_file_settles].
    + apply IH. exact Hin.
Qed.

Lemma run_settled_same again : forall st,
  (forall f, f ∈ again -> settled (processed st) f) ->
  processed (run again st) = processed st /\
  processed_count (run again st) = processed_count st.
Proof.
  induction again as [|f rest IH]; intros st Hall; [split; reflexivity|].
  simpl.
  destruct (extract_file_settled_same f st) as [Hp Hc]; [apply Hall; left|].
  destruct (IH (extract_file f st)) as [Hp' Hc'].
  { intros g Hg. rewrite Hp. apply Hall. right. exact Hg. }
  split; congruence.
Qed.

(** C5. A file whose artifact exists is only counted as skipped: the
    directory, the other counters and the log (no analysis, no save) stay
    as they were; a run never changes or removes an artifact that was
    there; and a second run over files of the first run's input writes
    nothing: its [processed_count] is 0 and the directory is the one the
    first run left. *)
Theorem extraction_idempotent (all_files : list docfile) (artifacts : gmap string string) :
  (forall f st,
     is_Some (processed st !! output_name f) ->
     extract_file f st
     = mk_state (processed st) (processed_count st) (S (skipped_count st))
         (failed_count st) (log st ++ [Skipping (rel f)])) /\
  artifacts ⊆ processed (extract_smart all_files artifacts) /\
  (forall again,
     (forall f, f ∈ again -> f ∈ all_files) ->
     processed (extract_smart again (processed (extract_smart all_files artifacts)))
     = processed (extract_smart all_files artifacts) /\
     processed_count
       (extract_smart again (processed (extract_smart all_files artifacts))) = 0).
Proof.
  split; [exact extract_file_skip|].
  split; [apply (run_mono all_files (mk_state artifacts 0 0 0 []))|].
  intros again Hsub.
  unfold extract_smart at 1 3.
  apply (run_settled_same again
           (mk_state (processed (extract_smart all_files artifacts)) 0 0 0 [])).
  intros f Hf. simpl. apply run_settles, Hsub, Hf.
Qed.

End Defs.

(** Three walked files: a text file, an unknown type, a PDF without
    extractable text. *)
Definition demo_files : list docfile :=
  [ mk_docfile "data/docs/a.txt" "a.txt" "a.txt";
    mk_docfile "data/docs/b.bin" "b.bin" "b.bin";
    mk_docfile "data/docs/sub/c.pdf" "sub/c.pdf" "c.pdf" ].

Definition demo_partition (_ : string) : result (list element) := Ok [].

Definition demo_generic (_ : string) : result string := Ok "hello".

Abbreviation demo_extract_smart :=
  (extract_smart true true (fun _ => false) (fun _ => "")
     demo_partition demo_partition demo_partition demo_generic (fun _ => "")
     (fun _ => false)).

Lemma extraction_idempotent_witness :
  processed_count (demo_extract_smart demo_files ∅) = 1 /\
  processed
    (demo_extract_smart demo_files (processed (demo_extract_smart demo_files ∅)))
  = processed (demo_extract_smart demo_files ∅) /\
  processed_count
    (demo_extract_smart demo_files (processed (demo_extract_smart demo_files ∅))) = 0.
Proof.
  split; [reflexivity|].
  exact (proj2 (proj2 (extraction_idempotent true true (fun _ => false) (fun _ => "")
                         demo_partition demo_partition demo_partition demo_generic
                         (fun _ => "") (fun _ => false) demo_files ∅))
           demo_files (fun f H => H)).
Defined.

Example demo_first_run :
  let st := demo_extract_smart demo_files ∅ in
  processed st = {[ "a.txt" := "hello" ]} /\
  (processed_count st, skipped_count st, failed_count st) = (1, 1, 1) /\
  log st = [ Analyzing "a.txt"; Saved "a"; Analyzing "b.bin"; Analyzing "sub/c.pdf" ].
Proof. vm_compute. repeat split. Qed.

Example demo_second_run :
  let st := demo_extract_smart demo_files {[ "a.txt" := "hello" ]} in
  processed st = {[ "a.txt" := "hello" ]} /\
  (processed_count st, skipped_count st, failed_count st) = (0, 2, 1) /\
  log st = [ Skipping "a.txt"; Analyzing "b.bin"; Analyzing "sub/c.pdf" ].
Proof. vm_compute. repeat split. Qed.

End Extract.


(** ** backend/embed.py *)
Module Embed.

(** An entry of the Processed Text directory: a regular file with its
    decoded text, or something [os.path.isfile] rejects. *)
Inductive dirent :=
| RegularFile (text : string)
| Directory.

(** A [faiss.IndexFlatIP]: its dimension and the rows added to it. *)
Record index_flat_ip (f32 : Type) := mk_index {
  dimension : nat;
  rows : list (list f32)
}.
Arguments mk_index {f32} _ _.
Arguments dimension {f32} _.
Arguments rows {f32} _.

(** The two artifacts in VECTOR_STORE_DIR. *)
Record vector_store (f32 : Type) := mk_store {
  faiss_index_bin : option (index_flat_ip f32);
  chunks_pkl : option (list string)
}.
Arguments mk_store {f32} _ _.
Arguments faiss_index_bin {f32} _.
Arguments chunks_pkl {f32} _.

Record world (f32 : Type) := mk_world {
  processed_dir : gmap string dirent;
  store : vector_store f32
}.
Arguments mk_world {f32} _ _.
Arguments processed_dir {f32} _.
Arguments store {f32} _.

(** Batch size. *)
Definition B : nat := 64.

Section Defs.
Variable f32 : Type.
Variables (f32_zero f32_one : f32).
Variable f32_eqb : f32 -> f32 -> bool.
Variable f32_div : f32 -> f32 -> f32.
Variable l2norm : list f32 -> f32.
(** [RecursiveCharacterTextSplitter(chunk_size=1000, chunk_overlap=200).split_text]. *)
Variable split_text : string -> list string.
Variable embed_texts : list string -> result (list (list f32)).

Definition _normalize (mat : list (list f32)) : list (list f32) :=
  map (fun row =>
         let n := l2norm row in
         let n := if f32_eqb n f32_zero then f32_one else n in
         map (fun x => f32_div x n) row) mat.

(** The loop over [os.listdir(PROCESSED_DIR)]; [listing] is what that call
    returned. *)
Definition collect_chunks (dir : gmap string dirent) (listing : list string)
  : list string :=
  fold_left (fun chunks fname =>
               match dir !! fname with
               | Some (RegularFile text) => chunks ++ split_text text
               | _ => chunks
               end) listing [].

(** [range(0, n, B)]. *)
Definition batch_starts (n : nat) : list nat :=
  map (fun j => j * B) (seq 0 ((n + B - 1) / B)).

Fixpoint embed_batches (starts : list nat) (chunks : list string)
  : result (list (list f32)) :=
  match starts with
  | [] => Ok []
  | i :: rest =>
    match embed_texts (take B (drop i chunks)) with
    | Raise e => Raise e
    | Ok batch_embeddings =>
      match embed_batches rest chunks with
      | Raise e => Raise e
      | Ok vecs => Ok (batch_embeddings ++ vecs)
      end
    end
  end.

Definition embed_and_store (listing : list string) : M (world f32) unit :=
  fun w =>
    let chunks := collect_chunks (processed_dir w) listing in
    if bool_decide (chunks = []) then (Ok tt, w)
    else
      match embed_batches (batch_starts (length chunks)) chunks with
      | Raise e => (Raise e, w)
      | Ok vecs =>
        match _normalize vecs with
        | [] => (Raise (mk_exn IndexError "tuple index out of range"), w)
        | (row :: _) as X =>
          let index := mk_index (length row) X in
          (Ok tt, mk_world (processed_dir w) (mk_store (Some index) (Some chunks)))
        end
      end.

(** *** The early return *)

(** C10. When the directory yields no chunk, [embed_and_store] returns
    without raising and leaves everything, the two persisted artifacts
    included, as it was; so the artifacts change only when at least one
    chunk was produced, and then both are replaced together, the chunk
    file by the new chunk list. *)
Theorem embed_and_store_no_chunks (listing : list string) (w : world f32) :
  (collect_chunks (processed_dir w) listing = [] ->
   embed_and_store listing w = (Ok tt, w)) /\
  (store (snd (embed_and_store listing w)) <> store w ->
   collect_chunks (processed_dir w) listing <> [] /\
   fst (embed_and_store listing w) = Ok tt /\
   (exists index, faiss_index_bin (store (snd (embed_and_store listing w))) = Some index) /\
   chunks_pkl (store (snd (embed_and_store listing w)))
   = Some (collect_chunks (processed_dir w) listing)).
Proof.
  unfold embed_and_store.
  split.
  - intros ->. reflexivity.
  - destruct (bool_decide (collect_chunks (processed_dir w) listing = [])) eqn:Hempty;
      [intros Hchg; contradiction Hchg; reflexivity|].
    apply bool_decide_eq_false in Hempty.
    destruct (embed_batches _ _) as [vecs | e];
      [|intros Hchg; contradiction Hchg; reflexivity].
    destruct (_normalize vecs) as [|row X];
      [intros Hchg; contradiction Hchg; reflexivity|].
    intros _. simpl. split; [exact Hempty|].
    split; [reflexivity|]. split; [eexists; reflexivity|reflexivity].
Qed.

(** *** Order of the chunk sequence *)

Lemma collect_chunks_from dir listing : forall acc,
  fold_left (fun chunks fname =>
               match dir !! fname with
               | Some (RegularFile text) => chunks ++ split_text text
               | _ => chunks
               end) listing acc
  = acc ++ collect_chunks dir listing.
Proof.
  unfold collect_chunks.
  induction listing as [|fname rest IH]; intros acc; simpl.
  - rewrite app_nil_r. reflexivity.
  - rewrite IH. rewrite (IH (match dir !! fname with
                             | Some (RegularFile text) => [] ++ split_text text
                             | _ => []
                             end)).
    destruct (dir !! fname) as [[text|]|]; simpl;
      rewrite ?app_nil_r, ?app_assoc; reflexivity.
Qed.

(** The chunk sequence is the concatenation, in listing order, of the
    chunks of each regular file. *)
Lemma collect_chunks_cons dir fname rest :
  collect_chunks dir (fname :: rest)
  = match dir !! fname with
    | Some (RegularFile text) => split_text text
    | _ => []
    end ++ collect_chunks dir rest.
Proof.
  unfold collect_chunks at 1. simpl. rewrite collect_chunks_from.
  destruct (dir !! fname) as [[text|]|]; reflexivity.
Qed.

(** X2. Whatever the listing order, the same chunks are produced, file
    block by file block; only their order follows the listing. *)
Lemma collect_chunks_perm dir (l1 l2 : list string) :
  l1 ≡ₚ l2 -> collect_chunks dir l1 ≡ₚ collect_chunks dir l2.
Proof.
  induction 1 as [|x l1 l2 _ IH|x y l|l1 l2 l3 _ IH1 _ IH2].
  - reflexivity.
  - rewrite !collect_chunks_cons. rewrite IH. reflexivity.
  - rewrite !collect_chunks_cons, !app_assoc.
    apply Permutation_app_tail, Permutation_app_comm.
  - etrans; eassumption.
Qed.

End Defs.

(** On a text shorter than the chunk size and without separators the
    splitter returns the text as its only chunk. *)
Definition demo_split (text : string) : list string :=
  if String.eqb text "" then [] else [text].

Definition demo_dir : gmap string dirent :=
  {[ "a.txt" := RegularFile "alpha"; "b.txt" := RegularFile "beta" ]}.

(** C6. The chunk sequence follows the order in which [os.listdir] names
    the files: two listings of one and the same directory give the chunks
    in different orders. *)
Lemma chunk_order_follows_listing :
  dom demo_dir = list_to_set ["a.txt"; "b.txt"] /\
  ["a.txt"; "b.txt"] ≡ₚ ["b.txt"; "a.txt"] /\
  collect_chunks demo_split demo_dir ["a.txt"; "b.txt"] = ["alpha"; "beta"] /\
  collect_chunks demo_split demo_dir ["b.txt"; "a.txt"] = ["beta"; "alpha"].
Proof.
  split.
  { unfold demo_dir. rewrite dom_insert_L, dom_singleton_L. set_solver. }
  split; [apply perm_swap|].
  split; reflexivity.
Qed.

Lemma collect_chunks_perm_witness :
  collect_chunks demo_split demo_dir ["a.txt"; "b.txt"]
  ≡ₚ collect_chunks demo_split demo_dir ["b.txt"; "a.txt"].
Proof.
  exact (collect_chunks_perm demo_split demo_dir _ _ (perm_swap "b.txt" "a.txt" [])).
Defined.

Definition demo_embed (texts : list string) : result (list (list Z)) :=
  Ok (map (fun _ => [3%Z; 4%Z]) texts).

Definition demo_old_store : vector_store Z :=
  mk_store (Some (mk_index 2 [[1%Z; 0%Z]])) (Some ["old chunk"]).

(** With nothing but a subdirectory in the Processed Text directory the
    old pair of artifacts stays; with the two files it is replaced. *)
Example demo_embed_empty :
  embed_and_store Z 0%Z 1%Z Z.eqb Z.div (fun _ => 5%Z) demo_split demo_embed
    ["sub"] (mk_world {[ "sub" := Directory ]} demo_old_store)
  = (Ok tt, mk_world {[ "sub" := Directory ]} demo_old_store).
Proof. reflexivity. Qed.

Example demo_embed_rebuild :
  store (snd (embed_and_store Z 0%Z 1%Z Z.eqb Z.div (fun _ => 5%Z) demo_split demo_embed
                ["a.txt"; "b.txt"] (mk_world demo_dir demo_old_store)))
  = mk_store (Some (mk_index 2 [[0%Z; 0%Z]; [0%Z; 0%Z]])) (Some ["alpha"; "beta"]).
Proof. reflexivity. Qed.

End Embed.


(** ** Normalisation of float32 rows

    Both [_normalize] functions over the float32 operations, and the same
    functions on IEEE 754 binary32 numbers (24 bits of precision, exponents
    below 128) computed with the Standard Library's [SpecFloat]. *)
Module Normalize.

Section Rows.
Variable f32 : Type.
Variables (f32_zero f32_one : f32).
Variable f32_eqb : f32 -> f32 -> bool.
Variable f32_div : f32 -> f32 -> f32.
Variable l2norm : list f32 -> f32.

Local Abbreviation normalize_index :=
  (Embed._normalize f32 f32_zero f32_one f32_eqb f32_div l2norm).
Local Abbreviation normalize_query :=
  (Retriever._normalize f32 f32_zero f32_one f32_eqb f32_div l2norm).

Lemma divide_by_one (row : list f32) :
  Forall (fun x => f32_div x f32_one = x) row ->
  map (fun x => f32_div x f32_one) row = row.
Proof.
  induction 1 as [|x row Hx _ IH]; [reflexivity|].
  cbn [map]. rewrite Hx, IH. reflexivity.
Qed.


End Rows.

(** *** binary32 *)

Definition prec : Z := 24.
Definition emax : Z := 128.

Definition binary32 : Type := SpecFloat.spec_float.

Definition zero : binary32 := SpecFloat.S754_zero false.
Definition one : binary32 := SpecFloat.S754_finite false 8388608 (-23).

(** [n == 0] on float32: the IEEE comparison (both zeros are equal to
    zero, a NaN is equal to nothing). *)
Definition eqb : binary32 -> binary32 -> bool := SpecFloat.SFeqb.
Definition div : binary32 -> binary32 -> binary32 := SpecFloat.SFdiv prec emax.
Definition mul : binary32 -> binary32 -> binary32 := SpecFloat.SFmul prec emax.
Definition add : binary32 -> binary32 -> binary32 := SpecFloat.SFadd prec emax.
Definition sqrt : binary32 -> binary32 := SpecFloat.SFsqrt prec emax.

(** [np.linalg.norm] of one row: the square root of the sum of the
    squares, every operation rounded to binary32. The squares are added
    from left to right, which is numpy's order for a row of fewer than
    eight elements; the rows below are such rows. *)
Definition l2norm (row : list binary32) : binary32 :=
  sqrt (fold_left add (map (fun x => mul x x) row) zero).

Definition normalize_index : list (list binary32) -> list (list binary32) :=
  Embed._normalize binary32 zero one eqb div l2norm.

Definition normalize_query : list (list binary32) -> list (list binary32) :=
  Retriever._normalize binary32 zero one eqb div l2norm.

(** 2^100, 2^-100, 3 and 4. *)
Definition two_pow_100 : binary32 := SpecFloat.S754_finite false 8388608 77.
Definition two_pow_minus_100 : binary32 := SpecFloat.S754_finite false 8388608 (-123).
Definition three : binary32 := SpecFloat.S754_finite false 12582912 (-22).
Definition four : binary32 := SpecFloat.S754_finite false 8388608 (-21).

Example norm_three_four :
  l2norm [three; four] = SpecFloat.S754_finite false 10485760 (-21).
Proof. vm_compute. reflexivity. Qed.


(** A zero row, a row whose squares underflow (so that its norm is
    computed as zero) and the row 3, 4. *)
Definition demo_rows : list (list binary32) :=
  [ [zero; zero]; [two_pow_minus_100; zero]; [three; four] ].


Example demo_rows_normalized :
  normalize_query demo_rows
  = [ [zero; zero]; [two_pow_minus_100; zero];
      [ SpecFloat.S754_finite false 10066330 (-24);
        SpecFloat.S754_finite false 13421773 (-24) ] ].
Proof. vm_compute. reflexivity. Qed.

End Normalize.


(** ** backend/embedding_utils.py *)
Module EmbeddingUtils.

Definition no_provider_message : string :=
  "No embedding provider available. Please configure Azure OpenAI, OpenAI API, or install sentence-transformers.".

(** [p in names]. *)
Definition one_of (p : string) (names : list string) : bool :=
  existsb (String.eqb p) names.

Section Defs.
Variable vec : Type.

(** What [_get_azure_client], [_get_openai_client] and
    [_get_sentence_transformer] hand back: [None] when the provider is not
    configured or not installed, otherwise the embedding call made on it
    (which may raise). *)
Variables (azure openai sentence_transformer
           : option (list string -> result (list vec))).

(** One [try: ... except Exception: ... if self.provider == name: raise]
    block; [next] is what the code after the block computes. *)
Definition try_provider (client : option (list string -> result (list vec)))
           (pinned : bool) (texts : list string) (next : result (list vec))
  : result (list vec) :=
  match client with
  | Some create =>
    match create texts with
    | Ok embeddings => Ok embeddings
    | Raise e => if pinned then Raise e else next
    end
  | None => next
  end.

(** [EmbeddingClient.embed_texts], with [provider] the lower-cased
    EMBEDDING_PROVIDER. *)
Definition embed_texts (provider : string) (texts : list string) : result (list vec) :=
  let none_left := Raise (mk_exn RuntimeError no_provider_message) in
  let from_local :=
    if one_of provider ["sentence-transformers"; "auto"]
       || one_of provider ["azure"; "openai"]
    then try_provider sentence_transformer
           (String.eqb provider "sentence-transformers") texts none_left
    else none_left in
  let from_openai :=
    if one_of provider ["openai"; "auto"] || String.eqb provider "azure"
    then try_provider openai (String.eqb provider "openai") texts from_local
    else from_local in
  if String.eqb provider "azure" || String.eqb provider "auto"
  then try_provider azure (String.eqb provider "azure") texts from_openai
  else from_openai.

Definition embed_single (provider : string) (text : string) : result vec :=
  match embed_texts provider [text] with
  | Ok (e :: _) => Ok e
  | Ok [] => Raise (mk_exn IndexError "list index out of range")
  | Raise e => Raise e
  end.

(** The first provider of a list that is available and answers. *)
Fixpoint first_success (clients : list (option (list string -> result (list vec))))
         (texts : list string) : option (list vec) :=
  match clients with
  | [] => None
  | Some create :: rest =>
    match create texts with
    | Ok embeddings => Some embeddings
    | Raise _ => first_success rest texts
    end
  | None :: rest => first_success rest texts
  end.

Definition or_no_provider (r : option (list vec)) : result (list vec) :=
  match r with
  | Some embeddings => Ok embeddings
  | None => Raise (mk_exn RuntimeError no_provider_message)
  end.

(** X3. A provider named by EMBEDDING_PROVIDER whose call raises ends the
    request with that very exception; no other provider is asked. With
    [openai] or [sentence-transformers] named, the providers before it in
    the chain are not asked either. *)
Theorem pinned_provider_failure_is_fatal (texts : list string) (e : exn)
        (create : list string -> result (list vec)) :
  create texts = Raise e ->
  (azure = Some create -> embed_texts "azure" texts = Raise e) /\
  (openai = Some create -> embed_texts "openai" texts = Raise e) /\
  (sentence_transformer = Some create ->
   embed_texts "sentence-transformers" texts = Raise e).
Proof.
  intros Hfail. unfold embed_texts, try_provider. simpl.
  repeat split; intros ->; rewrite Hfail; reflexivity.
Qed.

(** X4. With [auto] the providers are tried in the order Azure, OpenAI,
    local model, and the first one that is available and answers gives the
    result; when none does, the call raises RuntimeError. The same holds
    with [azure] named unless the Azure call itself raises (an Azure
    provider that is not configured falls through), and with [openai]
    named for the chain OpenAI, local model unless the OpenAI call raises. *)
Theorem provider_fallback_order (texts : list string) :
  embed_texts "auto" texts
  = or_no_provider (first_success [azure; openai; sentence_transformer] texts) /\
  ((forall create e, azure = Some create -> create texts <> Raise e) ->
   embed_texts "azure" texts = embed_texts "auto" texts) /\
  ((forall create e, openai = Some create -> create texts <> Raise e) ->
   embed_texts "openai" texts
   = or_no_provider (first_success [openai; sentence_transformer] texts)) /\
  embed_texts "sentence-transformers" texts
  = match sentence_transformer with
    | Some create => create texts
    | None => Raise (mk_exn RuntimeError no_provider_message)
    end.
Proof.
  unfold embed_texts, try_provider, or_no_provider. simpl.
  split; [|split; [|split]].
  - destruct azure as [a|]; [destruct (a texts); [reflexivity|]|];
      (destruct openai as [o|]; [destruct (o texts); [reflexivity|]|]);
      (destruct sentence_transformer as [s|]; [destruct (s texts)|]); reflexivity.
  - intros Hok. destruct azure as [a|]; [|reflexivity].
    destruct (a texts) as [v|e] eqn:Ha; [reflexivity|].
    exfalso. exact (Hok a e eq_refl Ha).
  - intros Hok. destruct openai as [o|].
    + destruct (o texts) as [v|e] eqn:Ho; [reflexivity|].
      exfalso. exact (Hok o e eq_refl Ho).
    + destruct sentence_transformer as [s|]; [destruct (s texts)|]; reflexivity.
  - destruct sentence_transformer as [s|]; [destruct (s texts)|]; reflexivity.
Qed.

(** X5. A provider name other than [azure], [openai],
    [sentence-transformers] and [auto] asks no provider at all: the call
    raises RuntimeError whatever is configured. *)
Theorem unknown_provider_raises (provider : string) (texts : list string) :
  provider <> "azure" -> provider <> "openai" ->
  provider <> "sentence-transformers" -> provider <> "auto" ->
  embed_texts provider texts = Raise (mk_exn RuntimeError no_provider_message).
Proof.
  intros Ha Ho Hs Hauto.
  apply String.eqb_neq in Ha, Ho, Hs, Hauto.
  unfold embed_texts, one_of. simpl.
  rewrite Ha, Ho, Hs, Hauto. reflexivity.
Qed.

End Defs.

(** Azure is configured but down, OpenAI is not configured, the local
    model answers. *)
Definition demo_down (_ : list string) : result (list (list Z)) :=
  Raise (mk_exn OtherException "Connection error.").

Definition demo_local (texts : list string) : result (list (list Z)) :=
  Ok (map (fun _ => [1%Z]) texts).

Lemma pinned_provider_failure_is_fatal_witness :
  embed_texts (list Z) (Some demo_down) None (Some demo_local) "azure" ["q"]
  = Raise (mk_exn OtherException "Connection error.").
Proof.
  exact (proj1 (pinned_provider_failure_is_fatal (list Z) (Some demo_down) None
                  (Some demo_local) ["q"] _ demo_down eq_refl) eq_refl).
Defined.

Example demo_auto_falls_back :
  embed_texts (list Z) (Some demo_down) None (Some demo_local) "auto" ["q"]
  = Ok [[1%Z]].
Proof. reflexivity. Qed.

Lemma unknown_provider_raises_witness :
  embed_texts (list Z) (Some demo_local) (Some demo_local) (Some demo_local)
    "azure-openai" ["q"]
  = Raise (mk_exn RuntimeError no_provider_message).
Proof.
  apply (unknown_provider_raises (list Z) (Some demo_local) (Some demo_local)
           (Some demo_local) "azure-openai" ["q"]); discriminate.
Defined.

End EmbeddingUtils.


(** ** backend/embed.py: batching and the stored pair *)
Module Batching.

Import Embed.

(** The batch [chunks[i:i+B]]. *)
Definition batch (chunks : list string) (i : nat) : list string :=
  take B (drop i chunks).

Lemma take_plus {A} (n m : nat) (l : list A) :
  take (n + m) l = take n l ++ take m (drop n l).
Proof.
  revert l. induction n as [|n IH]; intros l; [reflexivity|].
  destruct l as [|x l]; [simpl; rewrite take_nil; reflexivity|].
  simpl. rewrite IH. reflexivity.
Qed.

Lemma batches_from (chunks : list string) (k : nat) : forall a,
  flat_map (batch chunks) (map (fun j => j * B) (seq a k))
  = take (k * B) (drop (a * B) chunks).
Proof.
  induction k as [|k IH]; intros a; [reflexivity|].
  cbn [seq map flat_map]. rewrite IH. unfold batch.
  replace (S k * B) with (B + k * B) by lia.
  rewrite take_plus, drop_drop.
  replace (a * B + B) with (S a * B) by lia. reflexivity.
Qed.

Lemma batch_count_enough (n : nat) : n <= (n + B - 1) / B * B.
Proof.
  unfold B.
  pose proof (Nat.div_mod_eq (n + 64 - 1) 64) as Hdiv.
  pose proof (Nat.mod_upper_bound (n + 64 - 1) 64 ltac:(lia)) as Hmod.
  lia.
Qed.

Lemma batches_cover (chunks : list string) :
  flat_map (batch chunks) (batch_starts (length chunks)) = chunks.
Proof.
  unfold batch_starts. rewrite batches_from. simpl drop.
  apply take_ge. apply batch_count_enough.
Qed.

(** X6. The batches handed to the embedding provider are the slices of at
    most 64 chunks, in order: put end to end they give back the chunk list,
    and no batch is empty or longer than 64. *)
Theorem batches_partition_chunks (chunks : list string) :
  flat_map (batch chunks) (batch_starts (length chunks)) = chunks /\
  Forall (fun i => 0 < length (batch chunks i) <= 64)
         (batch_starts (length chunks)).
Proof.
  split.
  - apply batches_cover.
  - unfold batch_starts. apply Forall_forall. intros i Hi.
    apply list_elem_of_fmap in Hi as (j & -> & Hj).
    apply elem_of_seq in Hj.
    unfold batch. rewrite length_take, length_drop. unfold B in *.
    pose proof (Nat.div_mod_eq (length chunks + 64 - 1) 64) as Hdiv.
    pose proof (Nat.mod_upper_bound (length chunks + 64 - 1) 64 ltac:(lia)) as Hmod.
    lia.
Qed.

Section Stored.
Variable f32 : Type.
Variables (f32_zero f32_one : f32).
Variable f32_eqb : f32 -> f32 -> bool.
Variable f32_div : f32 -> f32 -> f32.
Variable l2norm : list f32 -> f32.
Variable split_text : string -> list string.
Variable embed_texts : list string -> result (list (list f32)).

Local Abbreviation embed_batches := (embed_batches f32 embed_texts).
Local Abbreviation _normalize := (_normalize f32 f32_zero f32_one f32_eqb f32_div l2norm).
Local Abbreviation collect_chunks := (collect_chunks split_text).
Local Abbreviation embed_and_store :=
  (embed_and_store f32 f32_zero f32_one f32_eqb f32_div l2norm split_text embed_texts).

(** The provider answers a batch with one embedding per text. *)
Definition one_per_text : Prop :=
  forall texts embeddings,
    embed_texts texts = Ok embeddings -> length embeddings = length texts.

Lemma embed_batches_length (chunks : list string) (starts : list nat) :
  one_per_text ->
  forall vecs,
    embed_batches starts chunks = Ok vecs ->
    length vecs = length (flat_map (batch chunks) starts).
Proof.
  intros Hone. induction starts as [|i rest IH]; intros vecs Hrun; simpl in Hrun.
  - injection Hrun as <-. reflexivity.
  - destruct (embed_texts (take B (drop i chunks))) as [be|e] eqn:Hb; [|discriminate].
    destruct (embed_batches rest chunks) as [vs|e]; [|discriminate].
    injection Hrun as <-.
    cbn [flat_map]. rewrite !length_app, (IH vs eq_refl).
    unfold batch at 1. rewrite (Hone _ _ Hb). reflexivity.
Qed.

Lemma normalize_length (mat : list (list f32)) :
  length (_normalize mat) = length mat.
Proof. unfold Embed._normalize. apply length_map. Qed.

(** What a build that returns normally with chunks to embed has done. *)
Lemma build_ok_inv (listing : list string) (w : world f32) :
  collect_chunks (processed_dir w) listing <> [] ->
  fst (embed_and_store listing w) = Ok tt ->
  exists vecs row X,
    embed_batches (batch_starts (length (collect_chunks (processed_dir w) listing)))
      (collect_chunks (processed_dir w) listing) = Ok vecs /\
    _normalize vecs = row :: X /\
    snd (embed_and_store listing w)
    = mk_world (processed_dir w)
        (mk_store (Some (mk_index (length row) (row :: X)))
           (Some (collect_chunks (processed_dir w) listing))).
Proof.
  intros Hne. unfold Embed.embed_and_store.
  rewrite bool_decide_eq_false_2 by exact Hne.
  destruct (embed_batches _ _) as [vecs|e] eqn:Hrun; [|discriminate].
  destruct (_normalize vecs) as [|row X] eqn:Hnorm; [discriminate|].
  intros _. exists vecs, row, X.
  split; [reflexivity|]. split; [exact Hnorm|reflexivity].
Qed.

Lemma rows_match_chunks (chunks : list string) vecs row X :
  one_per_text ->
  embed_batches (batch_starts (length chunks)) chunks = Ok vecs ->
  _normalize vecs = row :: X ->
  length (row :: X) = length chunks.
Proof.
  intros Hone Hrun Hnorm.
  pose proof (embed_batches_length _ _ Hone _ Hrun) as Hlen.
  rewrite batches_cover in Hlen.
  rewrite <- Hnorm, normalize_length. exact Hlen.
Qed.

(** X7. When the provider answers every batch with one embedding per
    text, a build that returns normally with chunks to embed stores an
    index with exactly one row per stored chunk, the chunk file holding
    the chunks collected from the directory. *)
Theorem stored_pair_is_parallel (listing : list string) (w : world f32) :
  one_per_text ->
  collect_chunks (processed_dir w) listing <> [] ->
  fst (embed_and_store listing w) = Ok tt ->
  exists index,
    store (snd (embed_and_store listing w))
    = mk_store (Some index) (Some (collect_chunks (processed_dir w) listing)) /\
    length (rows index) = length (collect_chunks (processed_dir w) listing) /\
    processed_dir (snd (embed_and_store listing w)) = processed_dir w.
Proof.
  intros Hone Hne Hok.
  destruct (build_ok_inv listing w Hne Hok) as (vecs & row & X & Hrun & Hnorm & ->).
  eexists. split; [reflexivity|]. simpl.
  split; [|reflexivity].
  exact (rows_match_chunks _ _ _ _ Hone Hrun Hnorm).
Qed.

(** X8. A build that raises (the provider failing on some batch, or
    answering without any embedding) leaves the Processed Text directory
    and both persisted artifacts exactly as they were. *)
Theorem failed_build_keeps_store (listing : list string) (w : world f32) (e : exn) :
  fst (embed_and_store listing w) = Raise e ->
  snd (embed_and_store listing w) = w.
Proof.
  unfold Embed.embed_and_store.
  destruct (bool_decide _); [discriminate|].
  destruct (embed_batches _ _) as [vecs|e']; [|reflexivity].
  destruct (_normalize vecs); [reflexivity|discriminate].
Qed.

End Stored.

(** A provider that fails on the second batch of a long chunk list. *)
Definition demo_second_batch_fails (texts : list string) : result (list (list Z)) :=
  if bool_decide (length texts = 64) then Ok (map (fun _ => [3%Z; 4%Z]) texts)
  else Raise (mk_exn OtherException "rate limit").

Definition demo_long_text : Embed.dirent := RegularFile "x".

Definition demo_split_many (_ : string) : list string := replicate 70 "chunk".

Lemma failed_build_keeps_store_witness :
  snd (embed_and_store Z 0%Z 1%Z Z.eqb Z.div (fun _ => 5%Z) demo_split_many
         demo_second_batch_fails ["a.txt"]
         (mk_world {[ "a.txt" := demo_long_text ]} demo_old_store))
  = mk_world {[ "a.txt" := demo_long_text ]} demo_old_store.
Proof.
  apply (failed_build_keeps_store Z 0%Z 1%Z Z.eqb Z.div (fun _ => 5%Z) demo_split_many
           demo_second_batch_fails ["a.txt"] _ (mk_exn OtherException "rate limit")).
  vm_compute. reflexivity.
Defined.

Lemma stored_pair_is_parallel_witness :
  exists index,
    store (snd (embed_and_store Z 0%Z 1%Z Z.eqb Z.div (fun _ => 5%Z) demo_split
                  demo_embed ["a.txt"; "b.txt"] (mk_world demo_dir demo_old_store)))
    = mk_store (Some index) (Some ["alpha"; "beta"]) /\
    length (rows index) = 2.
Proof.
  destruct (stored_pair_is_parallel Z 0%Z 1%Z Z.eqb Z.div (fun _ => 5%Z) demo_split
              demo_embed ["a.txt"; "b.txt"] (mk_world demo_dir demo_old_store))
    as (index & Hstore & Hrows & _).
  - intros texts embeddings [= <-]. apply length_map.
  - discriminate.
  - reflexivity.
  - exists index. split; [exact Hstore | exact Hrows].
Defined.

End Batching.


(** ** backend/retriever.py: the loaded snapshot *)
Module Snapshot.

Import Retriever.

Section Props.
Variable f32 : Type.
Variables (f32_zero f32_one : f32).
Variable f32_eqb : f32 -> f32 -> bool.
Variable f32_div : f32 -> f32 -> f32.
Variable l2norm : list f32 -> f32.
Variable index : Type.
Variable search : index -> list (list f32) -> Z -> result (list Z).
Variable embed_texts : list string -> result (list (list f32)).

Local Abbreviation retrieve_relevant_chunks :=
  (retrieve_relevant_chunks f32 f32_zero f32_one f32_eqb f32_div l2norm
     index search embed_texts).
Local Abbreviation _ensure_loaded := (_ensure_loaded index).
Local Abbreviation reload_index := (reload_index index).

(** X9. Once index and chunks are in memory, retrieval no longer looks at
    the disk: whatever the persisted artifacts have become (rebuilt,
    removed), every query is answered from the loaded pair and the globals
    keep it; only [reload_index] replaces it, by the pair on disk if both
    artifacts exist, and by nothing (with FileNotFoundError) if not. *)
Theorem loaded_snapshot_is_kept (d : disk index) (g g1 : globals index) :
  _ensure_loaded d g = (Ok tt, g1) ->
  (forall d' query k,
     retrieve_relevant_chunks query k d' g1 = retrieve_relevant_chunks query k d g1 /\
     _index (snd (retrieve_relevant_chunks query k d' g1)) = _index g1 /\
     _chunks (snd (retrieve_relevant_chunks query k d' g1)) = _chunks g1) /\
  (forall d',
     match faiss_index_bin d', chunks_pkl d' with
     | Some ix, Some cs =>
       reload_index d' g1 = (Ok tt, mk_globals false (Some ix) (Some cs))
     | _, _ =>
       exists msg, reload_index d' g1
                   = (Raise (mk_exn FileNotFoundError msg), mk_globals false None None)
     end).
Proof.
  intros Hload.
  destruct (ensure_loaded_ok index d g g1 Hload) as (ix & chunks & Hix & Hcs).
  assert (forall d', _ensure_loaded d' g1 = (Ok tt, g1)) as Hkeep.
  { intros d'. unfold Retriever._ensure_loaded. rewrite Hix, Hcs. reflexivity. }
  split.
  - intros d' query k.
    assert (forall d0, retrieve_relevant_chunks query k d0 g1
                       = retrieve_relevant_chunks query k d g1) as Hsame.
    { intros d0. unfold Retriever.retrieve_relevant_chunks, Retriever.retrieve_selected, bind.
      rewrite !Hkeep. reflexivity. }
    split; [apply Hsame|]. rewrite Hsame.
    unfold Retriever.retrieve_relevant_chunks, Retriever.retrieve_selected, bind, get.
    rewrite Hkeep, Hix, Hcs.
    destruct (bool_decide (chunks = [])); [simpl; rewrite Hix, Hcs; split; reflexivity|].
    unfold Retriever._embed_query, Retriever._embedding_client_once, bind, lift, ret.
    destruct (embed_single f32 embed_texts query) as [e|e];
      [|simpl; rewrite Hix, Hcs; split; reflexivity].
    destruct (search ix _ _) as [idx|e'];
      [|simpl; rewrite Hix, Hcs; split; reflexivity].
    destruct (select_chunks chunks idx); simpl; rewrite Hix, Hcs; split; reflexivity.
  - intros d'. unfold Retriever.reload_index, Retriever._ensure_loaded. simpl.
    destruct (faiss_index_bin d'), (chunks_pkl d'); try reflexivity; eexists; reflexivity.
Qed.

End Props.

(** Loaded from a disk with two chunks; the disk is then emptied. *)
Lemma loaded_snapshot_is_kept_witness :
  fst (retrieve_relevant_chunks Z 0%Z 1%Z Z.eqb Z.div (fun _ => 1%Z) unit demo_search
         demo_embed "q" 4 (mk_disk None None)
         (mk_globals false (Some tt) (Some ["alpha"; "beta"])))
  = Ok ("alpha" +:+ separator +:+ "beta").
Proof.
  rewrite (proj1 (proj1 (loaded_snapshot_is_kept Z 0%Z 1%Z Z.eqb Z.div (fun _ => 1%Z)
                           unit demo_search demo_embed demo_disk demo_unloaded
                           (mk_globals false (Some tt) (Some ["alpha"; "beta"]))
                           eq_refl) (mk_disk None None) "q" 4%Z)).
  reflexivity.
Defined.

End Snapshot.


(** ** backend/mcp_server.py *)
Module McpServer.

(** *** Sorting file names *)

(** Python compares ASCII strings character by character. *)
Definition str_le (s1 s2 : string) : Prop := String.leb s1 s2 = true.

#[local] Instance str_le_dec : RelDecision str_le.
Proof. intros s1 s2. unfold str_le. apply _. Defined.

(** [sorted(l)] on a list of strings. *)
Definition sorted (l : list string) : list string := merge_sort str_le l.

(** [sorted([f for f in os.listdir(PROCESSED_DIR) if f.endswith(".txt")])],
    given what [os.listdir] returned. *)
Definition list_docs (listing : list string) : list string :=
  sorted (List.filter (fun f => endswith f ".txt") listing).

Lemma leb_iff (s1 s2 : string) :
  str_le s1 s2 <-> OrderedTypeEx.String_as_OT.lt s1 s2 \/ s1 = s2.
Proof.
  unfold str_le, String.leb.
  destruct (String.compare s1 s2) eqn:Hc.
  - apply OrderedTypeEx.String_as_OT.cmp_eq in Hc. tauto.
  - apply OrderedTypeEx.String_as_OT.cmp_lt in Hc. tauto.
  - split; [discriminate|]. intros [Hlt | Heq].
    + apply OrderedTypeEx.String_as_OT.cmp_lt in Hlt.
      unfold OrderedTypeEx.String_as_OT.cmp in Hlt. congruence.
    + apply OrderedTypeEx.String_as_OT.cmp_eq in Heq.
      unfold OrderedTypeEx.String_as_OT.cmp in Heq. congruence.
Qed.

#[local] Instance str_le_trans : Transitive str_le.
Proof.
  intros x y z Hxy Hyz. apply leb_iff in Hxy, Hyz. apply leb_iff.
  destruct Hxy as [Hxy | ->]; [|exact Hyz].
  destruct Hyz as [Hyz | ->]; [|left; exact Hxy].
  left. exact (OrderedTypeEx.String_as_OT.lt_trans _ _ _ Hxy Hyz).
Qed.

#[local] Instance str_le_total : Total str_le.
Proof. intros x y. apply String.leb_total. Qed.

#[local] Instance str_le_antisym : AntiSymm eq str_le.
Proof. intros x y Hxy Hyx. exact (String.leb_antisym _ _ Hxy Hyx). Qed.

Lemma filter_txt_perm (l1 l2 : list string) :
  l1 ≡ₚ l2 ->
  List.filter (fun f => endswith f ".txt") l1
  ≡ₚ List.filter (fun f => endswith f ".txt") l2.
Proof.
  induction 1 as [|x l1 l2 _ IH|x y l|l1 l2 l3 _ IH1 _ IH2]; simpl.
  - reflexivity.
  - destruct (endswith x ".txt"); [constructor|]; exact IH.
  - destruct (endswith x ".txt"), (endswith y ".txt");
      try reflexivity. apply perm_swap.
  - etrans; eassumption.
Qed.

(** X10. [list_docs] does not depend on the order in which the directory
    is listed: two listings of the same entries give the same list, which
    is in ascending order and holds exactly the listed names ending in
    [.txt]. *)
Theorem list_docs_order_independent (l1 l2 : list string) :
  l1 ≡ₚ l2 ->
  list_docs l1 = list_docs l2 /\
  Sorted str_le (list_docs l1) /\
  (forall f, f ∈ list_docs l1 <-> f ∈ l1 /\ endswith f ".txt" = true).
Proof.
  intros Hperm. unfold list_docs, sorted.
  split; [|split].
  - apply (Sorted_unique str_le); try apply Sorted_merge_sort; try apply _.
    rewrite !merge_sort_Permutation. apply filter_txt_perm, Hperm.
  - apply Sorted_merge_sort. apply _.
  - intros f. rewrite merge_sort_Permutation.
    rewrite list_elem_of_In, filter_In, <- list_elem_of_In. reflexivity.
Qed.

Lemma list_docs_order_independent_witness :
  list_docs ["b.txt"; "notes.md"; "a.txt"] = list_docs ["a.txt"; "b.txt"; "notes.md"].
Proof.
  apply (list_docs_order_independent ["b.txt"; "notes.md"; "a.txt"]
           ["a.txt"; "b.txt"; "notes.md"]).
  etrans; [apply perm_skip, perm_swap|]. apply perm_swap.
Defined.

Example demo_list_docs :
  list_docs ["b.txt"; "notes.md"; "a.txt"; "B.txt"] = ["B.txt"; "a.txt"; "b.txt"].
Proof. reflexivity. Qed.

End McpServer.


(** ** backend/mcp_server.py: the reindex tool *)
Module Reindex.

Section Defs.
Variable f32 : Type.
Variables (f32_zero f32_one : f32).
Variable f32_eqb : f32 -> f32 -> bool.
Variable f32_div : f32 -> f32 -> f32.
Variable l2norm : list f32 -> f32.
Variable split_text : string -> list string.
Variable embed_texts : list string -> result (list (list f32)).
Variables (UNSTRUCTURED_AVAILABLE OPENPYXL_AVAILABLE : bool).
Variable _test_pdf_extraction : string -> bool.
Variable _extract_pdf_safe : string -> string.
Variables (partition_docx partition_pptx partition_ppt
           : string -> result (list Extract.element)).
Variable _extract_text_generic : string -> result string.
Variable _extract_xlsx : string -> string.
Variable docs_exists : string -> bool.
(** [os.listdir(PROCESSED_DIR)] for a given content of the directory. *)
Variable listdir : gmap string string -> list string.

(** The Processed Text directory, the vector store directory and the
    retriever's globals of the running process. *)
Record server := mk_server {
  artifacts : gmap string string;
  vector_store : Embed.vector_store f32;
  memory : Retriever.globals (Embed.index_flat_ip f32)
}.

(** The Processed Text directory as [embed_and_store] walks it: every
    artifact is a regular file. *)
Definition as_dir (arts : gmap string string) : gmap string Embed.dirent :=
  Embed.RegularFile <$> arts.

(** The vector store directory as the retriever reads it. *)
Definition as_disk (s : Embed.vector_store f32)
  : Retriever.disk (Embed.index_flat_ip f32) :=
  Retriever.mk_disk (Embed.faiss_index_bin s) (Embed.chunks_pkl s).

Local Abbreviation extract_smart :=
  (Extract.extract_smart UNSTRUCTURED_AVAILABLE OPENPYXL_AVAILABLE _test_pdf_extraction
     _extract_pdf_safe partition_docx partition_pptx partition_ppt
     _extract_text_generic _extract_xlsx docs_exists).
Local Abbreviation embed_and_store :=
  (Embed.embed_and_store f32 f32_zero f32_one f32_eqb f32_div l2norm split_text
     embed_texts).
Local Abbreviation collect_chunks := (Embed.collect_chunks split_text).

(** [reindex()]: extract, rebuild, reload; [all_files] is what the walk of
    DOCS_DIR finds. *)
Definition reindex (all_files : list Extract.docfile) : M server string :=
  fun s =>
    let arts := Extract.processed (extract_smart all_files (artifacts s)) in
    match embed_and_store (listdir arts) (Embed.mk_world (as_dir arts) (vector_store s)) with
    | (Raise e, built) => (Raise e, mk_server arts (Embed.store built) (memory s))
    | (Ok _, built) =>
      match Retriever.reload_index _ (as_disk (Embed.store built)) (memory s) with
      | (Raise e, g) => (Raise e, mk_server arts (Embed.store built) g)
      | (Ok _, g) => (Ok "Reindex complete.", mk_server arts (Embed.store built) g)
      end
    end.

(** The chunks the rebuild collects after extraction. *)
Definition rebuilt_chunks (all_files : list Extract.docfile) (s : server) : list string :=
  let arts := Extract.processed (extract_smart all_files (artifacts s)) in
  collect_chunks (as_dir arts) (listdir arts).

(** X11. When the provider answers one embedding per text and the rebuild
    has chunks to embed, a [reindex] that returns has put the freshly
    collected chunks and an index with one row per chunk both on disk and
    in the retriever's memory, whatever was loaded before. *)
Theorem reindex_loads_rebuilt_pair (all_files : list Extract.docfile) (s : server)
        (reply : string) :
  Batching.one_per_text f32 embed_texts ->
  rebuilt_chunks all_files s <> [] ->
  fst (reindex all_files s) = Ok reply ->
  exists index,
    reply = "Reindex complete." /\
    length (Embed.rows index) = length (rebuilt_chunks all_files s) /\
    vector_store (snd (reindex all_files s))
    = Embed.mk_store (Some index) (Some (rebuilt_chunks all_files s)) /\
    memory (snd (reindex all_files s))
    = Retriever.mk_globals false (Some index) (Some (rebuilt_chunks all_files s)).
Proof.
  intros Hone Hne. unfold reindex, rebuilt_chunks in *.
  set (arts := Extract.processed (extract_smart all_files (artifacts s))) in *.
  destruct (embed_and_store (listdir arts) (Embed.mk_world (as_dir arts) (vector_store s)))
    as [[u|e] built] eqn:Hbuild; [|discriminate].
  destruct u.
  assert (fst (embed_and_store (listdir arts)
                 (Embed.mk_world (as_dir arts) (vector_store s))) = Ok tt) as Hok
    by (rewrite Hbuild; reflexivity).
  destruct (Batching.build_ok_inv f32 f32_zero f32_one f32_eqb f32_div l2norm
              split_text embed_texts (listdir arts)
              (Embed.mk_world (as_dir arts) (vector_store s)) Hne Hok)
    as (vecs & row & X & Hrun & Hnorm & Hsnd).
  rewrite Hbuild in Hsnd. simpl in Hsnd, Hrun. subst built.
  pose proof (Batching.rows_match_chunks f32 f32_zero f32_one f32_eqb f32_div l2norm
                embed_texts _ _ _ _ Hone Hrun Hnorm) as Hrows.
  simpl. intros [= <-].
  exists (Embed.mk_index (length row) (row :: X)).
  split; [reflexivity|]. split; [exact Hrows|]. split; reflexivity.
Qed.

(** X12. When the rebuild finds no chunk to embed, [reindex] falls back on
    whatever pair is already on disk: with both artifacts present it
    returns normally and the retriever serves the old chunks; with one
    missing it raises FileNotFoundError and leaves the retriever
    unloaded. The artifacts on disk are not touched either way. *)
Theorem reindex_without_chunks (all_files : list Extract.docfile) (s : server) :
  rebuilt_chunks all_files s = [] ->
  vector_store (snd (reindex all_files s)) = vector_store s /\
  match Embed.faiss_index_bin (vector_store s), Embed.chunks_pkl (vector_store s) with
  | Some index, Some chunks =>
    fst (reindex all_files s) = Ok "Reindex complete." /\
    memory (snd (reindex all_files s))
    = Retriever.mk_globals false (Some index) (Some chunks)
  | _, _ =>
    (exists msg, fst (reindex all_files s) = Raise (mk_exn FileNotFoundError msg)) /\
    memory (snd (reindex all_files s)) = Retriever.mk_globals false None None
  end.
Proof.
  intros Hnone. unfold reindex, rebuilt_chunks in *.
  set (arts := Extract.processed (extract_smart all_files (artifacts s))) in *.
  unfold Embed.embed_and_store. simpl Embed.processed_dir.
  rewrite Hnone. simpl.
  unfold Retriever.reload_index, Retriever._ensure_loaded. simpl.
  destruct (Embed.faiss_index_bin (vector_store s)),
           (Embed.chunks_pkl (vector_store s)); simpl;
    (split; [reflexivity|]); split; try reflexivity; eexists; reflexivity.
Qed.

End Defs.

Definition demo_listdir (arts : gmap string string) : list string :=
  (map_to_list arts).*1.

Definition demo_server : server Z :=
  mk_server Z ∅ Embed.demo_old_store (Retriever.mk_globals false None None).

Abbreviation demo_reindex :=
  (reindex Z 0%Z 1%Z Z.eqb Z.div (fun _ => 5%Z) Embed.demo_split Embed.demo_embed
     true true (fun _ => false) (fun _ => "") Extract.demo_partition
     Extract.demo_partition Extract.demo_partition Extract.demo_generic
     (fun _ => "") (fun _ => false) demo_listdir).

Lemma reindex_loads_rebuilt_pair_witness :
  exists index,
    length (Embed.rows index) = 1 /\
    memory Z (snd (demo_reindex Extract.demo_files demo_server))
    = Retriever.mk_globals false (Some index) (Some ["hello"]).
Proof.
  destruct (reindex_loads_rebuilt_pair Z 0%Z 1%Z Z.eqb Z.div (fun _ => 5%Z)
              Embed.demo_split Embed.demo_embed
              true true (fun _ => false) (fun _ => "") Extract.demo_partition
              Extract.demo_partition Extract.demo_partition Extract.demo_generic
              (fun _ => "") (fun _ => false) demo_listdir
              Extract.demo_files demo_server "Reindex complete.")
    as (index & _ & Hrows & _ & Hmem).
  - intros texts embeddings [= <-]. apply length_map.
  - vm_compute. discriminate.
  - vm_compute. reflexivity.
  - exists index. split; [exact Hrows | exact Hmem].
Defined.

Lemma reindex_without_chunks_witness :
  memory Z (snd (demo_reindex [] demo_server))
  = Retriever.mk_globals false (Some (Embed.mk_index 2 [[1%Z; 0%Z]])) (Some ["old chunk"]).
Proof.
  exact (proj2 (proj2 (reindex_without_chunks Z 0%Z 1%Z Z.eqb Z.div (fun _ => 5%Z)
                         Embed.demo_split Embed.demo_embed
                         true true (fun _ => false) (fun _ => "") Extract.demo_partition
                         Extract.demo_partition Extract.demo_partition
                         Extract.demo_generic (fun _ => "") (fun _ => false)
                         demo_listdir [] demo_server eq_refl))).
Defined.

End Reindex.


(** ** backend/ingest_onedrive.py: local names *)
Module SafeName.

Import Ingest.

(** A character [_safe_name] keeps. *)
Definition valid_char (c : ascii) : bool := negb (existsb (Ascii.eqb c) invalid_chars).

(** No white space at the front. *)
Definition clean (l : list ascii) : Prop :=
  match l with
  | c :: _ => is_space c = false
  | [] => True
  end.

Lemma chars_str (l : list ascii) : chars (str l) = l.
Proof. apply list_ascii_of_string_of_list_ascii. Qed.

Lemma str_chars (s : string) : str (chars s) = s.
Proof. apply string_of_list_ascii_of_string. Qed.

Lemma lstrip_suffix (l : list ascii) : exists p, l = p ++ lstrip_chars l.
Proof.
  induction l as [|c l [p Hp]]; [exists []; reflexivity|].
  simpl. destruct (is_space c).
  - exists (c :: p). simpl. f_equal. exact Hp.
  - exists []. reflexivity.
Qed.

Lemma lstrip_clean (l : list ascii) : clean (lstrip_chars l).
Proof.
  induction l as [|c l IH]; [exact I|].
  simpl. destruct (is_space c) eqn:Hc; [exact IH|exact Hc].
Qed.

Lemma lstrip_of_clean (l : list ascii) : clean l -> lstrip_chars l = l.
Proof. destruct l as [|c l]; [reflexivity|]. simpl. intros ->. reflexivity. Qed.

Lemma clean_prefix (t q : list ascii) : clean (t ++ q) -> t <> [] -> clean t.
Proof. destruct t as [|c t]; [congruence|]. simpl. trivial. Qed.

(** The characters of [s.strip()]. *)
Lemma chars_strip (s : string) :
  chars (strip s) = rev (lstrip_chars (rev (lstrip_chars (chars s)))).
Proof. unfold strip. apply chars_str. Qed.

Lemma strip_clean_both (s : string) :
  clean (chars (strip s)) /\ clean (rev (chars (strip s))).
Proof.
  rewrite chars_strip. set (a := lstrip_chars (chars s)).
  split; [|rewrite rev_involutive; apply lstrip_clean].
  destruct (lstrip_suffix (rev a)) as [p Hp].
  set (m := lstrip_chars (rev a)) in *.
  assert (a = rev m ++ rev p) as Ha.
  { rewrite <- (rev_involutive a), Hp, rev_app_distr. reflexivity. }
  destruct (rev m) as [|c t] eqn:Hm; [exact I|].
  apply (clean_prefix (c :: t) (rev p)); [|discriminate].
  rewrite <- Ha. apply lstrip_clean.
Qed.

Lemma strip_fixed (s : string) :
  clean (chars s) -> clean (rev (chars s)) -> strip s = s.
Proof.
  intros H1 H2. unfold strip.
  rewrite (lstrip_of_clean _ H1), (lstrip_of_clean _ H2), rev_involutive.
  apply str_chars.
Qed.

Lemma elem_rev {A} (x : A) (l : list A) : x ∈ rev l <-> x ∈ l.
Proof. rewrite !list_elem_of_In. symmetry. apply in_rev. Qed.

Lemma strip_subset (s : string) (c : ascii) :
  c ∈ chars (strip s) -> c ∈ chars s.
Proof.
  rewrite chars_strip. intros Hc.
  apply (proj1 (elem_rev _ _)) in Hc.
  destruct (lstrip_suffix (rev (lstrip_chars (chars s)))) as [p Hp].
  assert (c ∈ rev (lstrip_chars (chars s))) as Hc'
    by (rewrite Hp; apply elem_of_app; right; exact Hc).
  apply (proj1 (elem_rev _ _)) in Hc'.
  destruct (lstrip_suffix (chars s)) as [q Hq].
  rewrite Hq. apply elem_of_app. right. exact Hc'.
Qed.

Lemma filter_all {A} (f : A -> bool) (l : list A) :
  (forall x, x ∈ l -> f x = true) -> List.filter f l = l.
Proof.
  induction l as [|x l IH]; intros Hall; [reflexivity|].
  simpl. rewrite (Hall x) by left. f_equal. apply IH.
  intros y Hy. apply Hall. right. exact Hy.
Qed.

Lemma safe_name_chars (name : string) (c : ascii) :
  c ∈ chars (_safe_name name) -> valid_char c = true.
Proof.
  unfold _safe_name. fold valid_char.
  set (kept := strip (str (List.filter valid_char (chars name)))).
  destruct (String.eqb kept "").
  - intros Hc. vm_compute in Hc.
    repeat (apply elem_of_cons in Hc as [-> | Hc]; [reflexivity|]).
    apply elem_of_nil in Hc. contradiction.
  - intros Hc. apply strip_subset in Hc. rewrite chars_str in Hc.
    apply list_elem_of_In, filter_In in Hc. apply Hc.
Qed.

(** A safe name is a relative path: it does not begin with a slash. *)
Lemma safe_name_relative (name : string) : startswith (_safe_name name) "/" = false.
Proof.
  pose proof (safe_name_chars name) as Hvalid.
  destruct (_safe_name name) as [|c rest]; [reflexivity|].
  specialize (Hvalid c ltac:(left)).
  unfold startswith. cbn [String.prefix].
  destruct (ascii_dec "/"%char c) as [<-|_]; [|reflexivity].
  vm_compute in Hvalid. discriminate Hvalid.
Qed.

(** X17. The name [_safe_name] returns is never empty, holds none of the
    nine characters it removes, has no white space at either end, and is
    left as it is by a second application. *)
Theorem safe_name_is_safe (name : string) :
  _safe_name name <> "" /\
  (forall c, c ∈ chars (_safe_name name) -> valid_char c = true) /\
  strip (_safe_name name) = _safe_name name /\
  _safe_name (_safe_name name) = _safe_name name.
Proof.
  remember (_safe_name name) as r eqn:Hr.
  unfold _safe_name in Hr. fold valid_char in Hr.
  set (kept := strip (str (List.filter valid_char (chars name)))) in Hr.
  destruct (String.eqb kept "") eqn:Hempty; subst r.
  - split; [discriminate|]. split; [|split; reflexivity].
    intros c Hc. vm_compute in Hc.
    repeat (apply elem_of_cons in Hc as [-> | Hc]; [reflexivity|]).
    apply elem_of_nil in Hc. contradiction.
  - assert (forall c, c ∈ chars kept -> valid_char c = true) as Hvalid.
    { intros c Hc. apply strip_subset in Hc. rewrite chars_str in Hc.
      apply list_elem_of_In, filter_In in Hc. apply Hc. }
    assert (strip kept = kept) as Hstrip.
    { destruct (strip_clean_both (str (List.filter valid_char (chars name)))).
      apply strip_fixed; assumption. }
    split; [apply String.eqb_neq; exact Hempty|].
    split; [exact Hvalid|]. split; [exact Hstrip|].
    unfold _safe_name. fold valid_char.
    rewrite (filter_all _ _ Hvalid), str_chars, Hstrip, Hempty. reflexivity.
Qed.

End SafeName.


(** ** backend/ingest_onedrive.py: the run over the listed items *)
Module IngestRun.

Import OneDriveClient Ingest.

(** The counters add up, and no more files were found corrupted than were
    downloaded again or failed. *)
Definition balanced (st : stats) : Prop :=
  total st = downloaded st + skipped st + failed st /\
  redownloaded st <= downloaded st + failed st.

(** The listed items that are files. *)
Definition file_items (items : list item) : list item :=
  List.filter (fun it => negb (folder it)) items.

Section Props.
Variable download_file : nat -> item -> result (list Byte.byte).
Variable pdf_page_count : list Byte.byte -> result nat.
Variable pdf_first_page_text : list Byte.byte -> result string.
Variable zip_namelist : list Byte.byte -> result (list string).
Variable remote_timestamp : string -> result Z.

Local Abbreviation content_ok := (content_ok pdf_page_count pdf_first_page_text zip_namelist).
Local Abbreviation _test_file_integrity :=
  (_test_file_integrity pdf_page_count pdf_first_page_text zip_namelist).
Local Abbreviation retry_loop :=
  (retry_loop download_file pdf_page_count pdf_first_page_text zip_namelist).
Local Abbreviation _download_with_retry :=
  (_download_with_retry download_file pdf_page_count pdf_first_page_text zip_namelist).
Local Abbreviation skip_policy :=
  (skip_policy pdf_page_count pdf_first_page_text zip_namelist remote_timestamp).
Local Abbreviation download_step :=
  (download_step download_file pdf_page_count pdf_first_page_text zip_namelist).
Local Abbreviation process_item :=
  (process_item download_file pdf_page_count pdf_first_page_text zip_namelist
     remote_timestamp).
Local Abbreviation process_items :=
  (process_items download_file pdf_page_count pdf_first_page_text zip_namelist
     remote_timestamp).
Local Abbreviation fetch_onedrive_folder :=
  (fetch_onedrive_folder download_file pdf_page_count pdf_first_page_text zip_namelist
     remote_timestamp).

(** *** The folder of an item *)

Lemma prefix_append (s t : string) : String.prefix s (s +:+ t) = true.
Proof.
  induction s as [|c s IH]; [destruct t; reflexivity|].
  simpl. destruct (ascii_dec c c) as [_|Hne]; [exact IH|congruence].
Qed.

(** What is joined to a directory lies below it. *)
Lemma path_join_below (dir name : string) :
  startswith name "/" = false ->
  startswith (path_join dir name) (path_join dir "") = true.
Proof.
  intros Hrel. unfold path_join. rewrite Hrel.
  change (startswith "" "/") with false. cbv iota.
  unfold startswith.
  destruct (String.eqb dir "" || endswith dir "/").
  - replace (dir +:+ "") with dir; [apply prefix_append|].
    clear. induction dir as [|c dir IH]; [reflexivity|].
    change (String c dir = String c (dir +:+ "")). f_equal. exact IH.
  - replace (dir +:+ "/" +:+ name) with ((dir +:+ "/" +:+ "") +:+ name);
      [apply prefix_append|].
    clear. induction dir as [|c dir IH]; [reflexivity|].
    change (String c ((dir +:+ "/" +:+ "") +:+ name) = String c (dir +:+ "/" +:+ name)).
    f_equal. exact IH.
Qed.

(** Where a file lies at an item's destination, the item's folder is
    there: [_ensure_dir] has nothing to do. *)
Lemma destination_ensured recursive it st dest_path st1 w f :
  destination recursive it st = (dest_path, st1) ->
  files w !! dest_path = Some f ->
  ensure_subdir recursive it w = Ok tt.
Proof.
  unfold destination, ensure_subdir, local_subdir.
  destruct (recursive && _); [|reflexivity].
  intros [= <- _] Hf. unfold _ensure_dir.
  assert (isdir (files w)
            (path_join DOCS_DIR
               (_safe_name (dirname (default (name it) (_relative_path it))))) = true)
    as ->; [|reflexivity].
  apply bool_decide_eq_true. eexists _, f. split; [exact Hf|].
  apply path_join_below, SafeName.safe_name_relative.
Qed.

(** Two statistics that differ at most in [folders_processed]. *)
Definition same_counters (a b : stats) : Prop :=
  total a = total b /\ downloaded a = downloaded b /\ skipped a = skipped b /\
  failed a = failed b /\ redownloaded a = redownloaded b.

Lemma destination_counters recursive it st dest_path st1 :
  destination recursive it st = (dest_path, st1) -> same_counters st1 st.
Proof.
  unfold destination, same_counters.
  destruct (recursive && _); intros [= <- <-]; simpl; repeat split; reflexivity.
Qed.

(** What the skip policy does to the counters. *)
Lemma skip_policy_counters force it dest_path st w skip st2 :
  skip_policy force it dest_path st w = Ok (skip, st2) ->
  total st2 = total st /\ downloaded st2 = downloaded st /\ failed st2 = failed st /\
  (if skip then skipped st2 = S (skipped st) /\ redownloaded st2 = redownloaded st
   else skipped st2 = skipped st /\ redownloaded st2 <= S (redownloaded st)).
Proof.
  unfold Ingest.skip_policy.
  destruct (files w !! dest_path) as [f|];
    [|intros [= <- <-]; simpl; repeat split; lia].
  destruct force; [intros [= <- <-]; simpl; repeat split; lia|].
  destruct (String.eqb _ ""); [intros [= <- <-]; simpl; repeat split; lia|].
  destruct (remote_timestamp _) as [t|e]; [|discriminate].
  destruct (t <=? mtime f)%Z; [|intros [= <- <-]; simpl; repeat split; lia].
  destruct (_test_file_integrity _ _); intros [= <- <-]; simpl; repeat split; lia.
Qed.

Lemma download_step_counters it dest_path st w :
  let r := download_step it dest_path st w in
  total (fst r) = total st /\ skipped (fst r) = skipped st /\
  redownloaded (fst r) = redownloaded st /\
  downloaded (fst r) + failed (fst r) = S (downloaded st + failed st) /\
  downloaded st <= downloaded (fst r) /\ failed st <= failed (fst r) /\
  downloads w <= downloads (snd r) <= downloads w + 3.
Proof.
  unfold Ingest.download_step. cbv zeta.
  pose proof (retry_loop_downloads download_file pdf_page_count pdf_first_page_text
                zip_namelist (range 3) it dest_path 3 (remove_if_exists dest_path w))
    as Hd.
  change (length (range 3)) with 3 in Hd.
  change (downloads (remove_if_exists dest_path w)) with (downloads w) in Hd.
  unfold Ingest._download_with_retry.
  destruct (Ingest.retry_loop _ _ _ _ _ _ _ _ _) as [[|] w']; simpl in *;
    repeat split; lia.
Qed.

(** One item: the counters stay balanced, [total] grows by at most one,
    and at most 3 downloads are attempted, none for a folder. *)
Lemma process_item_step force recursive it st w :
  let r := process_item force recursive it st w in
  downloads w <= downloads (snd r)
  <= downloads w + (if folder it then 0 else 3) /\
  (forall st', fst r = Ok st' ->
     total st' <= total st + (if folder it then 0 else 1) /\
     (balanced st -> balanced st')).
Proof.
  unfold Ingest.process_item. cbv zeta.
  destruct (folder it);
    [simpl; split; [lia|intros st' [= <-]; split; [lia|trivial]]|].
  destruct (bool_decide _);
    [simpl; split; [lia|intros st' [= <-]; split; [lia|trivial]]|].
  destruct (destination recursive it _) as [dest_path st1] eqn:Hdest.
  apply destination_counters in Hdest. destruct Hdest as (Ht & Hdl & Hsk & Hf & Hr).
  simpl in Ht, Hdl, Hsk, Hf, Hr.
  destruct (ensure_subdir recursive it w); [|simpl; split; [lia|discriminate]].
  destruct (skip_policy force it dest_path st1 w) as [[[|] st2]|e] eqn:Hskip;
    [| |simpl; split; [lia|discriminate]].
  - apply skip_policy_counters in Hskip. simpl.
    split; [lia|]. intros st' [= <-]. unfold balanced. lia.
  - apply skip_policy_counters in Hskip.
    pose proof (download_step_counters it dest_path st2 w) as Hstep.
    cbv zeta in Hstep.
    destruct (download_step it dest_path st2 w) as [st3 w3]. simpl in *.
    split; [lia|]. intros st' [= <-]. unfold balanced. lia.
Qed.

Lemma file_items_cons it rest :
  length (file_items (it :: rest))
  = (if folder it then 0 else 1) + length (file_items rest).
Proof. unfold file_items. simpl. destruct (folder it); reflexivity. Qed.

Lemma process_items_run force recursive items : forall st w,
  let r := process_items force recursive items st w in
  downloads w <= downloads (snd r) <= downloads w + 3 * length (file_items items) /\
  (forall st', fst r = Ok st' ->
     total st' <= total st + length (file_items items) /\
     (balanced st -> balanced st')).
Proof.
  induction items as [|it rest IH]; intros st w; cbv zeta.
  - simpl. split; [lia|]. intros st' [= <-]. split; [lia|trivial].
  - pose proof (process_item_step force recursive it st w) as Hitem.
    cbv zeta in Hitem. destruct Hitem as [Hd Hb].
    cbn [Ingest.process_items]. unfold bind.
    rewrite file_items_cons.
    destruct (process_item force recursive it st w) as [[st1|e] w1]; simpl in Hd, Hb.
    + specialize (IH st1 w1). cbv zeta in IH. destruct IH as [Hd' Hb'].
      split; [destruct (folder it); lia|].
      intros st' Hok. destruct (Hb' st' Hok) as [Ht' Hbal'].
      destruct (Hb st1 eq_refl) as [Ht1 Hbal1].
      split; [destruct (folder it); lia|]. intros Hbal. exact (Hbal' (Hbal1 Hbal)).
    + simpl. split; [destruct (folder it); lia|discriminate].
Qed.

(** X13. A run of [fetch_onedrive_folder] that reaches its summary reports
    counters that add up: every file counted in [total] was either
    downloaded, skipped or failed, no more files were re-downloaded as
    corrupted than were downloaded or failed, and [total] counts listed
    files only, never folders. *)
Theorem fetch_statistics_balanced (listing : result (list item))
        (force recursive : bool) (w : world) (st : stats) :
  fst (fetch_onedrive_folder listing force recursive w) = Some st ->
  total st = downloaded st + skipped st + failed st /\
  redownloaded st <= downloaded st + failed st /\
  exists items, listing = Ok items /\ total st <= length (file_items items).
Proof.
  unfold Ingest.fetch_onedrive_folder.
  destruct listing as [items|e]; [|discriminate].
  pose proof (process_items_run force recursive items empty_stats w) as Hrun.
  cbv zeta in Hrun. destruct Hrun as [_ Hbal].
  destruct (process_items force recursive items empty_stats w) as [[st1|e] w1];
    [|discriminate].
  intros [= <-].
  destruct (Hbal st1 eq_refl) as [Ht Hb].
  destruct Hb as [Hsum Hre]; [split; simpl; lia|].
  split; [exact Hsum|]. split; [exact Hre|].
  exists items. split; [reflexivity|]. simpl in Ht. exact Ht.
Qed.

(** X14. Whatever happens during a run, it calls [download_file] at most
    three times per listed file (and never for a folder); a listing that
    failed leads to no download at all. *)
Theorem fetch_download_budget (listing : result (list item))
        (force recursive : bool) (w : world) :
  let w' := snd (fetch_onedrive_folder listing force recursive w) in
  downloads w <= downloads w' /\
  match listing with
  | Ok items => downloads w' <= downloads w + 3 * length (file_items items)
  | Raise _ => w' = w
  end.
Proof.
  unfold Ingest.fetch_onedrive_folder. cbv zeta.
  destruct listing as [items|e]; [|split; [simpl; lia|reflexivity]].
  pose proof (process_items_run force recursive items empty_stats w) as Hrun.
  cbv zeta in Hrun. destruct Hrun as [Hd _].
  destruct (process_items force recursive items empty_stats w) as [[st1|e] w1];
    simpl in *; lia.
Qed.

(** The statistics after [download_stats['skipped'] += 1]. *)
Definition count_skipped (st : stats) : stats :=
  mk_stats (total st) (downloaded st) (S (skipped st)) (failed st)
    (redownloaded st) (folders_processed st).

(** The statistics after [download_stats['total'] += 1]. *)
Definition count_total (st : stats) : stats :=
  mk_stats (S (total st)) (downloaded st) (skipped st) (failed st)
    (redownloaded st) (folders_processed st).

(** X15. A file item whose local copy exists, is at least as new as the
    remote item and passes the integrity check is skipped without any
    effect: no download is attempted, no file is written or removed, and
    only [total] and [skipped] grow (unless the run forces the download). *)
Theorem up_to_date_item_is_left_alone (recursive : bool) (it : item) (st st1 : stats)
        (w : world) (dest_path : string) (f : file) (remote_mtime : Z) :
  folder it = false ->
  lower (_safe_name (name it)) ∉ ["personal vault"; "vault"] ->
  destination recursive it (count_total st) = (dest_path, st1) ->
  files w !! dest_path = Some f ->
  lastModifiedDateTime it <> "" ->
  remote_timestamp (lastModifiedDateTime it) = Ok remote_mtime ->
  (remote_mtime <= mtime f)%Z ->
  content_ok dest_path (content f) = true ->
  process_item false recursive it st w = (Ok (count_skipped st1), w).
Proof.
  intros Hfile Hvault Hdest Hf Hstr Hts Hnew Hok.
  unfold Ingest.process_item. rewrite Hfile.
  rewrite bool_decide_eq_false_2 by exact Hvault.
  fold (count_total st). rewrite Hdest.
  rewrite (destination_ensured _ _ _ _ _ _ _ Hdest Hf).
  unfold Ingest.skip_policy, Ingest._test_file_integrity. rewrite Hf.
  apply String.eqb_neq in Hstr. rewrite Hstr, Hts.
  apply Z.leb_le in Hnew. rewrite Hnew, Hok. reflexivity.
Qed.

Lemma process_items_app force recursive pre rest : forall st w,
  process_items force recursive (pre ++ rest) st w
  = match process_items force recursive pre st w with
    | (Ok st1, w1) => process_items force recursive rest st1 w1
    | (Raise e, w1) => (Raise e, w1)
    end.
Proof.
  induction pre as [|it pre IH]; intros st w; [reflexivity|].
  cbn [app Ingest.process_items]. unfold bind.
  destruct (process_item force recursive it st w) as [[st1|e] w1]; [apply IH|reflexivity].
Qed.

(** X16. A file item with a local copy whose [lastModifiedDateTime] does
    not parse ends the whole run when downloads are not forced: the items
    before it have been handled, the item itself and all items after it
    are left untouched, and no summary is produced. *)
Theorem bad_timestamp_ends_run (recursive : bool) (pre rest : list item) (it : item)
        (st1 st2 : stats) (w w1 : world) (dest_path : string) (f : file) (e : exn) :
  process_items false recursive pre empty_stats w = (Ok st1, w1) ->
  folder it = false ->
  lower (_safe_name (name it)) ∉ ["personal vault"; "vault"] ->
  destination recursive it (count_total st1) = (dest_path, st2) ->
  files w1 !! dest_path = Some f ->
  lastModifiedDateTime it <> "" ->
  remote_timestamp (lastModifiedDateTime it) = Raise e ->
  process_items false recursive (pre ++ it :: rest) empty_stats w = (Raise e, w1) /\
  fetch_onedrive_folder (Ok (pre ++ it :: rest)) false recursive w = (None, w1).
Proof.
  intros Hpre Hfile Hvault Hdest Hf Hstr Hts.
  assert (process_items false recursive (pre ++ it :: rest) empty_stats w = (Raise e, w1))
    as Hrun.
  { rewrite process_items_app, Hpre.
    cbn [Ingest.process_items]. unfold bind, Ingest.process_item.
    rewrite Hfile. rewrite bool_decide_eq_false_2 by exact Hvault.
    fold (count_total st1). rewrite Hdest.
    rewrite (destination_ensured _ _ _ _ _ _ _ Hdest Hf).
    unfold Ingest.skip_policy. rewrite Hf.
    apply String.eqb_neq in Hstr. rewrite Hstr, Hts. reflexivity. }
  split; [exact Hrun|].
  unfold Ingest.fetch_onedrive_folder. rewrite Hrun. reflexivity.
Qed.

(** X18. For a destination that is neither a PDF nor a .docx or .pptx
    file the integrity check accepts any bytes: the first attempt whose
    download does not raise ends the retry loop with success, whatever was
    downloaded (an empty file included). *)
Theorem other_types_never_found_corrupted (it : item) (dest_path : string) (w : world)
        (j : nat) (c : list Byte.byte) :
  endswith (lower dest_path) ".pdf" = false ->
  endswith (lower dest_path) ".docx" = false ->
  endswith (lower dest_path) ".pptx" = false ->
  j < 3 ->
  (forall i, i < j -> exists e, download_file (downloads w + i) it = Raise e) ->
  download_file (downloads w + j) it = Ok c ->
  (forall c', content_ok dest_path c' = true) /\
  fst (_download_with_retry it dest_path 3 w) = true /\
  downloads (snd (_download_with_retry it dest_path 3 w)) = downloads w + S j /\
  content <$> (files (snd (_download_with_retry it dest_path 3 w)) !! dest_path) = Some c.
Proof.
  intros Hpdf Hdocx Hpptx Hj Hraise Hdl.
  assert (forall c', content_ok dest_path c' = true) as Hany.
  { intros c'. unfold Ingest.content_ok. rewrite Hpdf, Hdocx, Hpptx. reflexivity. }
  split; [exact Hany|].
  rewrite download_with_retry_three.
  destruct (retry_loop_first_success download_file pdf_page_count pdf_first_page_text
              zip_namelist 3 it dest_path c j 3 0 w eq_refl Hj)
    as (w' & -> & Hd & Hc); [|exact Hdl|apply Hany|].
  - intros i Hi. unfold attempt_fails. destruct (Hraise i Hi) as [e ->]. exact I.
  - simpl. split; [reflexivity|]. split; [exact Hd|exact Hc].
Qed.

End Props.

Lemma fetch_statistics_balanced_witness :
  exists st,
    fst (fetch_onedrive_folder demo_download demo_pdf_pages demo_pdf_text demo_zip
           demo_timestamp
           (Ok [demo_item; mk_item "notes.txt" "43" false "" None])
           false true demo_world) = Some st /\
    total st = 2 /\ total st = downloaded st + skipped st + failed st.
Proof.
  exists (mk_stats 2 1 0 1 0 ∅).
  split; [vm_compute; reflexivity|]. split; [reflexivity|].
  apply (fetch_statistics_balanced demo_download demo_pdf_pages demo_pdf_text demo_zip
           demo_timestamp
           (Ok [demo_item; mk_item "notes.txt" "43" false "" None])
           false true demo_world).
  vm_compute. reflexivity.
Defined.

(** A local copy stamped 10, the remote item last modified at 5. *)
Definition demo_dated_item : item :=
  mk_item "notes.txt" "43" false "2024-01-01T00:00:00Z" None.

Definition demo_stamp (_ : string) : result Z := Ok 5%Z.

Definition demo_local_world : world :=
  mk_world {[ "data/docs/notes.txt" := mk_file [Byte.x61] 10 ]} 0 11.

Lemma up_to_date_item_is_left_alone_witness :
  process_item demo_download demo_pdf_pages demo_pdf_text demo_zip demo_stamp
    false true demo_dated_item empty_stats demo_local_world
  = (Ok (mk_stats 1 0 1 0 0 ∅), demo_local_world).
Proof.
  apply (up_to_date_item_is_left_alone demo_download demo_pdf_pages demo_pdf_text
           demo_zip demo_stamp true demo_dated_item empty_stats (mk_stats 1 0 0 0 0 ∅)
           demo_local_world "data/docs/notes.txt" (mk_file [Byte.x61] 10) 5%Z).
  - reflexivity.
  - intros Hin. apply elem_of_cons in Hin as [Hin|Hin]; [discriminate Hin|].
    apply elem_of_cons in Hin as [Hin|Hin]; [discriminate Hin|].
    apply elem_of_nil in Hin. exact Hin.
  - reflexivity.
  - reflexivity.
  - discriminate.
  - reflexivity.
  - simpl. lia.
  - reflexivity.
Defined.

Definition demo_bad_stamp (_ : string) : result Z :=
  Raise (mk_exn ValueError "Invalid isoformat string").

Lemma bad_timestamp_ends_run_witness :
  fetch_onedrive_folder demo_download demo_pdf_pages demo_pdf_text demo_zip
    demo_bad_stamp (Ok [demo_dated_item; demo_item]) false true demo_local_world
  = (None, demo_local_world).
Proof.
  apply (bad_timestamp_ends_run demo_download demo_pdf_pages demo_pdf_text demo_zip
           demo_bad_stamp true [] [demo_item] demo_dated_item empty_stats
           (mk_stats 1 0 0 0 0 ∅) demo_local_world demo_local_world
           "data/docs/notes.txt" (mk_file [Byte.x61] 10)
           (mk_exn ValueError "Invalid isoformat string")).
  - reflexivity.
  - reflexivity.
  - intros Hin. apply elem_of_cons in Hin as [Hin|Hin]; [discriminate Hin|].
    apply elem_of_cons in Hin as [Hin|Hin]; [discriminate Hin|].
    apply elem_of_nil in Hin. exact Hin.
  - reflexivity.
  - reflexivity.
  - discriminate.
  - reflexivity.
Defined.

Lemma other_types_never_found_corrupted_witness :
  fst (_download_with_retry demo_download demo_pdf_pages demo_pdf_text demo_zip
         demo_item "data/docs/a.txt" 3 demo_world) = true /\
  downloads (snd (_download_with_retry demo_download demo_pdf_pages demo_pdf_text demo_zip
                    demo_item "data/docs/a.txt" 3 demo_world)) = 2.
Proof.
  destruct (other_types_never_found_corrupted demo_download demo_pdf_pages demo_pdf_text
              demo_zip demo_item "data/docs/a.txt" demo_world 1 [Byte.x25; Byte.x50])
    as (_ & Htrue & Hcalls & _).
  - reflexivity.
  - reflexivity.
  - reflexivity.
  - lia.
  - intros i Hi. destruct i as [|i]; [|lia]. eexists. reflexivity.
  - reflexivity.
  - split; [exact Htrue | exact Hcalls].
Defined.

End IngestRun.




(** ** Facts about blank text *)
Module Blank.

Import SafeName.

Lemma chars_append (a b : string) : chars (a +:+ b) = chars a ++ chars b.
Proof.
  unfold chars. induction a as [|c a IH]; [reflexivity|].
  simpl. rewrite IH. reflexivity.
Qed.

Lemma lstrip_nil_iff (l : list ascii) :
  lstrip_chars l = [] <-> Forall (fun c => is_space c = true) l.
Proof.
  induction l as [|c l IH]; [split; [constructor|reflexivity]|].
  simpl. destruct (is_space c) eqn:Hc.
  - rewrite IH. split; [intros H; constructor; assumption|].
    intros H. inversion H; assumption.
  - split; [discriminate|]. intros H. inversion H; congruence.
Qed.

Lemma str_nil_iff (l : list ascii) : str l = "" <-> l = [].
Proof.
  split; [|intros ->; reflexivity].
  destruct l; [reflexivity|discriminate].
Qed.

Lemma forall_rev {A} (P : A -> Prop) (l : list A) : Forall P (rev l) <-> Forall P l.
Proof.
  rewrite !Forall_forall. split; intros H x Hx; apply H.
  - apply (proj2 (elem_rev x l)). exact Hx.
  - apply (proj1 (elem_rev x l)). exact Hx.
Qed.

(** [s.strip()] is empty exactly when [s] holds white space only. *)
Lemma strip_empty_iff (s : string) :
  strip s = "" <-> Forall (fun c => is_space c = true) (chars s).
Proof.
  unfold strip. rewrite str_nil_iff.
  split.
  - intros Hnil.
    assert (lstrip_chars (rev (lstrip_chars (chars s))) = []) as H1.
    { destruct (lstrip_chars (rev (lstrip_chars (chars s)))) as [|c m]; [reflexivity|].
      simpl in Hnil. destruct (rev m); discriminate. }
    apply lstrip_nil_iff in H1. apply (proj1 (forall_rev _ _)) in H1.
    pose proof (lstrip_clean (chars s)) as Hclean.
    destruct (lstrip_chars (chars s)) as [|c a] eqn:Ha.
    + apply lstrip_nil_iff. exact Ha.
    + simpl in Hclean. rewrite ?Ha in H1. inversion H1; congruence.
  - intros Hall. apply lstrip_nil_iff in Hall. rewrite Hall. reflexivity.
Qed.

(** The truth value of [text and text.strip()] is that of "some character
    of the text is not white space". *)
Lemma nonblank_iff (s : string) :
  nonblank s = true <-> exists c, c ∈ chars s /\ is_space c = false.
Proof.
  unfold nonblank. rewrite negb_true_iff.
  split.
  - intros Hne. apply String.eqb_neq in Hne.
    destruct (decide (Forall (fun c => is_space c = true) (chars s))) as [Hall|Hnot].
    + exfalso. apply Hne, strip_empty_iff, Hall.
    + apply not_Forall_Exists in Hnot; [|intros c; apply _].
      apply Exists_exists in Hnot as (c & Hc & Hsp).
      exists c. split; [exact Hc|]. apply not_true_is_false. exact Hsp.
  - intros (c & Hc & Hsp). apply String.eqb_neq. intros Hempty.
    apply strip_empty_iff in Hempty.
    rewrite Forall_forall in Hempty. specialize (Hempty c Hc). congruence.
Qed.

Lemma nonblank_append_l (a b : string) : nonblank a = true -> nonblank (a +:+ b) = true.
Proof.
  rewrite !nonblank_iff, chars_append. intros (c & Hc & Hsp).
  exists c. split; [apply elem_of_app; left; exact Hc|exact Hsp].
Qed.

Lemma nonblank_append_r (a b : string) : nonblank b = true -> nonblank (a +:+ b) = true.
Proof.
  rewrite !nonblank_iff, chars_append. intros (c & Hc & Hsp).
  exists c. split; [apply elem_of_app; right; exact Hc|exact Hsp].
Qed.

Lemma blank_append (a b : string) :
  nonblank a = false -> nonblank b = false -> nonblank (a +:+ b) = false.
Proof.
  intros Ha Hb. destruct (nonblank (a +:+ b)) eqn:Hab; [|reflexivity].
  apply nonblank_iff in Hab as (c & Hc & Hsp).
  rewrite chars_append in Hc. apply elem_of_app in Hc as [Hc|Hc].
  - assert (nonblank a = true) by (apply nonblank_iff; eauto). congruence.
  - assert (nonblank b = true) by (apply nonblank_iff; eauto). congruence.
Qed.

End Blank.


(** ** backend/extract_answers_smart.py: accounting of a run *)
Module ExtractRun.

Import Extract.

Section Props.
Variables (UNSTRUCTURED_AVAILABLE OPENPYXL_AVAILABLE : bool).
Variable _test_pdf_extraction : string -> bool.
Variable _extract_pdf_safe : string -> string.
Variables (partition_docx partition_pptx partition_ppt : string -> result (list element)).
Variable _extract_text_generic : string -> result string.
Variable _extract_xlsx : string -> string.
Variable docs_exists : string -> bool.

Local Abbreviation extract_file :=
  (extract_file UNSTRUCTURED_AVAILABLE OPENPYXL_AVAILABLE _test_pdf_extraction
     _extract_pdf_safe partition_docx partition_pptx partition_ppt
     _extract_text_generic _extract_xlsx docs_exists).
Local Abbreviation run :=
  (run UNSTRUCTURED_AVAILABLE OPENPYXL_AVAILABLE _test_pdf_extraction
     _extract_pdf_safe partition_docx partition_pptx partition_ppt
     _extract_text_generic _extract_xlsx docs_exists).
Local Abbreviation extract_smart :=
  (extract_smart UNSTRUCTURED_AVAILABLE OPENPYXL_AVAILABLE _test_pdf_extraction
     _extract_pdf_safe partition_docx partition_pptx partition_ppt
     _extract_text_generic _extract_xlsx docs_exists).

(** The sum of the three counters. *)
Definition counted (st : state) : nat :=
  processed_count st + skipped_count st + failed_count st.

(** The saves printed by a run. *)
Definition saves (st : state) : list event :=
  List.filter (fun ev => match ev with Saved _ => true | _ => false end) (log st).

Lemma filter_saved_app (l1 l2 : list event) :
  List.filter (fun ev => match ev with Saved _ => true | _ => false end) (l1 ++ l2)
  = List.filter (fun ev => match ev with Saved _ => true | _ => false end) l1
    ++ List.filter (fun ev => match ev with Saved _ => true | _ => false end) l2.
Proof. apply List.filter_app. Qed.

(** One file: exactly one counter grows; the directory grows by one entry
    exactly when [processed_count] does, and only by the file's own key. *)
Lemma extract_file_accounting f st :
  let st' := extract_file f st in
  counted st' = S (counted st) /\
  size (processed st') + processed_count st = size (processed st) + processed_count st' /\
  length (saves st') + processed_count st = length (saves st) + processed_count st' /\
  (forall k, is_Some (processed st' !! k) ->
             is_Some (processed st !! k) \/ k = output_name f).
Proof.
  unfold Extract.extract_file, counted, saves. cbv zeta.
  destruct (bool_decide (is_Some (processed st !! (base_of (rel f) +:+ ".txt"))))
    eqn:Hex.
  - simpl. rewrite filter_saved_app, length_app. simpl.
    repeat split; try lia. intros k Hk. left. exact Hk.
  - apply bool_decide_eq_false in Hex.
    assert (processed st !! (base_of (rel f) +:+ ".txt") = None) as Hnone.
    { destruct (processed st !! (base_of (rel f) +:+ ".txt")) eqn:Hl; [|reflexivity].
      exfalso. apply Hex. eauto. }
    destruct (Extract.extract_text _ _ _ _ _ _ _ _ _ _ _ _)
      as [|should_process text|];
      [simpl; rewrite filter_saved_app, length_app; simpl;
       repeat split; try lia; intros k Hk; left; exact Hk| |
       simpl; rewrite filter_saved_app, length_app; simpl;
       repeat split; try lia; intros k Hk; left; exact Hk].
    destruct (should_process && nonblank text).
    + simpl. rewrite !filter_saved_app, !length_app. simpl.
      rewrite (map_size_insert_None _ _ _ Hnone).
      repeat split; try lia.
      intros k Hk. destruct (decide (base_of (rel f) +:+ ".txt" = k)) as [<-|Hne].
      * right. reflexivity.
      * left. rewrite lookup_insert_ne in Hk by exact Hne. exact Hk.
    + simpl. rewrite filter_saved_app, length_app. simpl.
      repeat split; try lia. intros k Hk. left. exact Hk.
Qed.

Lemma run_accounting all_files : forall st,
  let st' := run all_files st in
  counted st' = counted st + length all_files /\
  size (processed st') + processed_count st = size (processed st) + processed_count st' /\
  length (saves st') + processed_count st = length (saves st) + processed_count st' /\
  (forall k, is_Some (processed st' !! k) ->
             is_Some (processed st !! k) \/ exists f, f ∈ all_files /\ k = output_name f).
Proof.
  induction all_files as [|f rest IH]; intros st; cbv zeta.
  - simpl. repeat split; try lia. intros k Hk. left. exact Hk.
  - change (run (f :: rest) st) with (run rest (extract_file f st)).
    destruct (extract_file_accounting f st) as (Hc & Hs & Hl & Hk).
    destruct (IH (extract_file f st)) as (Hc' & Hs' & Hl' & Hk').
    cbv zeta in *. simpl length.
    repeat split; try lia.
    intros k Hsome. destruct (Hk' k Hsome) as [Hmid | (g & Hg & ->)].
    + destruct (Hk k Hmid) as [Hold | ->]; [left; exact Hold|].
      right. exists f. split; [left|reflexivity].
    + right. exists g. split; [right; exact Hg|reflexivity].
Qed.

(** X19. Every walked file ends in exactly one of the three counters of
    the summary; the Processed Text directory grows by exactly
    [processed_count] entries, one save being printed for each; and every
    entry of the directory was there before or carries the key of one of
    the walked files. *)
Theorem extraction_accounting (all_files : list docfile) (artifacts : gmap string string) :
  let st := extract_smart all_files artifacts in
  processed_count st + skipped_count st + failed_count st = length all_files /\
  size (processed st) = size artifacts + processed_count st /\
  length (saves st) = processed_count st /\
  (forall k, is_Some (processed st !! k) ->
             is_Some (artifacts !! k) \/ exists f, f ∈ all_files /\ k = output_name f).
Proof.
  destruct (run_accounting all_files (mk_state artifacts 0 0 0 []))
    as (Hc & Hs & Hl & Hk).
  cbv zeta in *. unfold Extract.extract_smart, counted in *. simpl in *.
  repeat split; try lia. exact Hk.
Qed.

End Props.

End ExtractRun.


(** ** backend/extract_answers_smart.py: spreadsheets and PDFs *)
Module ExtractFormats.

Import Extract Blank.

Definition tab : string := String (Ascii.ascii_of_nat 9) "".

(** A worksheet: its name and its rows of cells, a cell being [None] or
    the [str] of its value. *)
Record sheet := mk_sheet {
  sheet_name : string;
  sheet_rows : list (list (option string))
}.

(** [f"\n--- Sheet: {sheet_name} ---\n"] *)
Definition sheet_header (name : string) : string :=
  nl +:+ "--- Sheet: " +:+ name +:+ " ---" +:+ nl.

(** ["\t".join([str(cell) if cell is not None else "" for cell in row])] *)
Definition row_text (row : list (option string)) : string :=
  join tab (map (fun cell => default "" cell) row).

(** The lines a sheet adds below its header: the rows that are not blank. *)
Fixpoint rows_text (rows : list (list (option string))) : string :=
  match rows with
  | [] => ""
  | row :: rest =>
    (if nonblank (row_text row) then row_text row +:+ nl else "") +:+ rows_text rest
  end.

Fixpoint sheets_text (sheets : list sheet) : string :=
  match sheets with
  | [] => ""
  | sh :: rest => sheet_header (sheet_name sh) +:+ rows_text (sheet_rows sh)
                  +:+ sheets_text rest
  end.

(** The header lines of the sheets, one after the other. *)
Fixpoint headers_text (sheets : list sheet) : string :=
  match sheets with
  | [] => ""
  | sh :: rest => sheet_header (sheet_name sh) +:+ headers_text rest
  end.

(** [f"\n--- Page {n} ---\n"] *)
Definition page_header (n : nat) : string :=
  nl +:+ "--- Page " +:+ pretty n +:+ " ---" +:+ nl.

(** The text accumulated over the pages from number [page_num] on; a page
    is [None] when reading it raised or gave no string. *)
Fixpoint pages_text (page_num : nat) (pages : list (option string)) : string :=
  match pages with
  | [] => ""
  | page :: rest =>
    match page with
    | Some page_text =>
      if nonblank page_text then page_header (page_num + 1) +:+ page_text else ""
    | None => ""
    end +:+ pages_text (S page_num) rest
  end.

Definition text_of {A} (r : result A) (get : A -> option string) : option string :=
  match r with
  | Ok a => get a
  | Raise _ => None
  end.

Section Defs.
Variables (OPENPYXL_AVAILABLE PDFPLUMBER_AVAILABLE : bool).
(** [openpyxl.load_workbook(path, data_only=True)] with its sheets read. *)
Variable load_workbook : string -> result (list sheet).
(** [fitz.open(path)]: for each page the outcome of [get_text()]. *)
Variable fitz_open : string -> result (list (result string)).
(** [pdfplumber.open(path)]: for each page the outcome of [extract_text()]. *)
Variable pdfplumber_open : string -> result (list (result (option string))).

Definition _extract_xlsx (file_path : string) : string :=
  if negb OPENPYXL_AVAILABLE then ""
  else match load_workbook file_path with
       | Ok sheets => sheets_text sheets
       | Raise _ => ""
       end.

Definition _test_pdf_extraction (file_path : string) : bool :=
  match fitz_open file_path with
  | Raise _ => false
  | Ok [] => false
  | Ok (Raise _ :: _) => false
  | Ok (Ok test_text :: _) =>
    if nonblank test_text then true
    else if PDFPLUMBER_AVAILABLE then
      match pdfplumber_open file_path with
      | Raise _ => false
      | Ok [] => false
      | Ok (Raise _ :: _) => false
      | Ok (Ok None :: _) => false
      | Ok (Ok (Some test_text) :: _) => nonblank test_text
      end
    else false
  end.

Definition _extract_pdf_safe (file_path : string) : string :=
  match fitz_open file_path with
  | Raise _ => ""
  | Ok doc =>
    let text := pages_text 0 (map (fun page => text_of page Some) doc) in
    if nonblank text then text
    else if PDFPLUMBER_AVAILABLE then
      match pdfplumber_open file_path with
      | Raise _ => ""
      | Ok pages => pages_text 0 (map (fun page => text_of page (fun t => t)) pages)
      end
    else ""
  end.

(** *** Spreadsheets *)

Lemma sheet_header_nonblank (name : string) : nonblank (sheet_header name) = true.
Proof.
  apply nonblank_iff. exists "-"%char.
  split; [|reflexivity].
  unfold sheet_header. rewrite chars_append.
  apply elem_of_app. right. left.
Qed.

Lemma rows_text_blank (rows : list (list (option string))) :
  Forall (fun row => nonblank (row_text row) = false) rows ->
  rows_text rows = "".
Proof.
  induction 1 as [|row rest Hrow _ IH]; [reflexivity|].
  simpl. rewrite Hrow, IH. reflexivity.
Qed.

(** X20. The text [_extract_xlsx] returns is empty when openpyxl is
    missing, the workbook does not load or has no sheet, and otherwise is
    never blank: each sheet contributes its header line even when all its
    rows are blank (blank rows add nothing), so such a workbook still
    counts as having text. *)
Theorem xlsx_text_blank_only_without_sheets (file_path : string) :
  (nonblank (_extract_xlsx file_path) = true <->
   OPENPYXL_AVAILABLE = true /\
   exists sh rest, load_workbook file_path = Ok (sh :: rest)) /\
  (nonblank (_extract_xlsx file_path) = false -> _extract_xlsx file_path = "") /\
  (forall sheets,
     OPENPYXL_AVAILABLE = true ->
     load_workbook file_path = Ok sheets ->
     Forall (fun sh => Forall (fun row => nonblank (row_text row) = false)
                              (sheet_rows sh)) sheets ->
     _extract_xlsx file_path = headers_text sheets).
Proof.
  unfold _extract_xlsx.
  assert (forall sh rest, nonblank (sheets_text (sh :: rest)) = true) as Hsheet.
  { intros sh rest. simpl. apply nonblank_append_l, sheet_header_nonblank. }
  split; [|split].
  - destruct OPENPYXL_AVAILABLE; simpl.
    + destruct (load_workbook file_path) as [[|sh rest]|e].
      * split; [discriminate|]. intros (_ & sh & rest & H). discriminate.
      * split; [intros _; split; [reflexivity|eauto]|intros _; apply Hsheet].
      * split; [discriminate|]. intros (_ & sh & rest & H). discriminate.
    + split; [discriminate|]. intros (H & _). discriminate.
  - destruct OPENPYXL_AVAILABLE; simpl; [|reflexivity].
    destruct (load_workbook file_path) as [[|sh rest]|e]; try reflexivity.
    rewrite Hsheet. discriminate.
  - intros sheets -> -> Hblank. simpl.
    induction Hblank as [|sh rest Hrows _ IH]; [reflexivity|].
    cbn [sheets_text headers_text]. rewrite (rows_text_blank _ Hrows), IH.
    reflexivity.
Qed.

(** *** PDFs *)

Lemma page_header_nonblank (n : nat) : nonblank (page_header n) = true.
Proof.
  apply nonblank_iff. exists "-"%char.
  split; [|reflexivity].
  unfold page_header. rewrite chars_append.
  apply elem_of_app. right. left.
Qed.

Lemma pages_text_nonblank (pages : list (option string)) (t : string) : forall n,
  Some t ∈ pages -> nonblank t = true -> nonblank (pages_text n pages) = true.
Proof.
  induction pages as [|page rest IH]; intros n Hin Ht.
  - apply elem_of_nil in Hin. contradiction.
  - cbn [pages_text]. apply elem_of_cons in Hin as [<- | Hin].
    + rewrite Ht. apply nonblank_append_l, nonblank_append_l, page_header_nonblank.
    + apply nonblank_append_r, IH; assumption.
Qed.

Lemma pdf_pretest_sound (file_path : string) :
  _test_pdf_extraction file_path = true ->
  nonblank (_extract_pdf_safe file_path) = true.
Proof.
  unfold _test_pdf_extraction, _extract_pdf_safe.
  destruct (fitz_open file_path) as [[|[t|e] doc]|e]; try discriminate.
  cbn [map text_of].
  set (text := pages_text 0 (Some t :: map (fun page => text_of page Some) doc)).
  destruct (nonblank t) eqn:Ht.
  - intros _.
    assert (nonblank text = true) as Htext
      by (apply (pages_text_nonblank _ t); [left|exact Ht]).
    rewrite Htext. exact Htext.
  - destruct PDFPLUMBER_AVAILABLE; [|discriminate].
    destruct (pdfplumber_open file_path) as [[|[[t'|]|e] pages]|e]; try discriminate.
    intros Ht'. destruct (nonblank text) eqn:Htext; [exact Htext|].
    cbn [map text_of]. apply (pages_text_nonblank _ t'); [left|exact Ht'].
Qed.

Section InRun.
Variable UNSTRUCTURED_AVAILABLE : bool.
Variables (partition_docx partition_pptx partition_ppt : string -> result (list element)).
Variable _extract_text_generic : string -> result string.
Variable docs_exists : string -> bool.

Local Abbreviation extract_file :=
  (extract_file UNSTRUCTURED_AVAILABLE OPENPYXL_AVAILABLE _test_pdf_extraction
     _extract_pdf_safe partition_docx partition_pptx partition_ppt
     _extract_text_generic _extract_xlsx docs_exists).

(** X21. For a PDF without an artifact the pre-test on its first page
    decides alone: when it passes, the extraction always yields non-blank
    text and the file is saved; when it fails, the file is counted as
    failed and nothing is written, whatever the other pages hold. *)
Theorem pdf_pretest_decides (f : docfile) (st : state) :
  endswith (lower (fn f)) ".pdf" = true ->
  processed st !! output_name f = None ->
  if _test_pdf_extraction (fp f) then
    nonblank (_extract_pdf_safe (fp f)) = true /\
    processed (extract_file f st)
    = <[output_name f := _extract_pdf_safe (fp f)]> (processed st) /\
    processed_count (extract_file f st) = S (processed_count st) /\
    failed_count (extract_file f st) = failed_count st
  else
    processed (extract_file f st) = processed st /\
    processed_count (extract_file f st) = processed_count st /\
    failed_count (extract_file f st) = S (failed_count st).
Proof.
  intros Hpdf Hnone.
  unfold Extract.extract_file, Extract.extract_text. unfold output_name in *.
  rewrite bool_decide_eq_false_2 by (rewrite Hnone; intros [x Hx]; discriminate).
  rewrite Hpdf.
  destruct (_test_pdf_extraction (fp f)) eqn:Htest.
  - pose proof (pdf_pretest_sound _ Htest) as Htext.
    rewrite Htext. simpl. repeat split; reflexivity || exact Htext.
  - simpl. repeat split; reflexivity.
Qed.

End InRun.

End Defs.

(** A scanned cover page followed by a page of text: neither library
    reads anything on the first page. *)
Definition demo_fitz (_ : string) : result (list (result string)) :=
  Ok [Ok ""; Ok "Quarterly results"].

Definition demo_plumber (_ : string) : result (list (result (option string))) :=
  Ok [Ok None; Ok (Some "Quarterly results")].

Definition demo_pdf : docfile := mk_docfile "data/docs/report.pdf" "report.pdf" "report.pdf".

Lemma pdf_pretest_decides_witness :
  nonblank (_extract_pdf_safe true demo_fitz demo_plumber "data/docs/report.pdf") = true /\
  failed_count
    (extract_file true true (_test_pdf_extraction true demo_fitz demo_plumber)
       (_extract_pdf_safe true demo_fitz demo_plumber)
       demo_partition demo_partition demo_partition demo_generic
       (_extract_xlsx true (fun _ => Ok [])) (fun _ => false)
       demo_pdf (mk_state ∅ 0 0 0 [])) = 1.
Proof.
  split; [reflexivity|].
  exact (proj2 (proj2 (pdf_pretest_decides true true (fun _ => Ok []) demo_fitz demo_plumber
                         true demo_partition demo_partition demo_partition demo_generic
                         (fun _ => false) demo_pdf (mk_state ∅ 0 0 0 [])
                         eq_refl eq_refl))).
Defined.

Example demo_extract_pdf_text :
  _extract_pdf_safe true demo_fitz demo_plumber "data/docs/report.pdf"
  = nl +:+ "--- Page 2 ---" +:+ nl +:+ "Quarterly results".
Proof. reflexivity. Qed.

Example demo_xlsx_headers_only :
  _extract_xlsx true
    (fun _ => Ok [mk_sheet "Sheet1" [[None; Some ""]; []]; mk_sheet "Data" []]) "book.xlsx"
  = nl +:+ "--- Sheet: Sheet1 ---" +:+ nl +:+ nl +:+ "--- Sheet: Data ---" +:+ nl.
Proof. reflexivity. Qed.

End ExtractFormats.


(** ** backend/onedrive_client.py: listing pages, downloads, uploads *)
Module OneDriveTraffic.

Import OneDriveClient.

Definition GRAPH_BASE_URL : string := "https://graph.microsoft.com/v1.0".

(** The part of a listing reply the code reads: [data.get("value", [])]
    and [data.get("@odata.nextLink")]. *)
Record page := mk_page {
  value : list item;
  next_link : option string
}.

(** The statuses on which [resp.raise_for_status()] raises. *)
Definition is_error (resp : response) : bool :=
  ((400 <=? status_code resp) && (status_code resp <? 600))%Z.

(** The URL [_list_folder_single] starts from. *)
Definition children_url (folder_path : string) : string :=
  if String.eqb folder_path "" || String.eqb folder_path "/"
  then GRAPH_BASE_URL +:+ "/me/drive/root/children"
  else GRAPH_BASE_URL +:+ "/me/drive/root:" +:+ folder_path +:+ ":/children".

Definition content_url (it : item) : string :=
  GRAPH_BASE_URL +:+ "/me/drive/items/" +:+ id it +:+ "/content".

Section Defs.
Variable auth_state : Type.
Variable get_access_token : auth_state -> result string * auth_state.
Variable clear_token_cache : auth_state -> auth_state.
Variable requests_send : list request -> request -> result response.
(** [resp.json()] on a listing reply. *)
Variable json_page : response -> result page.
(** The message requests builds for the HTTPError of a reply. *)
Variable error_text : response -> string.

(** [resp.raise_for_status()]. *)
Definition raise_for_status (resp : response) : result unit :=
  if is_error resp then Raise (mk_exn HTTPStatusError (error_text resp)) else Ok tt.

Local Abbreviation client := (client auth_state).
Local Abbreviation _make_authenticated_request :=
  (_make_authenticated_request auth_state get_access_token clear_token_cache requests_send).
Local Abbreviation _get_headers := (_get_headers auth_state get_access_token).

(** The [while url:] loop of [_list_folder_single], at most [fuel] pages
    long; [None] when the pages did not end within the bound. *)
Fixpoint follow_pages (fuel : nat) (url : string) (items : list item)
  : M client (option (list item)) :=
  match fuel with
  | O => ret None
  | S fuel =>
    (resp <- _make_authenticated_request url "GET" None ∅ ;;
     lift (raise_for_status resp) ;;;
     data <- lift (json_page resp) ;;
     let items := items ++ value data in
     match next_link data with
     | Some next =>
       if String.eqb next "" then ret (Some items) else follow_pages fuel next items
     | None => ret (Some items)
     end)%py
  end.

Definition _list_folder_single (fuel : nat) (folder_path : string)
  : M client (option (list item)) :=
  follow_pages fuel (children_url folder_path) [].

Definition download_file (it : item) : M client (list Byte.byte) :=
  (resp <- _make_authenticated_request (content_url it) "GET" None ∅ ;;
   lift (raise_for_status resp) ;;;
   ret (resp_content resp))%py.

(** The GET request for a URL under given headers. *)
Definition get_request (h : gmap string string) (url : string) : request :=
  mk_request GET url (update h ∅) None.

(** The server answers the pages of a listing one after the other,
    whatever was requested before: each with status 200, each but the
    last naming the next URL. *)
Inductive serves (h : gmap string string) : string -> list (list item) -> Prop :=
| serves_last url resp items :
    (forall history, requests_send history (get_request h url) = Ok resp) ->
    status_code resp = 200%Z ->
    json_page resp = Ok (mk_page items None) ->
    serves h url [items]
| serves_more url resp items next rest :
    (forall history, requests_send history (get_request h url) = Ok resp) ->
    status_code resp = 200%Z ->
    json_page resp = Ok (mk_page items (Some next)) ->
    next <> "" ->
    serves h next rest ->
    serves h url (items :: rest).

Lemma get_with_cached_headers (h : gmap string string) (url : string) (c : client)
      (resp : response) :
  _cached_headers _ c = Some h ->
  requests_send (sent _ c) (get_request h url) = Ok resp ->
  status_code resp <> 401%Z ->
  _make_authenticated_request url "GET" None ∅ c
  = (Ok resp, mk_client _ (Some h) (auth _ c) (sent _ c ++ [get_request h url])).
Proof.
  intros Hh Hsend Hst.
  unfold OneDriveClient._make_authenticated_request, bind, OneDriveClient._get_headers.
  rewrite Hh. simpl. unfold send. simpl. fold (get_request h url).
  rewrite Hsend. apply Z.eqb_neq in Hst. rewrite Hst, Hh. reflexivity.
Qed.

(** X22. When the server answers a listing page by page, the listing
    follows the next links to the end: it returns the items of all pages
    in page order, after one request per page, under the cached token. *)
Theorem listing_follows_all_pages (h : gmap string string) (url : string)
        (pages : list (list item)) :
  serves h url pages ->
  forall fuel acc (c : client),
    _cached_headers _ c = Some h ->
    length pages <= fuel ->
    exists requests,
      follow_pages fuel url acc c
      = (Ok (Some (acc ++ concat pages)),
         mk_client _ (Some h) (auth _ c) (sent _ c ++ requests)) /\
      length requests = length pages /\
      Forall (fun rq => req_verb rq = GET) requests.
Proof.
  induction 1 as [url resp items Hsend Hst Hjson
                 |url resp items next rest Hsend Hst Hjson Hnext _ IH];
    intros fuel acc c Hh Hfuel;
    (destruct fuel as [|fuel]; [simpl in Hfuel; lia|]);
    cbn [follow_pages]; unfold bind at 1;
    rewrite (get_with_cached_headers h url c resp Hh (Hsend _)) by (rewrite Hst; lia);
    unfold bind, lift, raise_for_status, is_error; rewrite Hst; simpl; rewrite Hjson; simpl.
  - exists [get_request h url]. rewrite app_nil_r.
    split; [reflexivity|]. split; [reflexivity|]. repeat constructor.
  - apply String.eqb_neq in Hnext. rewrite Hnext.
    destruct (IH fuel (acc ++ items)
                (mk_client _ (Some h) (auth _ c) (sent _ c ++ [get_request h url]))
                eq_refl ltac:(simpl in Hfuel; lia))
      as (requests & Hrun & Hlen & Hget).
    exists (get_request h url :: requests).
    rewrite Hrun. simpl. rewrite <- !app_assoc. simpl.
    split; [reflexivity|]. split; [lia|]. constructor; [reflexivity|exact Hget].
Qed.

(** X23. A request with a method other than GET, PUT or POST (in any
    letter case) raises ValueError and sends nothing. *)
Theorem unsupported_method_sends_nothing (url method : string)
        (data : option (list Byte.byte)) (extra : gmap string string) (c : client) :
  upper method <> "GET" -> upper method <> "PUT" -> upper method <> "POST" ->
  sent _ (snd (_make_authenticated_request url method data extra c)) = sent _ c /\
  (forall h c1, _get_headers c = (Ok h, c1) ->
     _make_authenticated_request url method data extra c
     = (Raise (mk_exn ValueError ("Unsupported HTTP method: " +:+ method)), c1)).
Proof.
  intros Hg Hp Hpost. apply String.eqb_neq in Hg, Hp, Hpost.
  unfold OneDriveClient._make_authenticated_request, bind, request_for.
  rewrite Hg, Hp, Hpost.
  destruct (_get_headers c) as [[h|e] c1] eqn:Hh;
    pose proof (get_headers_sent _ _ _ _ _ Hh) as Hs; simpl.
  - split; [exact Hs|]. intros h' c1' [= <- <-]. reflexivity.
  - split; [exact Hs|]. intros h' c1' [=].
Qed.

(** X24. A download never sends more than two requests, and it hands
    back bytes only from a reply that is not a client or server error:
    when the reply that ends the exchange has a status from 400 to 599
    (a second 401 included) the call raises. *)
Theorem download_raises_on_error_status (it : item) (c : client) :
  length (sent _ (snd (download_file it c))) <= length (sent _ c) + 2 /\
  (forall resp c1,
     _make_authenticated_request (content_url it) "GET" None ∅ c = (Ok resp, c1) ->
     download_file it c
     = (if is_error resp
        then Raise (mk_exn HTTPStatusError (error_text resp))
        else Ok (resp_content resp),
        c1)) /\
  (forall h resp1 token a2 resp2,
     _cached_headers _ c = Some h ->
     requests_send (sent _ c) (get_request h (content_url it)) = Ok resp1 ->
     status_code resp1 = 401%Z ->
     get_access_token (clear_token_cache (auth _ c)) = (Ok token, a2) ->
     requests_send (sent _ c ++ [get_request h (content_url it)])
       (get_request {[ "Authorization" := "Bearer " +:+ token ]} (content_url it))
     = Ok resp2 ->
     status_code resp2 = 401%Z ->
     fst (download_file it c) = Raise (mk_exn HTTPStatusError (error_text resp2))).
Proof.
  split; [|split].
  - unfold download_file, bind.
    pose proof (request_sent_at_most_twice auth_state get_access_token clear_token_cache
                  requests_send (content_url it) "GET" None ∅ c) as Hle.
    destruct (_make_authenticated_request (content_url it) "GET" None ∅ c)
      as [[resp|e] c1]; simpl in *; [|exact Hle].
    unfold lift, raise_for_status.
    destruct (is_error resp); exact Hle.
  - intros resp c1 Hreq. unfold download_file, bind. rewrite Hreq.
    unfold lift, raise_for_status.
    destruct (is_error resp); reflexivity.
  - intros h resp1 token a2 resp2 Hh Hs1 H401 Htok Hs2 H401'.
    unfold download_file, bind.
    unfold OneDriveClient._make_authenticated_request, bind, OneDriveClient._get_headers.
    rewrite Hh. simpl. unfold send. simpl. fold (get_request h (content_url it)).
    rewrite Hs1. apply Z.eqb_eq in H401. rewrite H401. simpl.
    rewrite Htok. simpl.
    fold (get_request {[ "Authorization" := "Bearer " +:+ token ]} (content_url it)).
    rewrite Hs2. unfold lift, raise_for_status, is_error. rewrite H401'. reflexivity.
Qed.

End Defs.

(** A server that lists the folder /docs in two pages. *)
Definition demo_first : item := mk_item "a.pdf" "1" false "2024-01-01T00:00:00Z" None.
Definition demo_second : item := mk_item "b.pdf" "2" false "2024-01-02T00:00:00Z" None.

Definition demo_next : string := "https://graph.microsoft.com/v1.0/next-page".

Definition demo_pages (_ : list request) (rq : request) : result response :=
  Ok (mk_response 200 (if String.eqb (req_url rq) demo_next then [] else [Byte.x7b])).

Definition demo_json (resp : response) : result page :=
  Ok (match resp_content resp with
      | [] => mk_page [demo_second] None
      | _ => mk_page [demo_first] (Some demo_next)
      end).

Definition demo_error_text (resp : response) : string := "HTTP error".

Definition demo_headers : gmap string string := {[ "Authorization" := "Bearer old" ]}.

Lemma listing_follows_all_pages_witness :
  exists requests,
    _list_folder_single nat demo_token demo_clear demo_pages demo_json demo_error_text
      2 "/docs" (mk_client nat (Some demo_headers) 1 [])
    = (Ok (Some ([] ++ concat [[demo_first]; [demo_second]])),
       mk_client nat (Some demo_headers) 1 ([] ++ requests)) /\
    length requests = 2 /\
    Forall (fun rq => req_verb rq = GET) requests.
Proof.
  apply (listing_follows_all_pages nat demo_token demo_clear demo_pages demo_json
           demo_error_text demo_headers (children_url "/docs")
           [[demo_first]; [demo_second]]).
  - apply (serves_more demo_pages demo_json demo_headers (children_url "/docs")
             (mk_response 200 [Byte.x7b]) [demo_first] demo_next [[demo_second]]).
    + intros history. reflexivity.
    + reflexivity.
    + reflexivity.
    + discriminate.
    + apply (serves_last demo_pages demo_json demo_headers demo_next
               (mk_response 200 []) [demo_second]).
      * intros history. reflexivity.
      * reflexivity.
      * reflexivity.
  - reflexivity.
  - simpl. lia.
Defined.

Lemma unsupported_method_sends_nothing_witness :
  sent nat (snd (_make_authenticated_request nat demo_token demo_clear demo_pages
                   demo_next "delete" None ∅ (mk_client nat None 0 []))) = [] /\
  (forall h c1,
     _get_headers nat demo_token (mk_client nat None 0 []) = (Ok h, c1) ->
     _make_authenticated_request nat demo_token demo_clear demo_pages
       demo_next "delete" None ∅ (mk_client nat None 0 [])
     = (Raise (mk_exn ValueError ("Unsupported HTTP method: " +:+ "delete")), c1)).
Proof.
  apply (unsupported_method_sends_nothing nat demo_token demo_clear demo_pages
           demo_next "delete" None ∅ (mk_client nat None 0 []));
    intros H; vm_compute in H; discriminate H.
Defined.

End OneDriveTraffic.


(** ** backend/ingest_onedrive.py: housekeeping of the staging area *)
Module Housekeeping.

Import OneDriveClient Ingest.

(** [pattern in s] on strings. *)
Fixpoint contains (pattern s : string) : bool :=
  String.prefix pattern s ||
  match s with
  | EmptyString => false
  | String _ rest => contains pattern rest
  end.

Definition cleanup_patterns : list string := [".tmp"; ".temp"; "~$"; ".crdownload"].

(** Some pattern occurs in the lower-cased name. *)
Definition is_temp (filename : string) : bool :=
  existsb (fun pattern => contains pattern (lower filename)) cleanup_patterns.

Example is_temp_cases :
  is_temp "Report.TMP" = true /\ is_temp "~$plan.docx" = true /\
  is_temp "plan.docx" = false.
Proof. repeat split; reflexivity. Qed.

(** A file is absent, or its bytes pass the checks of
    [_test_file_integrity] at its path. *)
Definition sound (content_ok : string -> list Byte.byte -> bool)
           (fs : gmap string file) (path : string) : Prop :=
  match fs !! path with
  | None => True
  | Some f => content_ok path (content f) = true
  end.

Section Defs.
Variable download_file : nat -> item -> result (list Byte.byte).
Variable pdf_page_count : list Byte.byte -> result nat.
Variable pdf_first_page_text : list Byte.byte -> result string.
Variable zip_namelist : list Byte.byte -> result (list string).
Variable remote_timestamp : string -> result Z.
(** [os.listdir(DOCS_DIR)] over the files present; [None] when
    [os.path.exists(DOCS_DIR)] is false. *)
Variable listdir : gmap string file -> option (list string).
(** Whether [os.remove] succeeds on an existing file. *)
Variable removable : string -> bool.

Local Abbreviation content_ok := (content_ok pdf_page_count pdf_first_page_text zip_namelist).
Local Abbreviation _test_file_integrity :=
  (_test_file_integrity pdf_page_count pdf_first_page_text zip_namelist).
Local Abbreviation retry_loop :=
  (retry_loop download_file pdf_page_count pdf_first_page_text zip_namelist).
Local Abbreviation _download_with_retry :=
  (_download_with_retry download_file pdf_page_count pdf_first_page_text zip_namelist).
Local Abbreviation download_step :=
  (download_step download_file pdf_page_count pdf_first_page_text zip_namelist).
Local Abbreviation process_item :=
  (process_item download_file pdf_page_count pdf_first_page_text zip_namelist
     remote_timestamp).
Local Abbreviation process_items :=
  (process_items download_file pdf_page_count pdf_first_page_text zip_namelist
     remote_timestamp).
Local Abbreviation fetch_onedrive_folder :=
  (fetch_onedrive_folder download_file pdf_page_count pdf_first_page_text zip_namelist
     remote_timestamp).
Local Abbreviation sound := (sound content_ok).

(** [os.remove(path)]. *)
Definition os_remove (path : string) (w : world) : result world :=
  match files w !! path with
  | None => Raise (mk_exn FileNotFoundError path)
  | Some _ =>
    if removable path
    then Ok (mk_world (delete path (files w)) (downloads w) (clock w))
    else Raise (mk_exn OtherException path)
  end.

(** The loop over the patterns for one file: the second component is
    what it adds to [cleaned]. A failed removal goes on to the next
    pattern. *)
Fixpoint try_patterns (patterns : list string) (filename : string) (w : world)
  : world * nat :=
  match patterns with
  | [] => (w, 0)
  | pattern :: rest =>
    if contains pattern (lower filename) then
      match os_remove (path_join DOCS_DIR filename) w with
      | Ok w' => (w', 1)
      | Raise _ => try_patterns rest filename w
      end
    else try_patterns rest filename w
  end.

Fixpoint cleanup_loop (names : list string) (w : world) (cleaned : nat) : world * nat :=
  match names with
  | [] => (w, cleaned)
  | filename :: rest =>
    if bool_decide (is_Some (files w !! path_join DOCS_DIR filename)) then
      let '(w', n) := try_patterns cleanup_patterns filename w in
      cleanup_loop rest w' (cleaned + n)
    else cleanup_loop rest w cleaned
  end.

(** [cleanup_temp_files]: the staging area afterwards and the number the
    report prints. *)
Definition cleanup_temp_files (w : world) : world * nat :=
  match listdir (files w) with
  | Some names => cleanup_loop names w 0
  | None => (w, 0)
  end.

(** The scan of [force_redownload_corrupted]. *)
Definition scan_corrupted (names : list string) (fs : gmap string file) : gset string :=
  foldl (fun corrupted filename =>
           let file_path := path_join DOCS_DIR filename in
           if bool_decide (is_Some (fs !! file_path))
              && negb (_test_file_integrity fs file_path)
           then corrupted ∪ {[ filename ]} else corrupted)
        ∅ names.

(** The removal loop; a failed removal is reported and passed over. *)
Definition remove_corrupted (corrupted : list string) (w : world) : world :=
  foldl (fun w filename =>
           match os_remove (path_join DOCS_DIR filename) w with
           | Ok w' => w'
           | Raise _ => w
           end)
        w corrupted.

(** [force_redownload_corrupted], given the outcome of the listing that
    [fetch_onedrive_folder] obtains. *)
Definition force_redownload_corrupted (listing : result (list item)) (w : world) : world :=
  let corrupted_files :=
    match listdir (files w) with
    | Some names => scan_corrupted names (files w)
    | None => ∅
    end in
  if bool_decide (corrupted_files = ∅) then w
  else snd (fetch_onedrive_folder listing false true
              (remove_corrupted (elements corrupted_files) w)).

(** *** Cleaning temporary files *)

Lemma try_patterns_present patterns filename w f :
  files w !! path_join DOCS_DIR filename = Some f ->
  try_patterns patterns filename w
  = if existsb (fun pattern => contains pattern (lower filename)) patterns
       && removable (path_join DOCS_DIR filename)
    then (mk_world (delete (path_join DOCS_DIR filename) (files w))
            (downloads w) (clock w), 1)
    else (w, 0).
Proof.
  intros Hf. induction patterns as [|pattern rest IH]; [reflexivity|].
  cbn [try_patterns existsb]. unfold os_remove. rewrite Hf.
  destruct (contains pattern (lower filename)); simpl.
  - destruct (removable (path_join DOCS_DIR filename)) eqn:Hr; [reflexivity|].
    rewrite IH, andb_false_r. reflexivity.
  - exact IH.
Qed.

Lemma cleanup_loop_cons filename rest w cleaned :
  cleanup_loop (filename :: rest) w cleaned
  = match files w !! path_join DOCS_DIR filename with
    | Some _ =>
      if is_temp filename && removable (path_join DOCS_DIR filename)
      then cleanup_loop rest
             (mk_world (delete (path_join DOCS_DIR filename) (files w))
                (downloads w) (clock w)) (cleaned + 1)
      else cleanup_loop rest w (cleaned + 0)
    | None => cleanup_loop rest w cleaned
    end.
Proof.
  cbn [cleanup_loop].
  destruct (files w !! path_join DOCS_DIR filename) as [f|] eqn:Hf.
  - rewrite bool_decide_eq_true_2 by eauto.
    rewrite (try_patterns_present _ _ _ f Hf). fold (is_temp filename).
    destruct (is_temp filename && removable (path_join DOCS_DIR filename)); reflexivity.
  - rewrite bool_decide_eq_false_2; [reflexivity|].
    intros [f Hf']. discriminate Hf'.
Qed.

Lemma cleanup_loop_accounting names : forall w cleaned,
  let r := cleanup_loop names w cleaned in
  files (fst r) ⊆ files w /\
  size (files w) + cleaned = size (files (fst r)) + snd r /\
  downloads (fst r) = downloads w /\ clock (fst r) = clock w /\
  (forall p, is_Some (files w !! p) -> files (fst r) !! p = None ->
     exists filename, filename ∈ names /\ p = path_join DOCS_DIR filename /\
                      is_temp filename = true /\ removable p = true).
Proof.
  induction names as [|filename rest IH]; intros w cleaned.
  - simpl. split; [reflexivity|]. split; [reflexivity|].
    split; [reflexivity|]. split; [reflexivity|].
    intros p [f Hf] Hnone. rewrite Hnone in Hf. discriminate Hf.
  - cbv zeta. rewrite cleanup_loop_cons.
    destruct (files w !! path_join DOCS_DIR filename) as [f|] eqn:Hf.
    + destruct (is_temp filename && removable (path_join DOCS_DIR filename)) eqn:Hc.
      * apply andb_true_iff in Hc as [Htemp Hrem].
        specialize (IH (mk_world (delete (path_join DOCS_DIR filename) (files w))
                          (downloads w) (clock w)) (cleaned + 1)).
        cbv zeta in IH. simpl in IH.
        destruct IH as (Hsub & Hsize & Hd & Hcl & Hgone).
        split; [etrans; [exact Hsub|apply delete_subseteq]|].
        split.
        { rewrite <- Hsize.
          pose proof (map_size_delete_Some (path_join DOCS_DIR filename) (files w)
                        (mk_is_Some _ _ Hf)) as Hsz.
          assert (Hpos : size (files w) <> 0).
          { intros H0. apply map_size_empty_iff in H0. rewrite H0 in Hf.
            rewrite lookup_empty in Hf. discriminate Hf. }
          lia. }
        split; [exact Hd|]. split; [exact Hcl|].
        intros p Hp Hnone.
        destruct (decide (p = path_join DOCS_DIR filename)) as [->|Hne].
        { exists filename. split; [left|]. repeat split; assumption. }
        destruct (Hgone p) as (name & Hin & Heq & Ht & Hr).
        { rewrite lookup_delete_ne by congruence. exact Hp. }
        { exact Hnone. }
        exists name. split; [right; exact Hin|]. repeat split; assumption.
      * specialize (IH w (cleaned + 0)). cbv zeta in IH.
        destruct IH as (Hsub & Hsize & Hd & Hcl & Hgone).
        split; [exact Hsub|]. split; [lia|]. split; [exact Hd|]. split; [exact Hcl|].
        intros p Hp Hnone. destruct (Hgone p Hp Hnone) as (name & Hin & Hrest).
        exists name. split; [right; exact Hin|exact Hrest].
    + specialize (IH w cleaned). cbv zeta in IH.
      destruct IH as (Hsub & Hsize & Hd & Hcl & Hgone).
      split; [exact Hsub|]. split; [exact Hsize|]. split; [exact Hd|]. split; [exact Hcl|].
      intros p Hp Hnone. destruct (Hgone p Hp Hnone) as (name & Hin & Hrest).
      exists name. split; [right; exact Hin|exact Hrest].
Qed.

(** X25. Cleaning only ever removes files: what is left is part of what
    was there, the number reported is exactly the number of files that
    are gone, and each of them was listed in the staging directory under
    a name that contains one of the four patterns (letter case ignored).
    Nothing is downloaded. *)
Theorem cleanup_report_is_exact (w : world) :
  let r := cleanup_temp_files w in
  files (fst r) ⊆ files w /\
  size (files w) = size (files (fst r)) + snd r /\
  downloads (fst r) = downloads w /\
  (forall p, is_Some (files w !! p) -> files (fst r) !! p = None ->
     exists filename, p = path_join DOCS_DIR filename /\ is_temp filename = true).
Proof.
  unfold cleanup_temp_files.
  destruct (listdir (files w)) as [names|].
  - pose proof (cleanup_loop_accounting names w 0) as H. cbv zeta in H |- *.
    destruct H as (Hsub & Hsize & Hd & _ & Hgone).
    split; [exact Hsub|]. split; [lia|]. split; [exact Hd|].
    intros p Hp Hnone. destruct (Hgone p Hp Hnone) as (name & _ & Heq & Ht & _).
    exists name. split; assumption.
  - simpl. split; [reflexivity|]. split; [lia|]. split; [reflexivity|].
    intros p [f Hf] Hnone. rewrite Hnone in Hf. discriminate Hf.
Qed.

Lemma cleanup_loop_complete names : forall w cleaned,
  (forall filename, filename ∈ names -> removable (path_join DOCS_DIR filename) = true) ->
  forall filename, filename ∈ names -> is_temp filename = true ->
    files (fst (cleanup_loop names w cleaned)) !! path_join DOCS_DIR filename = None.
Proof.
  induction names as [|first rest IH]; intros w cleaned Hrem filename Hin Htemp.
  - apply elem_of_nil in Hin. destruct Hin.
  - assert (Hrest : forall x, x ∈ rest -> removable (path_join DOCS_DIR x) = true)
      by (intros x Hx; apply Hrem; right; exact Hx).
    assert (Hmono : forall w' n p, files w' !! p = None ->
              files (fst (cleanup_loop rest w' n)) !! p = None).
    { intros w' n p Hnone.
      pose proof (cleanup_loop_accounting rest w' n) as (Hsub & _).
      destruct (files (fst (cleanup_loop rest w' n)) !! p) as [f|] eqn:Hf; [|reflexivity].
      pose proof (lookup_weaken _ _ _ _ Hf Hsub) as Hf'. congruence. }
    rewrite cleanup_loop_cons.
    apply elem_of_cons in Hin as [->|Hin].
    + destruct (files w !! path_join DOCS_DIR first) as [f|] eqn:Hf.
      * rewrite Htemp, (Hrem first) by (left). simpl.
        apply Hmono. simpl. apply lookup_delete_eq.
      * apply Hmono. exact Hf.
    + destruct (files w !! path_join DOCS_DIR first) as [f|] eqn:Hf.
      * destruct (is_temp first && removable (path_join DOCS_DIR first));
          apply IH; assumption.
      * apply IH; assumption.
Qed.

Lemma cleanup_loop_nothing_left names : forall w cleaned,
  (forall filename, filename ∈ names -> is_temp filename = true ->
     files w !! path_join DOCS_DIR filename = None) ->
  cleanup_loop names w cleaned = (w, cleaned).
Proof.
  induction names as [|first rest IH]; intros w cleaned Hclean; [reflexivity|].
  rewrite cleanup_loop_cons.
  assert (Hrest : forall x, x ∈ rest -> is_temp x = true ->
            files w !! path_join DOCS_DIR x = None)
    by (intros x Hx; apply Hclean; right; exact Hx).
  destruct (files w !! path_join DOCS_DIR first) as [f|] eqn:Hf.
  - destruct (is_temp first) eqn:Ht.
    + rewrite (Hclean first) in Hf by (left || exact Ht). discriminate Hf.
    + simpl. rewrite IH by exact Hrest. f_equal. lia.
  - apply IH. exact Hrest.
Qed.

(** X26. When every listed file can be removed, cleaning leaves no file
    in the staging directory whose lower-cased name contains one of the
    patterns, and cleaning again (the directory then lists no new name)
    removes nothing and reports zero. *)
Theorem cleanup_is_complete_and_idempotent (w : world) (names : list string) :
  listdir (files w) = Some names ->
  (forall filename, filename ∈ names -> removable (path_join DOCS_DIR filename) = true) ->
  let w' := fst (cleanup_temp_files w) in
  (forall filename, filename ∈ names -> is_temp filename = true ->
     files w' !! path_join DOCS_DIR filename = None) /\
  (forall names', listdir (files w') = Some names' -> names' ⊆ names ->
     cleanup_temp_files w' = (w', 0)).
Proof.
  intros Hls Hrem w'.
  assert (Hgone : forall filename, filename ∈ names -> is_temp filename = true ->
            files w' !! path_join DOCS_DIR filename = None).
  { intros filename Hin Ht. subst w'. unfold cleanup_temp_files. rewrite Hls.
    apply cleanup_loop_complete; assumption. }
  split; [exact Hgone|].
  intros names' Hls' Hsub. unfold cleanup_temp_files at 1. rewrite Hls'.
  apply cleanup_loop_nothing_left.
  intros filename Hin Ht. apply Hgone; [apply Hsub; exact Hin|exact Ht].
Qed.

(** *** Corrupted files *)

Lemma sound_integrity fs p :
  sound fs p <-> (is_Some (fs !! p) -> _test_file_integrity fs p = true).
Proof.
  unfold Housekeeping.sound, Ingest._test_file_integrity.
  destruct (fs !! p) as [f|].
  - split; [intros H _; exact H|intros H; apply H; eauto].
  - split; [intros _ [f Hf]; discriminate Hf|intros _; exact I].
Qed.

Lemma sound_insert fs dest c t p :
  content_ok dest c = true -> sound fs p -> sound (<[dest := mk_file c t]> fs) p.
Proof.
  intros Hok Hs. unfold Housekeeping.sound.
  destruct (decide (p = dest)) as [->|Hne].
  - rewrite lookup_insert_eq. exact Hok.
  - rewrite lookup_insert_ne by congruence. exact Hs.
Qed.

Lemma sound_delete fs dest p : sound fs p -> sound (delete dest fs) p.
Proof.
  intros Hs. unfold Housekeeping.sound.
  destruct (decide (p = dest)) as [->|Hne].
  - rewrite lookup_delete_eq. exact I.
  - rewrite lookup_delete_ne by congruence. exact Hs.
Qed.

Lemma sound_delete_insert fs dest f p :
  sound fs p -> sound (delete dest (<[dest := f]> fs)) p.
Proof.
  intros Hs. unfold Housekeeping.sound.
  destruct (decide (p = dest)) as [->|Hne].
  - rewrite lookup_delete_eq. exact I.
  - rewrite lookup_delete_ne, lookup_insert_ne by congruence. exact Hs.
Qed.

Lemma retry_loop_sound it dest max_retries p attempts : forall w,
  sound (files w) p ->
  sound (files (snd (retry_loop attempts it dest max_retries w))) p.
Proof.
  induction attempts as [|attempt rest IH]; intros w Hs; [exact Hs|].
  rewrite retry_loop_cons. cbv zeta.
  destruct (download_file (downloads w) it) as [c|e].
  - rewrite integrity_after_write.
    destruct (content_ok dest c) eqn:Hok.
    + simpl. apply sound_insert; assumption.
    + destruct (attempt <? max_retries - 1)%Z.
      * apply IH. simpl. apply sound_delete_insert. exact Hs.
      * simpl. apply sound_delete_insert. exact Hs.
  - destruct (attempt <? max_retries - 1)%Z; [apply IH|]; exact Hs.
Qed.

Lemma download_step_sound it dest st w p :
  sound (files w) p -> sound (files (snd (download_step it dest st w))) p.
Proof.
  intros Hs. unfold Ingest.download_step, Ingest._download_with_retry.
  pose proof (retry_loop_sound it dest 3 p (Py.range 3) (remove_if_exists dest w)
                (sound_delete _ dest p Hs)) as H.
  destruct (retry_loop (Py.range 3) it dest 3 (remove_if_exists dest w)) as [[|] w'];
    exact H.
Qed.

Lemma process_item_sound force recursive it st w p :
  sound (files w) p ->
  sound (files (snd (process_item force recursive it st w))) p.
Proof.
  intros Hs. unfold Ingest.process_item.
  destruct (folder it); [exact Hs|].
  destruct (bool_decide _); [exact Hs|].
  destruct (destination recursive it _) as [dest st1].
  destruct (ensure_subdir recursive it w); [|exact Hs].
  destruct (skip_policy _ _ _ _ force it dest st1 w) as [[[|] st2]|e];
    [exact Hs| |exact Hs].
  pose proof (download_step_sound it dest st2 w p Hs) as H.
  destruct (download_step it dest st2 w) as [st3 w3]. exact H.
Qed.

Lemma process_items_sound force recursive p items : forall st w,
  sound (files w) p ->
  sound (files (snd (process_items force recursive items st w))) p.
Proof.
  induction items as [|it rest IH]; intros st w Hs; [exact Hs|].
  cbn [Ingest.process_items]. unfold bind.
  pose proof (process_item_sound force recursive it st w p Hs) as H.
  destruct (process_item force recursive it st w) as [[st1|e] w1];
    [apply IH|]; exact H.
Qed.

Lemma fetch_sound listing force recursive w p :
  sound (files w) p ->
  sound (files (snd (fetch_onedrive_folder listing force recursive w))) p.
Proof.
  intros Hs. unfold Ingest.fetch_onedrive_folder.
  destruct listing as [items|e]; [|exact Hs].
  pose proof (process_items_sound force recursive p items empty_stats w Hs) as H.
  destruct (process_items force recursive items empty_stats w)
    as [[st|e] w']; exact H.
Qed.

(** X27. A fetch never leaves a damaged file behind: when every file of
    the staging area passes the integrity check before the run, every
    file there passes it after the run, whatever the listing, the
    downloads and the two flags were, and also when the run is cut short
    by an exception. *)
Theorem fetch_keeps_files_sound (listing : result (list item))
        (force_redownload recursive : bool) (w : world) :
  (forall p, is_Some (files w !! p) -> _test_file_integrity (files w) p = true) ->
  let w' := snd (fetch_onedrive_folder listing force_redownload recursive w) in
  forall p, is_Some (files w' !! p) -> _test_file_integrity (files w') p = true.
Proof.
  intros Hall w' p. apply sound_integrity. apply fetch_sound.
  apply sound_integrity. apply Hall.
Qed.

Lemma scan_corrupted_elem fs filename names : forall acc : gset string,
  filename ∈ foldl (fun corrupted filename =>
                      let file_path := path_join DOCS_DIR filename in
                      if bool_decide (is_Some (fs !! file_path))
                         && negb (_test_file_integrity fs file_path)
                      then corrupted ∪ {[ filename ]} else corrupted)
                   acc names
  <-> filename ∈ acc \/
      (filename ∈ names /\ is_Some (fs !! path_join DOCS_DIR filename) /\
       _test_file_integrity fs (path_join DOCS_DIR filename) = false).
Proof.
  induction names as [|first rest IH]; intros acc.
  - simpl. split; [intros H; left; exact H|].
    intros [H|[H _]]; [exact H|]. apply elem_of_nil in H. destruct H.
  - cbn [foldl]. rewrite IH. cbv zeta.
    destruct (bool_decide (is_Some (fs !! path_join DOCS_DIR first))
              && negb (_test_file_integrity fs (path_join DOCS_DIR first))) eqn:Hc.
    + apply andb_true_iff in Hc as [Hfile Hbad].
      apply bool_decide_eq_true in Hfile. apply negb_true_iff in Hbad.
      rewrite elem_of_union, elem_of_singleton, elem_of_cons.
      split.
      * intros [[H| ->]|(Hin & H)]; [left; exact H| |right].
        { right. split; [left; reflexivity|]. split; assumption. }
        { split; [right; exact Hin|exact H]. }
      * intros [H|([->|Hin] & H)]; [left; left; exact H|left; right; reflexivity|].
        right. split; assumption.
    + rewrite elem_of_cons. split.
      * intros [H|(Hin & H)]; [left; exact H|right].
        split; [right; exact Hin|exact H].
      * intros [H|([->|Hin] & Hfile & Hbad)]; [left; exact H| |right; split; [|split]; assumption].
        apply andb_false_iff in Hc as [Hc|Hc].
        { apply bool_decide_eq_false in Hc. contradiction. }
        { rewrite Hbad in Hc. discriminate Hc. }
Qed.

Lemma remove_corrupted_lookup (corrupted : list string) p : forall w,
  (files (remove_corrupted corrupted w) !! p = None \/
   files (remove_corrupted corrupted w) !! p = files w !! p) /\
  (files w !! p = None -> files (remove_corrupted corrupted w) !! p = None).
Proof.
  induction corrupted as [|filename rest IH]; intros w.
  - simpl. split; [right; reflexivity|intros H; exact H].
  - cbn [remove_corrupted foldl]. fold (remove_corrupted rest).
    unfold os_remove.
    destruct (files w !! path_join DOCS_DIR filename) as [f|] eqn:Hf; [|apply IH].
    destruct (removable (path_join DOCS_DIR filename)); [|apply IH].
    destruct (IH (mk_world (delete (path_join DOCS_DIR filename) (files w))
                    (downloads w) (clock w))) as [Hor Hnone].
    simpl in Hor, Hnone.
    destruct (decide (p = path_join DOCS_DIR filename)) as [->|Hne].
    + rewrite lookup_delete_eq in Hnone, Hor.
      split; [left; apply Hnone; reflexivity|intros _; apply Hnone; reflexivity].
    + rewrite lookup_delete_ne in Hnone, Hor by congruence.
      split; assumption.
Qed.

Lemma remove_corrupted_gone (corrupted : list string) filename : forall w,
  filename ∈ corrupted ->
  removable (path_join DOCS_DIR filename) = true ->
  files (remove_corrupted corrupted w) !! path_join DOCS_DIR filename = None.
Proof.
  induction corrupted as [|first rest IH]; intros w Hin Hrem.
  - apply elem_of_nil in Hin. destruct Hin.
  - cbn [remove_corrupted foldl]. fold (remove_corrupted rest).
    apply elem_of_cons in Hin as [<-|Hin]; [|apply IH; assumption].
    apply remove_corrupted_lookup.
    unfold os_remove.
    destruct (files w !! path_join DOCS_DIR filename) as [f|] eqn:Hf; [|exact Hf].
    rewrite Hrem. simpl. apply lookup_delete_eq.
Qed.

(** X28. After the repair run no listed file of the staging directory is
    damaged, provided the damaged ones can be removed: every name the
    directory listed is, afterwards, absent or passes the integrity
    check, whether or not the drive still offers it and whether or not
    its download succeeds. *)
Theorem repair_leaves_listed_files_sound (listing : result (list item)) (w : world)
        (names : list string) :
  listdir (files w) = Some names ->
  (forall filename, filename ∈ names -> removable (path_join DOCS_DIR filename) = true) ->
  let w' := force_redownload_corrupted listing w in
  forall filename, filename ∈ names ->
    is_Some (files w' !! path_join DOCS_DIR filename) ->
    _test_file_integrity (files w') (path_join DOCS_DIR filename) = true.
Proof.
  intros Hls Hrem w' filename Hin. apply sound_integrity. subst w'.
  unfold force_redownload_corrupted. rewrite Hls.
  pose proof (scan_corrupted_elem (files w) filename names ∅) as Hscan.
  fold (scan_corrupted names (files w)) in Hscan.
  assert (Hcase : filename ∈ scan_corrupted names (files w) \/
                  sound (files w) (path_join DOCS_DIR filename)).
  { destruct (files w !! path_join DOCS_DIR filename) as [f|] eqn:Hf.
    - destruct (_test_file_integrity (files w) (path_join DOCS_DIR filename)) eqn:Hok.
      + right. apply sound_integrity. intros _. exact Hok.
      + left. apply Hscan. right. split; [exact Hin|]. split; [eauto|reflexivity].
    - right. unfold Housekeeping.sound. rewrite Hf. exact I. }
  destruct (bool_decide (scan_corrupted names (files w) = ∅)) eqn:Hempty.
  - apply bool_decide_eq_true in Hempty.
    destruct Hcase as [Hbad|Hs]; [|exact Hs].
    rewrite Hempty in Hbad. apply elem_of_empty in Hbad. destruct Hbad.
  - apply fetch_sound.
    destruct Hcase as [Hbad|Hs].
    + unfold Housekeeping.sound.
      rewrite remove_corrupted_gone; [exact I| |apply Hrem; exact Hin].
      apply elem_of_elements. exact Hbad.
    + destruct (remove_corrupted_lookup (elements (scan_corrupted names (files w)))
                  (path_join DOCS_DIR filename) w) as [[Hnone|Hsame] _];
        unfold Housekeeping.sound in *.
      * rewrite Hnone. exact I.
      * rewrite Hsame. exact Hs.
Qed.

End Defs.

(** A staging area with a PDF that no reader opens, a leftover of an
    interrupted download and a text file. *)
Definition demo_staging : world :=
  mk_world (<["data/docs/a.pdf" := mk_file [Byte.x25; Byte.x50] 0]>
            (<["data/docs/draft.tmp" := mk_file [] 0]>
             {[ "data/docs/notes.txt" := mk_file [Byte.x25] 0 ]})) 0 1.

Definition demo_names : list string := ["a.pdf"; "draft.tmp"; "notes.txt"].

Definition demo_listdir (fs : gmap string file) : option (list string) :=
  Some (List.filter (fun filename => bool_decide (is_Some (fs !! path_join DOCS_DIR filename)))
          demo_names).

Definition demo_removable (_ : string) : bool := true.

Example demo_cleanup :
  let r := cleanup_temp_files demo_listdir demo_removable demo_staging in
  snd r = 1 /\ files (fst r) !! "data/docs/draft.tmp" = None /\
  is_Some (files (fst r) !! "data/docs/a.pdf").
Proof. vm_compute. repeat split. eauto. Qed.

Lemma cleanup_is_complete_and_idempotent_witness :
  files (fst (cleanup_temp_files demo_listdir demo_removable demo_staging))
    !! path_join DOCS_DIR "draft.tmp" = None.
Proof.
  apply (proj1 (cleanup_is_complete_and_idempotent demo_listdir demo_removable
                  demo_staging demo_names eq_refl (fun _ _ => eq_refl)) "draft.tmp").
  - right. left.
  - reflexivity.
Defined.

Definition demo_sound_world : world :=
  mk_world {[ "data/docs/notes.txt" := mk_file [Byte.x25] 0 ]} 0 1.

Lemma demo_sound_world_ok p :
  is_Some (files demo_sound_world !! p) ->
  _test_file_integrity demo_pdf_pages demo_pdf_text demo_zip (files demo_sound_world) p
  = true.
Proof.
  intros [f Hf]. destruct (decide (p = "data/docs/notes.txt")) as [->|Hne].
  - reflexivity.
  - simpl in Hf. rewrite lookup_singleton_ne in Hf by congruence. discriminate Hf.
Defined.

Lemma fetch_keeps_files_sound_witness :
  _test_file_integrity demo_pdf_pages demo_pdf_text demo_zip
    (files (snd (fetch_onedrive_folder demo_download demo_pdf_pages demo_pdf_text
                   demo_zip demo_timestamp
                   (Ok [demo_item; mk_item "b.txt" "43" false "" None])
                   false true demo_sound_world))) "data/docs/b.txt" = true.
Proof.
  apply (fetch_keeps_files_sound demo_download demo_pdf_pages demo_pdf_text demo_zip
           demo_timestamp (Ok [demo_item; mk_item "b.txt" "43" false "" None])
           false true demo_sound_world demo_sound_world_ok "data/docs/b.txt").
  vm_compute. eauto.
Defined.

Lemma repair_leaves_listed_files_sound_witness :
  _test_file_integrity demo_pdf_pages demo_pdf_text demo_zip
    (files (force_redownload_corrupted demo_download demo_pdf_pages demo_pdf_text
              demo_zip demo_timestamp demo_listdir demo_removable
              (Ok [demo_item]) demo_staging)) (path_join DOCS_DIR "notes.txt") = true.
Proof.
  apply (repair_leaves_listed_files_sound demo_download demo_pdf_pages demo_pdf_text
           demo_zip demo_timestamp demo_listdir demo_removable (Ok [demo_item])
           demo_staging demo_names eq_refl (fun _ _ => eq_refl) "notes.txt").
  - right. right. left.
  - vm_compute. eauto.
Defined.

(** The repair removes the broken PDF; the drive only delivers broken
    bytes for it, so it stays away, and the other files are untouched. *)
Example demo_repair :
  let w := force_redownload_corrupted demo_download demo_pdf_pages demo_pdf_text
             demo_zip demo_timestamp demo_listdir demo_removable
             (Ok [demo_item]) demo_staging in
  files w !! "data/docs/a.pdf" = None /\ downloads w = 3 /\
  is_Some (files w !! "data/docs/notes.txt").
Proof. vm_compute. repeat split. eauto. Qed.

End Housekeeping.


(** ** backend/onedrive_client.py: uploads *)
Module Upload.

Import OneDriveClient OneDriveTraffic.

(** [s.strip("/")]. *)
Definition strip_slashes (s : string) : string :=
  str (rev (drop_while_eq slash (rev (drop_while_eq slash (chars s))))).

(** [posixpath.basename(p)]: what follows the last slash. *)
Definition basename (p : string) : string :=
  str (rev (take_while (fun c => negb (Ascii.eqb c slash)) (rev (chars p)))).

Example strip_and_basename :
  strip_slashes "/Boeing/docs/" = "Boeing/docs" /\ basename "data/out/all.txt" = "all.txt".
Proof. split; reflexivity. Qed.

(** A JSON object of the Graph API with the string fields the code
    reads; as an [if] condition it counts as true when it has a key. *)
Definition dict := gmap string string.

Definition truthy (d : dict) : bool := negb (bool_decide (d = ∅)).

Definition octet_stream : gmap string string :=
  {[ "Content-Type" := "application/octet-stream" ]}.

Definition application_json : gmap string string :=
  {[ "Content-Type" := "application/json" ]}.

Definition is_root (folder_path : string) : bool :=
  String.eqb folder_path "" || String.eqb folder_path "/".

Definition simple_url (folder_path filename : string) : string :=
  if is_root folder_path
  then GRAPH_BASE_URL +:+ "/me/drive/root/children/" +:+ filename +:+ "/content"
  else GRAPH_BASE_URL +:+ "/me/drive/root:/" +:+ strip_slashes folder_path
       +:+ ":/" +:+ filename +:+ ":/content".

Definition children_endpoint (folder_path : string) : string :=
  if is_root folder_path
  then GRAPH_BASE_URL +:+ "/me/drive/root/children"
  else GRAPH_BASE_URL +:+ "/me/drive/root:/" +:+ strip_slashes folder_path +:+ ":/children".

Definition item_content_url (file_id : option string) : string :=
  GRAPH_BASE_URL +:+ "/me/drive/items/" +:+ default "None" file_id +:+ "/content".

Definition folder_url (folder_path : string) : string :=
  if is_root folder_path
  then GRAPH_BASE_URL +:+ "/me/drive/root"
  else GRAPH_BASE_URL +:+ "/me/drive/root:/" +:+ strip_slashes folder_path.

Definition by_id_url (folder_id filename : string) : string :=
  GRAPH_BASE_URL +:+ "/me/drive/items/" +:+ folder_id +:+ ":/" +:+ filename +:+ ":/content".

(** [resp.status_code in [200, 201]]. *)
Definition created (resp : response) : bool :=
  bool_decide (status_code resp ∈ [200; 201]%Z).

Definition all_failed : exn := mk_exn OtherException "All upload methods failed".

Section Defs.
Variable auth_state : Type.
Variable get_access_token : auth_state -> result string * auth_state.
Variable clear_token_cache : auth_state -> auth_state.
Variable requests_send : list request -> request -> result response.
(** [resp.json()] and [resp.text]. *)
Variable json : response -> result dict.
Variable text : response -> string.
(** [json.dumps(file_metadata).encode('utf-8')] for a file name. *)
Variable metadata_bytes : string -> list Byte.byte.
(** The local file: [None] when [os.path.exists] is false, otherwise
    the outcome of opening and reading it. *)
Variable read_file : string -> option (result (list Byte.byte)).

Local Abbreviation client := (client auth_state).
Local Abbreviation _make_authenticated_request :=
  (_make_authenticated_request auth_state get_access_token clear_token_cache requests_send).

Definition status_error (prefix : string) (resp : response) : exn :=
  mk_exn OtherException
    (prefix +:+ "Status " +:+ pretty (status_code resp) +:+ ": " +:+ text resp).

Definition _upload_via_path_simple (folder_path filename : string)
           (file_content : list Byte.byte) : M client dict :=
  (resp <- _make_authenticated_request (simple_url folder_path filename) "PUT"
             (Some file_content) octet_stream ;;
   if created resp then lift (json resp)
   else raise (status_error "" resp))%py.

Definition _upload_via_path_children (folder_path filename : string)
           (file_content : list Byte.byte) : M client dict :=
  (resp <- _make_authenticated_request (children_endpoint folder_path) "POST"
             (Some (metadata_bytes filename)) application_json ;;
   if negb (created resp) then raise (status_error "Create failed - " resp)
   else
     file_item <- lift (json resp) ;;
     let file_id := file_item !! "id" in
     resp <- _make_authenticated_request (item_content_url file_id) "PUT"
               (Some file_content) octet_stream ;;
     if created resp then lift (json resp)
     else raise (status_error "Content upload failed - " resp))%py.

Definition _get_folder_id (folder_path : string) : M client (option string) :=
  (resp <- _make_authenticated_request (folder_url folder_path) "GET" None ∅ ;;
   if (status_code resp =? 200)%Z then
     d <- lift (json resp) ;; ret (d !! "id")
   else ret None)%py.

Definition _upload_via_folder_id (folder_path filename : string)
           (file_content : list Byte.byte) : M client dict :=
  (folder_id <- _get_folder_id folder_path ;;
   match folder_id with
   | Some fid =>
     if String.eqb fid ""
     then raise (mk_exn OtherException ("Cannot get folder ID for: " +:+ folder_path))
     else
       resp <- _make_authenticated_request (by_id_url fid filename) "PUT"
                 (Some file_content) octet_stream ;;
       if created resp then lift (json resp)
       else raise (status_error "" resp)
   | None => raise (mk_exn OtherException ("Cannot get folder ID for: " +:+ folder_path))
   end)%py.

(** One round of the loop over the methods: [Some result] when the
    method returned a result that counts as true, [None] when it raised
    or returned an empty one. *)
Definition try_method (upload_func : M client dict) : M client (option dict) :=
  fun c =>
    match upload_func c with
    | (Ok result, c') => (Ok (if truthy result then Some result else None), c')
    | (Raise _, c') => (Ok None, c')
    end.

Fixpoint first_result (methods : list (M client dict)) : M client dict :=
  match methods with
  | [] => raise all_failed
  | upload_func :: rest =>
    (r <- try_method upload_func ;;
     match r with
     | Some result => ret result
     | None => first_result rest
     end)%py
  end.

Definition upload_file (local_file_path onedrive_folder_path : string)
           (filename : option string) : M client dict :=
  match read_file local_file_path with
  | None => raise (mk_exn FileNotFoundError ("Local file not found: " +:+ local_file_path))
  | Some (Raise e) => raise e
  | Some (Ok file_content) =>
    let filename := default (basename local_file_path) filename in
    first_result
      [ _upload_via_path_simple onedrive_folder_path filename file_content;
        _upload_via_path_children onedrive_folder_path filename file_content;
        _upload_via_folder_id onedrive_folder_path filename file_content ]
  end.

(** *** Requests spent *)

(** A computation sends at most [n] requests. *)
Definition sends_at_most {A} (n : nat) (m : M client A) : Prop :=
  forall c, length (sent _ (snd (m c))) <= length (sent _ c) + n.

Lemma budget_bind {A B} n k (m : M client A) (f : A -> M client B) :
  sends_at_most n m -> (forall a, sends_at_most k (f a)) ->
  sends_at_most (n + k) (bind m f).
Proof.
  intros Hm Hf c. unfold bind. specialize (Hm c).
  destruct (m c) as [[a|e] c1]; simpl in *; [|lia].
  specialize (Hf a c1). lia.
Qed.

Lemma budget_weaken {A} n k (m : M client A) :
  n <= k -> sends_at_most n m -> sends_at_most k m.
Proof. intros Hle Hm c. specialize (Hm c). lia. Qed.

Lemma budget_pure {A} (r : result A) : sends_at_most 0 (fun c => (r, c)).
Proof. intros c. simpl. lia. Qed.

Lemma budget_request url method data extra :
  sends_at_most 2 (_make_authenticated_request url method data extra).
Proof. intros c. apply request_sent_at_most_twice. Qed.

Lemma budget_simple folder_path filename file_content :
  sends_at_most 2 (_upload_via_path_simple folder_path filename file_content).
Proof.
  unfold _upload_via_path_simple.
  apply (budget_bind 2 0); [apply budget_request|].
  intros resp. destruct (created resp); apply budget_pure.
Qed.

Lemma budget_children folder_path filename file_content :
  sends_at_most 4 (_upload_via_path_children folder_path filename file_content).
Proof.
  unfold _upload_via_path_children.
  apply (budget_bind 2 2); [apply budget_request|].
  intros resp. destruct (negb (created resp)); [apply (budget_weaken 0); [lia|apply budget_pure]|].
  apply (budget_bind 0 2); [apply budget_pure|]. intros file_item.
  apply (budget_bind 2 0); [apply budget_request|].
  intros resp2. destruct (created resp2); apply budget_pure.
Qed.

Lemma budget_folder_id folder_path filename file_content :
  sends_at_most 4 (_upload_via_folder_id folder_path filename file_content).
Proof.
  unfold _upload_via_folder_id, _get_folder_id.
  apply (budget_bind 2 2).
  - apply (budget_bind 2 0); [apply budget_request|].
    intros resp. destruct (status_code resp =? 200)%Z; [|apply budget_pure].
    apply (budget_bind 0 0); [apply budget_pure|]. intros d. apply budget_pure.
  - intros [fid|]; [|apply (budget_weaken 0); [lia|apply budget_pure]].
    destruct (String.eqb fid ""); [apply (budget_weaken 0); [lia|apply budget_pure]|].
    apply (budget_bind 2 0); [apply budget_request|].
    intros resp. destruct (created resp); apply budget_pure.
Qed.

Lemma budget_try n (upload_func : M client dict) :
  sends_at_most n upload_func -> sends_at_most n (try_method upload_func).
Proof.
  intros Hm c. unfold try_method. specialize (Hm c).
  destruct (upload_func c) as [[d|e] c1]; exact Hm.
Qed.

(** What the loop over the methods can hand back. *)
Lemma first_result_outcome (methods : list (M client dict)) : forall c,
  match fst (first_result methods c) with
  | Ok result => result <> ∅
  | Raise e => e = all_failed
  end.
Proof.
  induction methods as [|upload_func rest IH]; intros c; [reflexivity|].
  cbn [first_result]. unfold bind, try_method.
  destruct (upload_func c) as [[d|e] c1]; [|apply IH].
  unfold truthy. destruct (bool_decide (d = ∅)) eqn:Hd; simpl; [apply IH|].
  apply bool_decide_eq_false in Hd. exact Hd.
Qed.

(** X29. An upload of a readable local file sends at most ten requests,
    and the errors of the single methods never reach the caller: the
    call returns a reply object that is not empty, or it raises the one
    exception with the text that all upload methods failed. *)
Theorem upload_outcome (local_file_path onedrive_folder_path : string)
        (filename : option string) (c : client) :
  let r := upload_file local_file_path onedrive_folder_path filename c in
  length (sent _ (snd r)) <= length (sent _ c) + 10 /\
  (forall file_content, read_file local_file_path = Some (Ok file_content) ->
     match fst r with
     | Ok result => result <> ∅
     | Raise e => e = all_failed
     end) /\
  (read_file local_file_path = None -> snd r = c /\
     exists msg, fst r = Raise (mk_exn FileNotFoundError msg)).
Proof.
  cbv zeta. unfold upload_file.
  destruct (read_file local_file_path) as [[file_content|e]|].
  - split; [|split; [|discriminate]].
    + cbn [first_result].
      refine (budget_bind 2 8 _ _ (budget_try 2 _ (budget_simple _ _ _)) _ c).
      intros [d|]; [apply (budget_weaken 0); [lia|apply budget_pure]|].
      refine (budget_bind 4 4 _ _ (budget_try 4 _ (budget_children _ _ _)) _).
      intros [d|]; [apply (budget_weaken 0); [lia|apply budget_pure]|].
      refine (budget_bind 4 0 _ _ (budget_try 4 _ (budget_folder_id _ _ _)) _).
      intros [d|]; apply budget_pure.
    + intros _ _. apply first_result_outcome.
  - simpl. split; [lia|]. split; [discriminate|discriminate].
  - simpl. split; [lia|]. split; [discriminate|].
    intros _. split; [reflexivity|eauto].
Qed.

Lemma truthy_empty : truthy ∅ = false.
Proof. unfold truthy. rewrite bool_decide_eq_true_2; reflexivity. Qed.

Lemma request_once h (c : client) method url data extra rq resp :
  _cached_headers _ c = Some h ->
  request_for method url (update h extra) data = Some rq ->
  requests_send (sent _ c) rq = Ok resp ->
  status_code resp <> 401%Z ->
  _make_authenticated_request url method data extra c
  = (Ok resp, mk_client _ (Some h) (auth _ c) (sent _ c ++ [rq])).
Proof.
  intros Hc Hrq Hsend Hst.
  unfold OneDriveClient._make_authenticated_request, bind,
    OneDriveClient._get_headers.
  rewrite Hc, Hrq. unfold send. rewrite Hsend.
  apply Z.eqb_neq in Hst. rewrite Hst. simpl. rewrite Hc. reflexivity.
Qed.

(** X30. A reply with status 200 or 201 whose body is an empty object is
    taken for a failure: the loop goes on to the next method, so the
    content is sent again. Here the first method is answered that way
    and the second one is answered properly; the result is that of the
    second method, after three requests. *)
Theorem empty_reply_counts_as_failure (h : gmap string string)
        (local_file_path onedrive_folder_path : string) (filename : string)
        (file_content : list Byte.byte) (c : client)
        (resp1 resp2 resp3 : response) (file_item result : dict) :
  read_file local_file_path = Some (Ok file_content) ->
  _cached_headers _ c = Some h ->
  let rq1 := mk_request PUT (simple_url onedrive_folder_path filename)
               (update h octet_stream) (Some file_content) in
  let rq2 := mk_request POST (children_endpoint onedrive_folder_path)
               (update h application_json) (Some (metadata_bytes filename)) in
  let rq3 := mk_request PUT (item_content_url (file_item !! "id"))
               (update h octet_stream) (Some file_content) in
  requests_send (sent _ c) rq1 = Ok resp1 ->
  requests_send (sent _ c ++ [rq1]) rq2 = Ok resp2 ->
  requests_send (sent _ c ++ [rq1; rq2]) rq3 = Ok resp3 ->
  status_code resp1 = 200%Z -> json resp1 = Ok ∅ ->
  status_code resp2 = 201%Z -> json resp2 = Ok file_item ->
  status_code resp3 = 201%Z -> json resp3 = Ok result -> result <> ∅ ->
  upload_file local_file_path onedrive_folder_path (Some filename) c
  = (Ok result, mk_client _ (Some h) (auth _ c) (sent _ c ++ [rq1; rq2; rq3])).
Proof.
  intros Hread Hh rq1 rq2 rq3 Hs1 Hs2 Hs3 Hst1 Hj1 Hst2 Hj2 Hst3 Hj3 Hne.
  unfold upload_file. rewrite Hread. cbn [from_option first_result]. unfold Datatypes.id.
  unfold bind at 1. unfold try_method at 1.
  unfold _upload_via_path_simple. unfold bind at 1.
  rewrite (request_once h c "PUT" _ _ _ rq1 resp1 Hh eq_refl Hs1)
    by (rewrite Hst1; lia).
  unfold created. rewrite Hst1. simpl. unfold lift. rewrite Hj1. simpl.
  rewrite truthy_empty. cbv beta iota.
  unfold bind at 1. unfold try_method at 1.
  unfold _upload_via_path_children. unfold bind at 1.
  rewrite (request_once h (mk_client _ (Some h) (auth _ c) (sent _ c ++ [rq1]))
             "POST" _ _ _ rq2 resp2 eq_refl eq_refl Hs2)
    by (rewrite Hst2; lia).
  unfold created. rewrite Hst2. simpl. unfold bind at 1. unfold lift at 1. rewrite Hj2.
  unfold bind at 1.
  assert (Hs3' : requests_send ((sent _ c ++ [rq1]) ++ [rq2]) rq3 = Ok resp3)
    by (rewrite <- app_assoc; exact Hs3).
  rewrite (request_once h (mk_client _ (Some h) (auth _ c) ((sent _ c ++ [rq1]) ++ [rq2]))
             "PUT" _ _ _ rq3 resp3 eq_refl eq_refl Hs3')
    by (rewrite Hst3; lia).
  rewrite Hst3. simpl. unfold lift. rewrite Hj3.
  unfold truthy. rewrite bool_decide_eq_false_2 by exact Hne. simpl.
  rewrite <- !app_assoc. reflexivity.
Qed.

End Defs.

(** A server that answers the first upload with an empty object, then
    creates the item and takes its content. *)
Definition demo_upload_server (history : list request) (_ : request) : result response :=
  Ok (match history with
      | [] => mk_response 200 []
      | [_] => mk_response 201 [Byte.x01]
      | _ => mk_response 201 [Byte.x02]
      end).

Definition demo_created : dict := {[ "id" := "F1" ]}.

Definition demo_json (resp : response) : result dict :=
  Ok (match resp_content resp with
      | [] => ∅
      | _ => demo_created
      end).

Definition demo_text (_ : response) : string := "".

Definition demo_metadata (_ : string) : list Byte.byte := [Byte.x7b; Byte.x7d].

Definition demo_read (path : string) : option (result (list Byte.byte)) :=
  if String.eqb path "data/all.txt" then Some (Ok [Byte.x25]) else None.

Definition demo_client : client nat := mk_client nat (Some demo_headers) 1 [].

Lemma demo_created_nonempty : demo_created <> ∅.
Proof.
  intros H. apply (f_equal (fun d : dict => d !! "id")) in H.
  vm_compute in H. discriminate H.
Defined.

Lemma empty_reply_counts_as_failure_witness :
  fst (upload_file nat demo_token demo_clear demo_upload_server demo_json demo_text
         demo_metadata demo_read "data/all.txt" "/Boeing" (Some "all.txt") demo_client)
  = Ok demo_created.
Proof.
  exact (f_equal fst
    (empty_reply_counts_as_failure nat demo_token demo_clear demo_upload_server
       demo_json demo_text demo_metadata demo_read demo_headers
       "data/all.txt" "/Boeing" "all.txt" [Byte.x25] demo_client
       (mk_response 200 []) (mk_response 201 [Byte.x01]) (mk_response 201 [Byte.x02])
       demo_created demo_created
       eq_refl eq_refl eq_refl eq_refl eq_refl eq_refl eq_refl eq_refl eq_refl eq_refl
       eq_refl demo_created_nonempty)).
Defined.

(** When every reply is a refusal, the three methods are tried in turn
    and the caller sees the one summary exception. *)
Example demo_upload_refused :
  let refuse := fun (_ : list request) (_ : request) => Ok (mk_response 403 []) in
  let r := upload_file nat demo_token demo_clear refuse demo_json demo_text
             demo_metadata demo_read "data/all.txt" "/Boeing" None demo_client in
  fst r = Raise all_failed /\ length (sent nat (snd r)) = 3.
Proof. vm_compute. split; reflexivity. Qed.

End Upload.
